(** * DicomImageRedactorEngine: a shallow embedding and its verified properties

    The development follows
    [presidio_image_redactor/dicom_image_redactor_engine.py].  Every Python
    method of [DicomImageRedactorEngine] that the properties below talk
    about is translated into a Rocq definition of the same name.

    Conventions of the embedding:
    - Python [int]s are [Z]; list positions are [nat].
    - A raised exception is a value of [exn]; a method that may raise
      returns [res A].
    - Objects that the code mutates in place (the DICOM dataset and its
      decoded pixel array) live in a store [heap]; methods that mutate run
      in the state-and-exception monad [M].
    - Libraries the engine calls (numpy, PIL, pathlib, pydicom) are modelled
      by the small part of their behaviour that the engine relies on; each
      such definition says which library call it stands for. *)

From Stdlib Require Import ZArith List String Ascii Bool Lia.
From Stdlib Require Import Floats.SpecFloat.
From stdpp Require Import base option list gmap strings pretty sorting.
From Equations Require Import Equations.

Local Open Scope Z_scope.

(** ** Exceptions and results *)

(** The exceptions that the modelled code raises.  [Stuck] is no Python
    exception: it marks a store in which a reference does not lead to an
    object of the kind it promises, which cannot occur in a running
    program. *)
Inductive exn : Type :=
| ValueError (msg : string)
| TypeError (msg : string)
| KeyError (group element : Z)
| IndexError (msg : string)
| AttributeError (msg : string)
| UnboundLocalError (name : string)
| PngError (msg : string)
| Stuck (msg : string).

Inductive res (A : Type) : Type :=
| Ok (a : A)
| Raise (e : exn).
Arguments Ok {A} a.
Arguments Raise {A} e.

Definition res_bind {A B} (m : res A) (k : A -> res B) : res B :=
  match m with
  | Ok a => k a
  | Raise e => Raise e
  end.

#[global] Instance res_ret : MRet res := fun A a => Ok a.
#[global] Instance res_mbind : MBind res := fun A B k m => res_bind m k.

(** A configuration error is the [ValueError] the engine raises on purpose
    for a bad option value. *)
Definition is_ValueError {A} (r : res A) : bool :=
  match r with
  | Raise (ValueError _) => true
  | _ => false
  end.

(** A lookup error is a [KeyError] or an [IndexError], the two subclasses
    of Python's [LookupError] among the exceptions above. *)
Definition is_LookupError {A} (r : res A) : bool :=
  match r with
  | Raise (KeyError _ _) | Raise (IndexError _) => true
  | _ => false
  end.

(** ** Box geometry: [_get_bboxes_from_analyzer_results], [_format_bboxes] *)

Module Bboxes.

(** What [ImageRecognizerResult.to_dict()] exposes of a detection. *)
Record AnalyzerResult := {
  entity_type : string;
  score : spec_float;
  left : Z;
  top : Z;
  width : Z;
  height : Z
}.

(** The value stored under each key of [bboxes_dict]. *)
Record BboxInfo := {
  bi_entity_type : string;
  bi_score : spec_float;
  bi_left : Z;
  bi_top : Z;
  bi_width : Z;
  bi_height : Z
}.

(** The four-key dict built by [_format_bboxes]. *)
Record Rectangle := {
  r_top : Z;
  r_left : Z;
  r_width : Z;
  r_height : Z
}.

(** A Python [dict] with string keys: insertion ordered, assignment to an
    existing key keeps the key's position. *)
Definition dict (V : Type) := list (string * V).

Fixpoint dict_setitem {V} (d : dict V) (k : string) (v : V) : dict V :=
  match d with
  | [] => [(k, v)]
  | (k', v') :: d' =>
      if String.eqb k' k then (k', v) :: d' else (k', v') :: dict_setitem d' k v
  end.

Fixpoint dict_getitem {V} (d : dict V) (k : string) : option V :=
  match d with
  | [] => None
  | (k', v') :: d' => if String.eqb k' k then Some v' else dict_getitem d' k
  end.

Definition dict_keys {V} (d : dict V) : list string := map fst d.

(** [str(i)] for a list position. *)
Definition str_nat (i : nat) : string := pretty i.

Definition to_bbox_info (result : AnalyzerResult) : BboxInfo :=
  {| bi_entity_type := entity_type result;
     bi_score := score result;
     bi_left := left result;
     bi_top := top result;
     bi_width := width result;
     bi_height := height result |}.

(** The loop [for i in range(0, len(analyzer_results))], with [i] the
    position of the head of [rest] in the whole list. *)
Fixpoint bboxes_loop (i : nat) (rest : list AnalyzerResult) (bboxes_dict : dict BboxInfo)
  : dict BboxInfo :=
  match rest with
  | [] => bboxes_dict
  | result :: rest' =>
      bboxes_loop (S i) rest' (dict_setitem bboxes_dict (str_nat i) (to_bbox_info result))
  end.

Definition _get_bboxes_from_analyzer_results (analyzer_results : list AnalyzerResult)
  : dict BboxInfo :=
  bboxes_loop 0 analyzer_results [].

Definition remove_padding (padding_width : Z) (bbox : BboxInfo) : Rectangle :=
  {| r_top := Z.max 0 (bi_top bbox - padding_width);
     r_left := Z.max 0 (bi_left bbox - padding_width);
     r_width := bi_width bbox;
     r_height := bi_height bbox |}.

Definition _format_bboxes (analyzer_results : list AnalyzerResult) (padding_width : Z)
  : res (list Rectangle) :=
  if padding_width <? 0 then Raise (ValueError "Padding width must be a positive number.")
  else
    let phi_bboxes_dict := _get_bboxes_from_analyzer_results analyzer_results in
    (* [phi_bboxes_dict[i] for i in phi_bboxes_dict.keys()] *)
    let bboxes := omap (dict_getitem phi_bboxes_dict) (dict_keys phi_bboxes_dict) in
    Ok (map (remove_padding padding_width) bboxes).

(** The rectangle the reconciler is meant to produce for one detection. *)
Definition reconciled (w : Z) (result : AnalyzerResult) : Rectangle :=
  {| r_top := Z.max 0 (top result - w);
     r_left := Z.max 0 (left result - w);
     r_width := width result;
     r_height := height result |}.

Section Facts.

Context {V : Type}.
Implicit Types (d : dict V) (k : string) (v : V).

Lemma dict_setitem_fresh d k v :
  k ∉ dict_keys d -> dict_setitem d k v = d ++ [(k, v)].
Proof.
  induction d as [|[k' v'] d IH]; simpl; intros Hk; [done|].
  apply not_elem_of_cons in Hk as [Hne Hk].
  destruct (String.eqb_spec k' k) as [->|_]; [done|].
  by rewrite IH.
Qed.

Lemma dict_getitem_app_fresh d k v :
  k ∉ dict_keys d -> dict_getitem (d ++ [(k, v)]) k = Some v.
Proof.
  induction d as [|[k' v'] d IH]; simpl; intros Hk.
  - by rewrite String.eqb_refl.
  - apply not_elem_of_cons in Hk as [Hne Hk].
    destruct (String.eqb_spec k' k) as [->|_]; [done|]. by apply IH.
Qed.

Lemma dict_getitem_app_l d d' k v :
  dict_getitem d k = Some v -> dict_getitem (d ++ d') k = Some v.
Proof.
  induction d as [|[k' v'] d IH]; simpl; [done|].
  destruct (String.eqb k' k); [done|]. apply IH.
Qed.

End Facts.

(** The dict built from the first [i] results followed by [rest] holds
    exactly one entry per result, keyed by its position, in order. *)
Lemma bboxes_loop_spec rest : forall i (done : list AnalyzerResult),
  length done = i ->
  bboxes_loop i rest (imap (fun j r => (str_nat j, to_bbox_info r)) done)
  = imap (fun j r => (str_nat j, to_bbox_info r)) (done ++ rest).
Proof.
  induction rest as [|r rest IH]; intros i done Hlen; simpl.
  - by rewrite app_nil_r.
  - rewrite dict_setitem_fresh.
    + replace (done ++ r :: rest) with ((done ++ [r]) ++ rest) by by rewrite <- app_assoc.
      rewrite <- (IH (S i) (done ++ [r])).
      * f_equal. rewrite imap_app. simpl. by rewrite Nat.add_0_r, Hlen.
      * rewrite length_app. simpl. lia.
    + unfold dict_keys. rewrite list_elem_of_fmap.
      intros [[k v] [Hk Hin]]. simpl in Hk.
      apply elem_of_lookup_imap in Hin as (j & r' & Heq & Hj).
      injection Heq as Hkj _. subst k.
      apply lookup_lt_Some in Hj.
      unfold str_nat in Hkj. apply (inj pretty) in Hkj. lia.
Qed.

Lemma get_bboxes_spec results :
  _get_bboxes_from_analyzer_results results
  = imap (fun j r => (str_nat j, to_bbox_info r)) results.
Proof. apply (bboxes_loop_spec results 0 []). done. Qed.

(** Reading every key of a dict whose keys are pairwise distinct gives back
    its values in order. *)
Lemma values_by_keys {V} (d : dict V) :
  NoDup (dict_keys d) -> omap (dict_getitem d) (dict_keys d) = map snd d.
Proof.
  intros Hnd.
  assert (Hgen : forall pre suf, d = pre ++ suf ->
            omap (dict_getitem d) (dict_keys suf) = map snd suf).
  { intros pre suf. revert pre.
    induction suf as [|[k v] suf IH]; intros pre Hd; [done|].
    simpl. assert (Hget : dict_getitem d k = Some v).
    { subst d. unfold dict_keys in Hnd. rewrite fmap_app in Hnd.
      apply NoDup_app in Hnd as (_ & Hdisj & _).
      clear IH. induction pre as [|[k' v'] pre IHp]; simpl.
      - by rewrite String.eqb_refl.
      - destruct (String.eqb_spec k' k) as [->|_].
        + exfalso. apply (Hdisj k); simpl; [left | left].
        + apply IHp. intros x Hx. apply Hdisj. simpl. by right. }
    rewrite Hget. f_equal. apply (IH (pre ++ [(k, v)])).
    by rewrite <- app_assoc. }
  apply (Hgen [] d). done.
Qed.

Lemma keys_imap_NoDup (results : list AnalyzerResult) :
  NoDup (dict_keys (imap (fun j r => (str_nat j, to_bbox_info r)) results)).
Proof.
  unfold dict_keys. apply NoDup_alt. intros i j k Hi Hj.
  rewrite list_lookup_fmap in Hi, Hj.
  rewrite list_lookup_imap in Hi, Hj.
  destruct (results !! i) as [ri|]; [|done].
  destruct (results !! j) as [rj|]; [|done].
  simpl in *. injection Hi as <-. injection Hj as Hj.
  unfold str_nat in Hj. by apply (inj pretty) in Hj.
Qed.

Lemma format_bboxes_ok results w :
  0 <= w -> _format_bboxes results w = Ok (map (reconciled w) results).
Proof.
  intros Hw. unfold _format_bboxes.
  destruct (Z.ltb_spec w 0) as [?|_]; [lia|].
  rewrite get_bboxes_spec, values_by_keys by apply keys_imap_NoDup.
  f_equal. rewrite !map_map.
  set (g := fun x : string * BboxInfo => remove_padding w (snd x)).
  change (map g (imap (fun j r => (str_nat j, to_bbox_info r)) results)
          = map (reconciled w) results).
  change (map g) with (fmap (M := list) g). rewrite fmap_imap.
  rewrite (imap_ext _ (const (reconciled w))) by done.
  apply imap_const.
Qed.

(** C3. For every ordered sequence of detection results and every
    non-negative padding width [w], [_format_bboxes] returns a list of the
    same length in the same order, where the rectangle at each position has
    [top = max(0, top - w)], [left = max(0, left - w)] and the width and
    height of the detection at that position; for every negative padding
    width it raises the [ValueError], whatever the results are. *)
Theorem format_bboxes_spec (results : list AnalyzerResult) (w : Z) :
  (0 <= w ->
   exists bboxes,
     _format_bboxes results w = Ok bboxes
     /\ length bboxes = length results
     /\ forall i result, results !! i = Some result ->
          exists bbox, bboxes !! i = Some bbox
            /\ r_top bbox = Z.max 0 (top result - w)
            /\ r_left bbox = Z.max 0 (left result - w)
            /\ r_width bbox = width result
            /\ r_height bbox = height result)
  /\ (w < 0 ->
      _format_bboxes results w
      = Raise (ValueError "Padding width must be a positive number.")).
Proof.
  split.
  - intros Hw. exists (map (reconciled w) results).
    split; [by apply format_bboxes_ok|]. split; [by rewrite length_map|].
    intros i result Hi. exists (reconciled w result). split; [|done].
    change (map (reconciled w) results) with (reconciled w <$> results).
    by rewrite list_lookup_fmap, Hi.
  - intros Hw. unfold _format_bboxes.
    destruct (Z.ltb_spec w 0) as [_|?]; [done|lia].
Qed.

Definition sample_result : AnalyzerResult :=
  {| entity_type := "PERSON"; score := S754_zero false;
     left := 30; top := 12; width := 40; height := 9 |}.

Lemma format_bboxes_spec_witness :
  0 <= 25
  /\ exists bboxes,
       _format_bboxes [sample_result; sample_result] 25 = Ok bboxes
       /\ length bboxes = 2%nat.
Proof.
  split; [lia|].
  destruct (proj1 (format_bboxes_spec [sample_result; sample_result] 25))
    as (bboxes & Hrun & Hlen & _); [lia|].
  exists bboxes. split; [exact Hrun | exact Hlen].
Defined.

End Bboxes.

(** ** Python strings

    Strings are sequences of one-byte characters; the case operations act
    on the ASCII letters and leave every other byte as it is. *)

Module PyStr.

Definition is_upper (c : ascii) : bool :=
  let n := N_of_ascii c in ((65 <=? n) && (n <=? 90))%N.

Definition is_lower (c : ascii) : bool :=
  let n := N_of_ascii c in ((97 <=? n) && (n <=? 122))%N.

Definition is_cased (c : ascii) : bool := is_upper c || is_lower c.

Definition to_upper (c : ascii) : ascii :=
  if is_lower c then ascii_of_N (N_of_ascii c - 32) else c.

Definition to_lower (c : ascii) : ascii :=
  if is_upper c then ascii_of_N (N_of_ascii c + 32) else c.

Fixpoint map_chars (f : ascii -> ascii) (s : string) : string :=
  match s with
  | EmptyString => EmptyString
  | String c s' => String (f c) (map_chars f s')
  end.



(** [s.upper()] and [s.lower()], for ASCII [s] *)
Definition upper (s : string) : string := map_chars to_upper s.
Definition lower (s : string) : string := map_chars to_lower s.

(** [s.replace(old, new)] for one-character [old] and [new] *)
Definition replace_char (old new : ascii) (s : string) : string :=
  map_chars (fun c => if Ascii.eqb c old then new else c) s.

(** [s.title()], for ASCII [s]: a cased character is upper-cased when the
    character before it is not cased, and lower-cased otherwise. *)
Fixpoint title_from (previous_is_cased : bool) (s : string) : string :=
  match s with
  | EmptyString => EmptyString
  | String c s' =>
      if is_cased c
      then String (if previous_is_cased then to_lower c else to_upper c)
                  (title_from true s')
      else String c (title_from false s')
  end.

Definition title (s : string) : string := title_from false s.

(** [s.split(sep)] for a one-character separator: empty fields are kept. *)
Fixpoint split (sep : ascii) (s : string) : list string :=
  match s with
  | EmptyString => [EmptyString]
  | String c s' =>
      if Ascii.eqb c sep then EmptyString :: split sep s'
      else match split sep s' with
           | field :: fields => String c field :: fields
           | [] => [String c EmptyString]
           end
  end.

(** [sub in s] *)
Fixpoint contains (sub s : string) : bool :=
  String.prefix sub s ||
  match s with
  | EmptyString => false
  | String _ s' => contains sub s'
  end.

(** [sep.join(fields)] *)
Definition join (sep : string) (fields : list string) : string :=
  String.concat sep fields.

Example upper_ex : upper "Doe Jane" = "DOE JANE"%string.
Proof. reflexivity. Qed.

Example title_ex : title "doe jANE o'neil" = "Doe Jane O'Neil"%string.
Proof. reflexivity. Qed.

Example split_ex : split " " "Doe  Jane" = ["Doe"; ""; "Jane"]%string.
Proof. reflexivity. Qed.

End PyStr.

(** ** Metadata values *)

Module PyVal.

(** The three container types that [_make_phi_list] flattens. *)
Inductive seq_kind : Type := MultiValue | PyList | PyTuple.

(** A DICOM element value as the engine sees it: a text value, an integer,
    or a container of values. *)
#[warnings="-register-all"] Inductive value : Type :=
| VStr (s : string)
| VInt (n : Z)
| VSeq (kind : seq_kind) (items : list value).

Definition is_sequence (v : value) : bool :=
  match v with
  | VSeq _ _ => true
  | _ => false
  end.

(** [list == MultiValue] compares the underlying lists; a tuple is only
    equal to a tuple. *)
Definition kind_eq (k k' : seq_kind) : bool :=
  match k, k' with
  | PyTuple, PyTuple => true
  | PyTuple, _ | _, PyTuple => false
  | _, _ => true
  end.

(** Python's [==] on values. *)
Fixpoint py_eq (a b : value) {struct a} : bool :=
  match a, b with
  | VStr s, VStr t => String.eqb s t
  | VInt m, VInt n => Z.eqb m n
  | VSeq k items, VSeq k' items' =>
      kind_eq k k' &&
      (fix all_eq (l l' : list value) {struct l} : bool :=
         match l, l' with
         | [], [] => true
         | x :: xs, y :: ys => py_eq x y && all_eq xs ys
         | _, _ => false
         end) items items'
  | _, _ => false
  end.

Definition quote (s : string) : string := ("'" ++ s ++ "'")%string.

(** [repr(v)].  For a text value this is the value between single quotes,
    which is Python's [repr] of a string that holds no quote, backslash or
    control character. *)
Fixpoint repr (v : value) : string :=
  match v with
  | VStr s => quote s
  | VInt n => pretty n
  | VSeq PyTuple items =>
      match items with
      | [x] => ("(" ++ repr x ++ ",)")%string
      | _ => ("(" ++ PyStr.join ", " (map repr items) ++ ")")%string
      end
  | VSeq _ items => ("[" ++ PyStr.join ", " (map repr items) ++ "]")%string
  end.

(** [str(v)].  pydicom prints an empty [MultiValue] as the empty string. *)
Definition str (v : value) : string :=
  match v with
  | VStr s => s
  | VSeq MultiValue [] => ""%string
  | _ => repr v
  end.

(** [l.remove(x)]: delete the first element equal to [x]. *)
Fixpoint list_remove (x : value) (l : list value) : list value :=
  match l with
  | [] => []
  | y :: l' => if py_eq y x then l' else y :: list_remove x l'
  end.

Example str_list_ex : str (VSeq PyList [VStr "a"; VInt (-3)]) = "['a', -3]"%string.
Proof. reflexivity. Qed.

Example str_tuple_ex : str (VSeq PyTuple [VStr "a"]) = "('a',)"%string.
Proof. reflexivity. Qed.

Lemma kind_eq_refl k : kind_eq k k = true.
Proof. by destruct k. Qed.

Lemma py_eq_refl : forall v, py_eq v v = true.
Proof.
  fix IH 1. intros [s|n|k items]; simpl.
  - apply String.eqb_refl.
  - apply Z.eqb_refl.
  - rewrite kind_eq_refl. simpl.
    induction items as [|x xs IHxs]; [done|].
    by rewrite IH, IHxs.
Qed.

End PyVal.

(** ** The metadata PHI synthesizer: [_process_names],
    [_add_known_generic_phi], [_make_phi_list] *)

Module Phi.
Import PyVal.

(** The body of the loop of [_process_names] for a name element. *)
Definition name_iterations (phi_list : list value) (v : value) : list value :=
  let original_text := str v in
  let text_1 := PyStr.replace_char "^" " " original_text in
  let text_2 := PyStr.upper text_1 in
  let text_3 := PyStr.lower text_1 in
  let text_4 := PyStr.title text_1 in
  let phi_list := phi_list ++ [VStr text_1; VStr text_2; VStr text_3; VStr text_4] in
  let phi_list := phi_list ++ map VStr (PyStr.split " " text_1) in
  let phi_list := phi_list ++ map VStr (PyStr.split " " text_2) in
  let phi_list := phi_list ++ map VStr (PyStr.split " " text_3) in
  phi_list ++ map VStr (PyStr.split " " text_4).

(** [for i in range(0, len(text_metadata))], with [rest] the elements from
    position [i] on.  [is_name[i]] raises when [is_name] is too short. *)
Fixpoint process_names_loop (i : nat) (rest : list value) (is_name : list bool)
    (phi_list : list value) : res (list value) :=
  match rest with
  | [] => Ok phi_list
  | v :: rest' =>
      match is_name !! i with
      | None => Raise (IndexError "list index out of range")
      | Some true => process_names_loop (S i) rest' is_name (name_iterations phi_list v)
      | Some false => process_names_loop (S i) rest' is_name phi_list
      end
  end.

Definition _process_names (text_metadata : list value) (is_name : list bool)
  : res (list value) :=
  process_names_loop 0 text_metadata is_name text_metadata.

Definition sentinels : list string :=
  ["M"; "[M]"; "F"; "[F]"; "X"; "[X]"; "U"; "[U]"]%string.

Definition _add_known_generic_phi (phi_list : list value) : list value :=
  phi_list ++ [VStr "M"] ++ [VStr "[M]"] ++ [VStr "F"] ++ [VStr "[F]"]
           ++ [VStr "X"] ++ [VStr "[X]"] ++ [VStr "U"] ++ [VStr "[U]"].

(** Size of a value, used to see that the flattening loop stops. *)
Fixpoint weight (v : value) : nat :=
  match v with
  | VSeq _ items => S (list_sum (map weight items))
  | _ => 1
  end.

Definition weight_list (l : list value) : nat := list_sum (map weight l).

Definition inspect {A} (a : A) : {b : A | a = b} := exist _ a eq_refl.

Lemma weight_list_app l l' : weight_list (l ++ l') = (weight_list l + weight_list l')%nat.
Proof. unfold weight_list. by rewrite map_app, list_sum_app. Qed.

Lemma weight_list_drop_le n l : (weight_list (drop n l) <= weight_list l)%nat.
Proof.
  revert n. induction l as [|x l IH]; intros [|n]; simpl; try lia.
  specialize (IH n). unfold weight_list in *. simpl. lia.
Qed.

Lemma weight_list_drop_lookup i l x :
  l !! i = Some x ->
  weight_list (drop i l) = (weight x + weight_list (drop (S i) l))%nat.
Proof.
  revert i. induction l as [|y l IH]; intros [|i] Hi; simplify_eq/=.
  - by rewrite drop_0.
  - by apply IH.
Qed.

(** Deleting an element at or before position [i] moves the elements after
    position [i] one place to the left. *)
Lemma drop_list_remove l : forall i x y,
  l !! i = Some y -> py_eq y x = true ->
  drop (S i) (list_remove x l) = drop (S (S i)) l.
Proof.
  induction l as [|a l IH]; intros i x y Hi Heq; [done|].
  simpl. destruct (py_eq a x) eqn:Ha; [done|].
  destruct i as [|i]; simplify_eq/=; [congruence|]. by apply (IH i x y).
Qed.

Lemma flatten_step_decreases phi_list i kind items :
  phi_list !! i = Some (VSeq kind items) ->
  (weight_list (drop (S i) (list_remove (VSeq kind items) (phi_list ++ items)))
   < weight_list (drop i phi_list))%nat.
Proof.
  intros Hi.
  rewrite (drop_list_remove _ i _ (VSeq kind items));
    [|by apply lookup_app_l_Some|apply py_eq_refl].
  rewrite (weight_list_drop_lookup _ _ _ Hi). simpl.
  rewrite drop_app, weight_list_app.
  pose proof (weight_list_drop_le (S (S i) - length phi_list) items).
  pose proof (weight_list_drop_le 1 (drop (S i) phi_list)) as Hd.
  rewrite drop_drop in Hd. replace (S i + 1)%nat with (S (S i)) in Hd by lia.
  unfold weight_list in *. lia.
Qed.

(** The loop [for phi in phi_list] of [_make_phi_list].  A Python list
    iterator is a position [i] into the list: each round reads
    [phi_list[i]], moves to [i + 1], and stops when [i] is past the end of
    the list as it is then.  The body appends to and removes from the very
    list that is being iterated. *)
Equations? flatten_loop (phi_list : list value) (i : nat) : list value
  by wf (weight_list (drop i phi_list)) lt :=
  flatten_loop phi_list i with inspect (phi_list !! i) := {
    | exist _ None _ := phi_list
    | exist _ (Some (VSeq kind items)) Hphi :=
        flatten_loop (list_remove (VSeq kind items) (phi_list ++ items)) (S i)
    | exist _ (Some _) Hphi := flatten_loop phi_list (S i) }.
Proof.
  - rewrite (weight_list_drop_lookup _ _ _ Hphi). simpl. lia.
  - rewrite (weight_list_drop_lookup _ _ _ Hphi). simpl. lia.
  - by apply flatten_step_decreases.
Qed.

(** [list(set(l))]: the distinct strings of [l], in the order the set
    gives them. *)
Definition list_of_set (l : list string) : list string :=
  elements (list_to_set l : gset string).

Definition _make_phi_list (original_metadata : list value)
    (is_name : list bool) (is_patient : list bool) : res (list string) :=
  phi_list ← _process_names original_metadata is_name;
  let phi_list := _add_known_generic_phi phi_list in
  let phi_list := flatten_loop phi_list 0 in
  let phi_str_list := map str phi_list in
  Ok (list_of_set phi_str_list).

Example make_phi_list_empty :
  exists phi, _make_phi_list [] [] [] = Ok phi /\ phi ≡ₚ sentinels.
Proof. eexists. split; [reflexivity|]. vm_compute. solve_Permutation. Qed.

Lemma process_names_loop_ok is_name rest : forall i phi_list,
  (i + length rest <= length is_name)%nat ->
  exists phi_list', process_names_loop i rest is_name phi_list = Ok phi_list'.
Proof.
  induction rest as [|v rest IH]; intros i phi_list Hlen; simpl in *; [by eexists|].
  destruct (lookup_lt_is_Some_2 is_name i) as [b Hb]; [lia|].
  rewrite Hb. destruct b; apply IH; lia.
Qed.

Lemma elem_of_add_known_generic_phi phi_list s :
  s ∈ sentinels -> VStr s ∈ _add_known_generic_phi phi_list.
Proof.
  intros Hs. unfold _add_known_generic_phi. apply elem_of_app. right.
  simpl. apply (list_elem_of_fmap_2 VStr) in Hs. exact Hs.
Qed.

Lemma elem_of_list_remove_ne x y l :
  py_eq y x = false -> y ∈ l -> y ∈ list_remove x l.
Proof.
  intros Hne. induction l as [|a l IH]; [done|].
  intros [->|Hin]%elem_of_cons; simpl.
  - rewrite Hne. by left.
  - destruct (py_eq a x); [done|]. right. by apply IH.
Qed.

(** The flattening loop never drops a text value. *)
Lemma flatten_loop_keeps_text phi_list i : forall s,
  VStr s ∈ phi_list -> VStr s ∈ flatten_loop phi_list i.
Proof.
  funelim (flatten_loop phi_list i); intros t Hin; [eauto|eauto| |done].
  match goal with IH : forall _, _ -> _ ∈ flatten_loop _ _ |- _ => apply IH end.
  apply elem_of_list_remove_ne; [done|]. apply elem_of_app. by left.
Qed.

(** C4. Whenever [_make_phi_list] produces a deny-list, the list contains
    all eight sentinel strings; it produces one for every metadata list,
    the empty one included, as long as [is_name] has an entry for each
    metadata value (which is how [_get_text_metadata] builds it). *)
Theorem make_phi_list_sentinels (original_metadata : list value)
    (is_name is_patient : list bool) :
  ((length original_metadata <= length is_name)%nat ->
   exists phi, _make_phi_list original_metadata is_name is_patient = Ok phi)
  /\ (forall phi, _make_phi_list original_metadata is_name is_patient = Ok phi ->
       forall s, s ∈ sentinels -> s ∈ phi).
Proof.
  unfold _make_phi_list, _process_names. split.
  - intros Hlen.
    destruct (process_names_loop_ok is_name original_metadata 0 original_metadata)
      as [phi_list ->]; [simpl; lia|]. by eexists.
  - intros phi Hrun s Hs.
    destruct (process_names_loop 0 original_metadata is_name original_metadata)
      as [phi_list|e]; simpl in Hrun; [|done].
    injection Hrun as <-. unfold list_of_set.
    apply elem_of_elements, elem_of_list_to_set.
    apply (list_elem_of_fmap_2 str _ (VStr s)).
    by apply flatten_loop_keeps_text, elem_of_add_known_generic_phi.
Qed.

Lemma make_phi_list_sentinels_witness :
  (length [VStr "Doe^Jane"; VSeq MultiValue [VStr "ORIGINAL"; VStr "PRIMARY"]]
   <= length [true; false])%nat
  /\ exists phi,
       _make_phi_list [VStr "Doe^Jane"; VSeq MultiValue [VStr "ORIGINAL"; VStr "PRIMARY"]]
         [true; false] [true; false] = Ok phi.
Proof.
  split; [simpl; lia|].
  apply (proj1 (make_phi_list_sentinels _ [true; false] [true; false])).
  simpl; lia.
Defined.

(** Two multi-valued elements next to each other, as [ImageType] and a
    second multi-valued attribute are in a DICOM header. *)
Definition adjacent_sequences : list value :=
  [VSeq MultiValue [VStr "ORIGINAL"; VStr "PRIMARY"];
   VSeq MultiValue [VStr "AXIAL"; VStr "LOCALIZER"]].

(** C5 (the code departs from the property).  On two adjacent multi-valued
    values the loop flattens the first, removes it, and thereby steps over
    the second: the second value is still a sequence when the loop ends,
    the deny-list holds its string form, and its leaves ["AXIAL"] and
    ["LOCALIZER"] are missing from the deny-list. *)
Theorem make_phi_list_skips_adjacent_sequence :
  VSeq MultiValue [VStr "AXIAL"; VStr "LOCALIZER"]
    ∈ flatten_loop (_add_known_generic_phi adjacent_sequences) 0
  /\ exists phi,
       _make_phi_list adjacent_sequences [false; false] [false; false] = Ok phi
       /\ ("['AXIAL', 'LOCALIZER']"%string ∈ phi)
       /\ ("ORIGINAL"%string ∈ phi)
       /\ ("AXIAL"%string ∉ phi)
       /\ ("LOCALIZER"%string ∉ phi).
Proof.
  split; [vm_compute; apply list_elem_of_here|].
  eexists. split; [reflexivity|].
  repeat split; compute_done.
Qed.

(** The same happens one level down: the items of a flattened sequence are
    appended next to each other, so of two nested sequences the second is
    stepped over. *)
Example make_phi_list_skips_nested_sequence :
  exists phi,
    _make_phi_list [VSeq PyList [VSeq PyList [VStr "a"]; VSeq PyList [VStr "b"]]]
      [false] [false] = Ok phi
    /\ ("['b']"%string ∈ phi) /\ ("a"%string ∈ phi) /\ ("b"%string ∉ phi).
Proof. eexists. split; [reflexivity|]. repeat split; compute_done. Qed.

(** The iterations of a name: separator replaced, upper, lower and title
    case, and the tokens of each. *)
Example make_phi_list_name_expansion :
  match _make_phi_list [VStr "Doe^Jane"] [true] [true] with
  | Ok phi =>
      forallb (fun s => bool_decide (s ∈ phi))
        ["Doe Jane"; "DOE JANE"; "doe jane"; "Doe"; "DOE"; "doe"; "Jane"; "JANE"; "jane"]%string
      = true
  | Raise _ => False
  end.
Proof. vm_compute. reflexivity. Qed.

(** A single sequence followed by a text value is flattened. *)
Example make_phi_list_flattens_single :
  exists phi,
    _make_phi_list [VSeq PyList [VStr "a"; VStr "b"]; VStr "c"] [false; false] [false; false]
      = Ok phi
    /\ ("a"%string ∈ phi) /\ ("b"%string ∈ phi) /\ ("c"%string ∈ phi)
    /\ ("['a', 'b']"%string ∉ phi).
Proof. eexists. split; [reflexivity|]. repeat split; compute_done. Qed.

End Phi.

(** ** Directory-mode file enumeration: [_get_all_dcm_files] *)

Module Files.

(** A directory tree. *)
#[warnings="-register-all"] Inductive entry : Type :=
| File (name : string)
| Dir (name : string) (children : list entry).

Definition entry_name (e : entry) : string :=
  match e with
  | File n => n
  | Dir n _ => n
  end.

(** [Path.is_file()] *)
Definition is_file (e : entry) : bool :=
  match e with
  | File _ => true
  | Dir _ _ => false
  end.

(** A path below the directory that is searched: the names from that
    directory down to the entry. *)
Definition path := list string.

(** pathlib compiles a glob pattern into a regular expression; for Windows
    paths, and only for them, it does so with [re.IGNORECASE]. *)
Inductive flavour : Type := PosixPath | WindowsPath.

Fixpoint is_suffix (suffix s : string) : bool :=
  String.eqb suffix s ||
  match s with
  | EmptyString => false
  | String _ s' => is_suffix suffix s'
  end.

(** A name matches the pattern [*.extension] when it ends in a dot followed
    by the extension. *)
Definition matches (fl : flavour) (extension : string) (name : string) : bool :=
  match fl with
  | PosixPath => is_suffix ("." ++ extension) name
  | WindowsPath => is_suffix (PyStr.lower ("." ++ extension)) (PyStr.lower name)
  end.

(** [dir.glob("**/*.extension")]: the matching entries of the directory
    itself, then those of each sub-directory, recursively. *)
Fixpoint glob_rec (fl : flavour) (extension : string) (here : path) (e : entry)
  : list (path * entry) :=
  match e with
  | File _ => []
  | Dir _ children =>
      map (fun c => (here ++ [entry_name c], c))
          (filter (fun c => matches fl extension (entry_name c) = true) children)
      ++ concat (map (fun c => glob_rec fl extension (here ++ [entry_name c]) c) children)
  end.

Definition glob (fl : flavour) (dcm_dir : entry) (extension : string) : list (path * entry) :=
  glob_rec fl extension [] dcm_dir.

Definition extensions : list string := ["dcm"; "dicom"]%string.

Definition _get_all_dcm_files (fl : flavour) (dcm_dir : entry) : list path :=
  concat (map (fun extension =>
                 let p := glob fl dcm_dir extension in
                 let files := filter (fun x => is_file (snd x) = true) p in
                 map fst files)
              extensions).

(** A study directory with lower-case and upper-case extensions. *)
Definition study : entry :=
  Dir "study"
    [File "a.dcm"; File "B.DCM"; File "notes.txt";
     Dir "series.dcm" [File "c.dicom"; File "D.DICOM"; File "e.Dcm"]].

(** C9 (the code departs from the property).  With POSIX paths the
    enumeration is case-sensitive: of the six files of [study] it returns
    the two whose extension is written in lower case, and none of
    [B.DCM], [D.DICOM] and [e.Dcm].  With Windows paths the same call
    returns all five DICOM files. *)
Theorem get_all_dcm_files_case_sensitive :
  _get_all_dcm_files PosixPath study
    = [["a.dcm"]; ["series.dcm"; "c.dicom"]]%string
  /\ (["B.DCM"%string] ∉ _get_all_dcm_files PosixPath study)
  /\ (["series.dcm"; "D.DICOM"]%string ∉ _get_all_dcm_files PosixPath study)
  /\ _get_all_dcm_files WindowsPath study
     = [["a.dcm"]; ["B.DCM"]; ["series.dcm"; "e.Dcm"];
        ["series.dcm"; "c.dicom"]; ["series.dcm"; "D.DICOM"]]%string.
Proof. repeat split; compute_done. Qed.

End Files.

(** ** IEEE 754 binary64, the [float] of numpy and Python *)

Module Float64.

Definition prec : Z := 53.
Definition emax : Z := 1024.

Definition float := spec_float.

(** Conversion of an integer, rounding to nearest even. *)
Definition of_Z (n : Z) : float := binary_normalize prec emax n 0 false.

Definition div (x y : float) : float := SFdiv prec emax x y.
Definition mul (x y : float) : float := SFmul prec emax x y.

Definition zero : float := S754_zero false.
Definition one : float := of_Z 1.
Definition f255 : float := of_Z 255.

Definition is_nan (x : float) : bool :=
  match x with
  | S754_nan => true
  | _ => false
  end.

(** [np.maximum(x, y)]: [x] when [x >= y] or [x] is NaN, else [y]. *)
Definition maximum (x y : float) : float :=
  if SFleb y x || is_nan x then x else y.

(** [a.max()] of a flattened array; numpy refuses an empty one. *)
Definition amax (l : list float) : res float :=
  match l with
  | [] => Raise (ValueError "zero-size array to reduction operation maximum which has no identity")
  | x :: l' => Ok (foldl maximum x l')
  end.

(** The integer part of a float, rounding toward zero. *)
Definition trunc (x : float) : Z :=
  match x with
  | S754_finite s m e =>
      let magnitude :=
        match e with
        | Z0 => Zpos m
        | Zpos _ => Zpos m * 2 ^ e
        | Zneg _ => Zpos m / 2 ^ (- e)
        end in
      if s then - magnitude else magnitude
  | _ => 0
  end.

(** [np.uint8(x)]: the integer part, reduced to 8 bits.  (For NaN, the
    infinities and values outside the range of the integer types the C
    conversion is left to the platform; the definition takes 0 for the
    first two and the low 8 bits for the last.) *)
Definition to_uint8 (x : float) : Z := trunc x mod 256.

Example of_Z_ex : of_Z 255 = S754_finite false 0x1FE00000000000 (-45).
Proof. reflexivity. Qed.

Example to_uint8_ex : to_uint8 (mul (div (of_Z 100) (of_Z 200)) f255) = 127.
Proof. reflexivity. Qed.

Lemma to_uint8_range x : 0 <= to_uint8 x <= 255.
Proof. unfold to_uint8. pose proof (Z.mod_pos_bound (trunc x) 256). lia. Qed.

Lemma div_eucl_mul_l (a b : positive) :
  Z.div_eucl (Zpos a * 2 ^ Zpos b) (Zpos a) = (2 ^ Zpos b, 0).
Proof.
  pose proof (Z.div_eucl_eq (Zpos a * 2 ^ Zpos b) (Zpos a)) as Heq.
  pose proof (Z.mod_pos_bound (Zpos a * 2 ^ Zpos b) (Zpos a)) as Hb.
  unfold Z.modulo in Hb.
  destruct (Z.div_eucl (Zpos a * 2 ^ Zpos b) (Zpos a)) as [q r].
  specialize (Heq ltac:(lia)). specialize (Hb ltac:(lia)).
  assert (q = 2 ^ Zpos b) by nia. subst q. f_equal. lia.
Qed.

(** A finite non-zero number divided by itself is exactly one. *)
Lemma div_self (s : bool) (m : positive) (e : Z) :
  div (S754_finite s m e) (S754_finite s m e) = one.
Proof.
  unfold div, SFdiv, SFdiv_core_binary.
  replace (Zdigits2 (Z.pos m) + e - (Zdigits2 (Z.pos m) + e)) with 0 by lia.
  replace (e - e) with 0 by lia.
  change (Z.min (fexp prec emax 0) 0) with (-53).
  change (0 - -53) with 53.
  rewrite Z.shiftl_mul_pow2 by lia.
  rewrite div_eucl_mul_l.
  replace (new_location (Z.pos m) 0) with loc_Exact
    by (unfold new_location, new_location_even, new_location_odd;
        by destruct (Z.even (Z.pos m))).
  rewrite xorb_nilpotent. reflexivity.
Qed.

Lemma mul_one_255 : to_uint8 (mul one f255) = 255.
Proof. reflexivity. Qed.

Lemma div_zero_finite (s : bool) (m : positive) (e : Z) :
  div zero (S754_finite s m e) = S754_zero s.
Proof. reflexivity. Qed.

Lemma mul_zero_255 (s : bool) : to_uint8 (mul (S754_zero s) f255) = 0.
Proof. by destruct s. Qed.

End Float64.

(** ** numpy arrays *)

Module Numpy.

(** An array of shape [(rows, cols)] or [(rows, cols, samples)]. *)
Inductive nd (A : Type) : Type :=
| Arr2 (rows : list (list A))
| Arr3 (rows : list (list (list A))).
Arguments Arr2 {A} rows.
Arguments Arr3 {A} rows.

Definition nd_map {A B} (f : A -> B) (a : nd A) : nd B :=
  match a with
  | Arr2 rows => Arr2 (map (map f) rows)
  | Arr3 rows => Arr3 (map (map (map f)) rows)
  end.

(** [a.flatten()], row-major. *)
Definition flatten {A} (a : nd A) : list A :=
  match a with
  | Arr2 rows => concat rows
  | Arr3 rows => concat (map (@concat A) rows)
  end.

(** [a.shape] *)
Definition shape {A} (a : nd A) : list nat :=
  match a with
  | Arr2 rows => [length rows; length (default [] (head rows))]
  | Arr3 rows =>
      [length rows; length (default [] (head rows));
       length (default [] (head (default [] (head rows))))]
  end.

(** An integer element type: its width in bits and whether it is signed. *)
Record dtype := { bits : Z; signed : bool }.

Definition uint8 : dtype := {| bits := 8; signed := false |}.
Definition uint16 : dtype := {| bits := 16; signed := false |}.
Definition int16 : dtype := {| bits := 16; signed := true |}.

(** The value an integer result takes in a fixed-width type. *)
Definition wrap (dt : dtype) (v : Z) : Z :=
  if signed dt
  then (v + 2 ^ (bits dt - 1)) mod 2 ^ bits dt - 2 ^ (bits dt - 1)
  else v mod 2 ^ bits dt.

(** An integer array with its element type. *)
Record ndarray := { arr_dtype : dtype; arr_data : nd Z }.

(** [np.unique(l, return_counts=True)]: the sorted distinct values and how
    often each occurs. *)
Definition count (v : Z) (l : list Z) : nat := length (filter (fun x => x = v) l).

Definition unique_counts (l : list Z) : list Z * list nat :=
  let values := merge_sort Z.le (remove_dups l) in
  (values, map (fun v => count v l) values).

(** [np.argmax(counts)]: the first position of the largest entry. *)
Fixpoint argmax_from (i best_i : nat) (best : nat) (counts : list nat) : nat :=
  match counts with
  | [] => best_i
  | c :: counts' =>
      if (best <? c)%nat then argmax_from (S i) i c counts'
      else argmax_from (S i) best_i best counts'
  end.

Definition argmax (counts : list nat) : res nat :=
  match counts with
  | [] => Raise (ValueError "attempt to get argmax of an empty sequence")
  | c :: counts' => Ok (argmax_from 1 0 c counts')
  end.

(** [np.max(l)] of a flat integer array. *)
Definition amax (l : list Z) : res Z :=
  match l with
  | [] => Raise (ValueError "zero-size array to reduction operation maximum which has no identity")
  | x :: l' => Ok (foldl Z.max x l')
  end.

(** [np.bincount(l)]: how often each of [0 .. max l] occurs; negative
    entries are refused. *)
Definition bincount (l : list Z) : res (list nat) :=
  if forallb (fun v => 0 <=? v) l then
    match l with
    | [] => Ok []
    | x :: l' =>
        Ok (map (fun i => count (Z.of_nat i) l) (seq 0 (S (Z.to_nat (foldl Z.max x l')))))
    end
  else Raise (ValueError "'list' argument must have no negative elements").

(** [slice(start, stop).indices(n)]: a negative bound counts from the end,
    and both bounds are clipped to the array. *)
Definition slice_bound (n i : Z) : Z :=
  if i <? 0 then Z.max 0 (i + n) else Z.min i n.

(** Whether position [k] of an axis of length [n] lies in [start:stop]. *)
Definition in_slice (n start stop : Z) (k : nat) : bool :=
  (slice_bound n start <=? Z.of_nat k) && (Z.of_nat k <? slice_bound n stop).

(** [a[top:top+height, left:left+width] = ...] on the first two axes, the
    new content of a selected cell being [f] of the old one. *)
Definition assign_slice2 {A} (f : A -> A) (top height left width : Z)
    (rows : list (list A)) : list (list A) :=
  imap (fun r row =>
          if in_slice (Z.of_nat (length rows)) top (top + height) r
          then imap (fun c x =>
                       if in_slice (Z.of_nat (length row)) left (left + width) c
                       then f x else x) row
          else row) rows.

(** A colour: an integer, or a tuple with one entry per sample. *)
Inductive color : Type :=
| CInt (v : Z)
| CTuple (vs : list Z).

(** The number of selected columns of the slice [left:left+width]. *)
Definition selected_width (ncols left width : Z) : Z :=
  Z.max 0 (slice_bound ncols (left + width) - slice_bound ncols left).

(** [a[top:top+height, left:left+width] = c], with numpy's broadcasting of
    [c] over the selection. *)
Definition setitem_slice2 (a : nd Z) (top height left width : Z) (c : color)
  : res (nd Z) :=
  let broadcast_error := ValueError "could not broadcast input array" in
  match a, c with
  | Arr2 rows, CInt v => Ok (Arr2 (assign_slice2 (fun _ => v) top height left width rows))
  | Arr3 rows, CInt v =>
      Ok (Arr3 (assign_slice2 (map (fun _ => v)) top height left width rows))
  | Arr2 rows, CTuple [v] => Ok (Arr2 (assign_slice2 (fun _ => v) top height left width rows))
  | Arr3 rows, CTuple [v] =>
      Ok (Arr3 (assign_slice2 (map (fun _ => v)) top height left width rows))
  | Arr3 rows, CTuple vs =>
      if (nth 2 (shape a) 0 =? length vs)%nat
      then Ok (Arr3 (assign_slice2 (fun _ => vs) top height left width rows))
      else Raise broadcast_error
  | Arr2 rows, CTuple vs =>
      (* the tuple is laid along the selected columns *)
      let ncols := Z.of_nat (nth 1 (shape a) 0%nat) in
      if selected_width ncols left width =? Z.of_nat (length vs)
      then
        let first := Z.to_nat (slice_bound ncols left) in
        Ok (Arr2 (imap (fun r row =>
                    if in_slice (Z.of_nat (length rows)) top (top + height) r
                    then imap (fun c x =>
                                 if in_slice ncols left (left + width) c
                                 then nth (c - first) vs x else x) row
                    else row) rows))
      else Raise broadcast_error
  end.

Example slice_negative_start :
  map (in_slice 10 (-2) 3) (seq 0 10) = replicate 10 false.
Proof. reflexivity. Qed.

Example slice_clipped :
  map (in_slice 4 2 9) (seq 0 4) = [false; false; true; true].
Proof. reflexivity. Qed.

Example unique_counts_ex : unique_counts [7; 0; 7; 3; 0] = ([0; 3; 7], [2; 1; 2]%nat).
Proof. reflexivity. Qed.

Example argmax_first_ex : argmax [2; 1; 2]%nat = Ok 0%nat.
Proof. reflexivity. Qed.

Section AssignSlice.

Context {A : Type} (f : A -> A).

Lemma assign_slice2_length top height left width (rows : list (list A)) :
  length (assign_slice2 f top height left width rows) = length rows.
Proof. unfold assign_slice2. by rewrite length_imap. Qed.

Lemma assign_slice2_lookup top height left width (rows : list (list A)) r c :
  assign_slice2 f top height left width rows !! r ≫= (.!! c)
  = row ← rows !! r;
    x ← row !! c;
    Some (if in_slice (Z.of_nat (length rows)) top (top + height) r
             && in_slice (Z.of_nat (length row)) left (left + width) c
          then f x else x).
Proof.
  unfold assign_slice2. rewrite list_lookup_imap.
  destruct (rows !! r) as [row|]; simpl; [|done].
  destruct (in_slice (Z.of_nat (length rows)) top (top + height) r); simpl.
  - rewrite list_lookup_imap. by destruct (row !! c).
  - by destruct (row !! c).
Qed.

Lemma assign_slice2_row_length top height left width (rows : list (list A)) r row' :
  assign_slice2 f top height left width rows !! r = Some row' ->
  exists row, rows !! r = Some row /\ length row' = length row.
Proof.
  unfold assign_slice2. rewrite list_lookup_imap.
  destruct (rows !! r) as [row|]; simpl; [|done].
  intros [= <-]. exists row. split; [done|].
  destruct (in_slice _ _ _ r); [by rewrite length_imap|done].
Qed.

End AssignSlice.

(** For a rectangle with non-negative origin, the slice selects exactly the
    positions of the axis inside [start, start + extent). *)
Lemma in_slice_nonneg n start extent k :
  0 <= start -> 0 <= extent -> (Z.of_nat k < n) ->
  in_slice n start (start + extent) k
  = (start <=? Z.of_nat k) && (Z.of_nat k <? start + extent).
Proof.
  intros Hs He Hk. unfold in_slice, slice_bound.
  destruct (Z.ltb_spec start 0), (Z.ltb_spec (start + extent) 0); lia.
Qed.

End Numpy.

(** ** PIL images *)

Module PIL.
Import Numpy.

Inductive mode : Type := L | RGB | RGBA.

(** An image: its mode, its size [(width, height)] and its pixels by row.
    A pixel is what [getpixel] returns: an integer in mode [L], a tuple
    otherwise. *)
Record Image := {
  im_mode : mode;
  im_size : nat * nat;
  im_data : list (list color)
}.

Definition im_width (im : Image) : nat := fst (im_size im).
Definition im_height (im : Image) : nat := snd (im_size im).

(** The pixel rows agree with the size. *)
Definition well_formed (im : Image) : Prop :=
  length (im_data im) = im_height im
  /\ Forall (fun row => length row = im_width im) (im_data im).

(** [Image.new(mode, size, color)] *)
Definition Image_new (m : mode) (size : Z * Z) (c : color) : res Image :=
  let '(width, height) := size in
  if (width <? 0) || (height <? 0)
  then Raise (ValueError "Width and height must be >= 0")
  else Ok {| im_mode := m;
             im_size := (Z.to_nat width, Z.to_nat height);
             im_data := replicate (Z.to_nat height) (replicate (Z.to_nat width) c) |}.

(** [im.getpixel((x, y))] *)
Definition getpixel (im : Image) (xy : nat * nat) : res color :=
  match im_data im !! snd xy ≫= (.!! fst xy) with
  | Some c => Ok c
  | None => Raise (IndexError "image index out of range")
  end.

(** [list(im.getdata())] *)
Definition getdata (im : Image) : list color := concat (im_data im).

(** [dst.paste(src, (left, top))]: the pixels of [src] replace those of
    [dst] in the box of the size of [src] whose corner is [(left, top)]. *)
Definition paste (dst src : Image) (box : Z * Z) : Image :=
  let left := fst box in
  let top := snd box in
  {| im_mode := im_mode dst;
     im_size := im_size dst;
     im_data :=
       imap (fun y row =>
               imap (fun x p =>
                       let sy := Z.of_nat y - top in
                       let sx := Z.of_nat x - left in
                       if (0 <=? sy) && (0 <=? sx)
                       then default p (im_data src !! Z.to_nat sy ≫= (.!! Z.to_nat sx))
                       else p) row)
            (im_data dst) |}.

(** [im.crop((left, upper, right, lower))] for a box inside the image. *)
Definition crop (im : Image) (box : Z * Z * Z * Z) : Image :=
  let left := fst (fst (fst box)) in
  let upper := snd (fst (fst box)) in
  let right := snd (fst box) in
  let lower := snd box in
  {| im_mode := im_mode im;
     im_size := (Z.to_nat (right - left), Z.to_nat (lower - upper));
     im_data :=
       map (fun row => take (Z.to_nat (right - left)) (drop (Z.to_nat left) row))
           (take (Z.to_nat (lower - upper)) (drop (Z.to_nat upper) (im_data im))) |}.

(** The pixel of a new image before anything is drawn: zero in every band. *)
Definition black (m : mode) : color :=
  match m with
  | L => CInt 0
  | RGB => CTuple [0; 0; 0]
  | RGBA => CTuple [0; 0; 0; 0]
  end.

(** [im.resize((1, 1), resample=0)]: nearest-neighbour sampling takes the
    pixel under the centre of the one output pixel; an image without
    pixels gives one black pixel. *)
Definition resize_1x1 (im : Image) : res Image :=
  match im_data im !! (im_height im / 2)%nat ≫= (.!! (im_width im / 2)%nat) with
  | Some c => Ok {| im_mode := im_mode im; im_size := (1, 1)%nat; im_data := [[c]] |}
  | None => Ok {| im_mode := im_mode im; im_size := (1, 1)%nat;
                  im_data := [[black (im_mode im)]] |}
  end.

Definition invert_sample (v : Z) : Z := 255 - v.

(** [ImageOps.invert(im)], defined for the modes [L] and [RGB]. *)
Definition ImageOps_invert (im : Image) : res Image :=
  match im_mode im with
  | RGBA => Raise (TypeError "not supported for this image mode")
  | _ =>
      Ok {| im_mode := im_mode im; im_size := im_size im;
            im_data := map (map (fun c =>
                         match c with
                         | CInt v => CInt (invert_sample v)
                         | CTuple vs => CTuple (map invert_sample vs)
                         end)) (im_data im) |}
  end.

(** The [RGBA] branch of [_get_bg_color]: split, invert the colour bands,
    merge again with the alpha band. *)
Definition invert_rgba (im : Image) : Image :=
  {| im_mode := RGBA; im_size := im_size im;
     im_data := map (map (fun c =>
                  match c with
                  | CTuple [r; g; b; a] =>
                      CTuple [invert_sample r; invert_sample g; invert_sample b; a]
                  | _ => c
                  end)) (im_data im) |}.

End PIL.

(** ** Colour selection on rasters and the padding transform *)

Module Raster.
Import Numpy PIL.

(** The argument of [np.bincount] must be a flat list of integers. *)
Fixpoint as_ints (data : list color) : res (list Z) :=
  match data with
  | [] => Ok []
  | CInt v :: data' => vs ← as_ints data'; Ok (v :: vs)
  | CTuple _ :: _ => Raise (ValueError "object too deep for desired array")
  end.

Definition _get_bg_color (image : Image) (is_greyscale : bool) (invert : bool)
  : res color :=
  image ← (if invert then
             match im_mode image with
             | RGBA => Ok (invert_rgba image)
             | _ => ImageOps_invert image
             end
           else Ok image);
  if is_greyscale then
    data ← as_ints (getdata image);
    counts ← bincount data;
    i ← argmax counts;
    Ok (CInt (Z.of_nat i))
  else
    tmp_image ← resize_1x1 image;
    getpixel tmp_image (0, 0)%nat.

Definition _add_padding (image : Image) (is_greyscale : bool) (padding_width : Z)
  : res Image :=
  if padding_width <=? 0 then Raise (ValueError "Enter a positive value for padding")
  else if padding_width >=? 100 then
    Raise (ValueError "Excessive padding width entered. Please use a width under 100 pixels.")
  else
    border_color ← _get_bg_color image is_greyscale false;
    let right := padding_width in
    let left := padding_width in
    let top := padding_width in
    let bottom := padding_width in
    let '(width, height) := im_size image in
    let new_width := Z.of_nat width + right + left in
    let new_height := Z.of_nat height + top + bottom in
    image_with_padding ← Image_new (im_mode image) (new_width, new_height) border_color;
    Ok (paste image_with_padding image (left, top)).

(** Cropping a border of [w] pixels from each side. *)
Definition crop_border (w : Z) (im : Image) : Image :=
  crop im (w, w, Z.of_nat (im_width im) - w, Z.of_nat (im_height im) - w).

(** A raster that the colour selector accepts: well formed, not empty, and,
    where the grayscale selector is used, made of non-negative integers. *)
Definition valid_raster (image : Image) (is_greyscale : bool) : Prop :=
  well_formed image
  /\ (0 < im_width image)%nat /\ (0 < im_height image)%nat
  /\ (is_greyscale = true ->
      Forall (Forall (fun c => exists v, c = CInt v /\ 0 <= v)) (im_data image)).

Definition checkerboard : Image :=
  {| im_mode := L; im_size := (3, 2)%nat;
     im_data := [[CInt 0; CInt 255; CInt 0]; [CInt 255; CInt 0; CInt 7]] |}.

Example get_bg_color_ex : _get_bg_color checkerboard true false = Ok (CInt 0).
Proof. reflexivity. Qed.

Example get_bg_color_inverted_ex : _get_bg_color checkerboard true true = Ok (CInt 255).
Proof. reflexivity. Qed.

Example add_padding_ex :
  im_data <$> (match _add_padding checkerboard true 1 with Ok p => Some p | _ => None end)
  = Some [[CInt 0; CInt 0; CInt 0; CInt 0; CInt 0];
          [CInt 0; CInt 0; CInt 255; CInt 0; CInt 0];
          [CInt 0; CInt 255; CInt 0; CInt 7; CInt 0];
          [CInt 0; CInt 0; CInt 0; CInt 0; CInt 0]].
Proof. reflexivity. Qed.

Lemma as_ints_ok (data : list color) :
  Forall (fun c => exists v, c = CInt v /\ 0 <= v) data ->
  exists vs, as_ints data = Ok vs /\ length vs = length data /\ Forall (fun v => 0 <= v) vs.
Proof.
  induction 1 as [|c data (v & -> & Hv) _ (vs & IH & Hlen & Hpos)]; simpl.
  - by exists [].
  - rewrite IH. exists (v :: vs). simpl. repeat split; [by rewrite Hlen|by constructor].
Qed.

Lemma bincount_argmax_ok (vs : list Z) :
  vs <> [] -> Forall (fun v => 0 <= v) vs ->
  exists counts i, bincount vs = Ok counts /\ argmax counts = Ok i.
Proof.
  intros Hne Hpos. unfold bincount.
  replace (forallb (fun v => 0 <=? v) vs) with true.
  - destruct vs as [|x vs]; [done|]. simpl. eauto.
  - symmetry. apply forallb_forall. intros v Hv%list_elem_of_In.
    rewrite Forall_forall in Hpos. apply Z.leb_le, Hpos, Hv.
Qed.

Lemma well_formed_lookup (image : Image) x y :
  well_formed image -> (x < im_width image)%nat -> (y < im_height image)%nat ->
  exists row c, im_data image !! y = Some row /\ row !! x = Some c.
Proof.
  intros [Hrows Hcols] Hx Hy.
  destruct (lookup_lt_is_Some_2 (im_data image) y) as [row Hrow]; [lia|].
  rewrite Forall_forall in Hcols.
  pose proof (Hcols row (list_elem_of_lookup_2 _ _ _ Hrow)) as Hlen.
  destruct (lookup_lt_is_Some_2 row x) as [c Hc]; [lia|]. eauto.
Qed.

(** The colour selector succeeds on every valid raster. *)
Lemma get_bg_color_ok (image : Image) (is_greyscale : bool) :
  valid_raster image is_greyscale ->
  exists c, _get_bg_color image is_greyscale false = Ok c.
Proof.
  intros (Hwf & Hw & Hh & Hgrey). unfold _get_bg_color. simpl.
  destruct is_greyscale.
  - destruct (as_ints_ok (getdata image)) as (vs & -> & Hlen & Hpos).
    { unfold getdata. apply Forall_concat. by apply Hgrey. }
    simpl. destruct (bincount_argmax_ok vs) as (counts & i & Hcounts & Hi); [|done|].
    + destruct (well_formed_lookup image 0 0 Hwf Hw Hh) as (row & c & Hrow & Hc).
      intros ->. simpl in Hlen. unfold getdata in Hlen.
      destruct (im_data image) as [|row' rows]; [done|].
      simplify_eq/=. by destruct row.
    + rewrite Hcounts. simpl. rewrite Hi. simpl. by eexists.
  - unfold resize_1x1.
    destruct (well_formed_lookup image (im_width image / 2) (im_height image / 2) Hwf)
      as (row & c & -> & Hc).
    { apply Nat.div_lt; lia. }
    { apply Nat.div_lt; lia. }
    change (Some row ≫= (.!! (im_width image / 2)%nat))
      with (row !! (im_width image / 2)%nat).
    rewrite Hc. by eexists.
Qed.

Lemma paste_lookup (dst src : Image) (left top : Z) (x y : nat) :
  im_data (paste dst src (left, top)) !! y ≫= (.!! x)
  = p ← im_data dst !! y ≫= (.!! x);
    Some (if (0 <=? Z.of_nat y - top) && (0 <=? Z.of_nat x - left)
          then default p (im_data src !! Z.to_nat (Z.of_nat y - top)
                            ≫= (.!! Z.to_nat (Z.of_nat x - left)))
          else p).
Proof.
  unfold paste. simpl. rewrite list_lookup_imap.
  destruct (im_data dst !! y) as [row|]; simpl; [|done].
  rewrite list_lookup_imap. by destruct (row !! x).
Qed.

(** C8. For every valid raster and every padding width [0 < w < 100],
    [_add_padding] returns an image of size [(width + 2w, height + 2w)]
    in which the pixel at [(x + w, y + w)] is the pixel at [(x, y)] of the
    original, and cropping a border of width [w] from each side of it gives
    back the original raster. *)
Theorem add_padding_round_trip (image : Image) (is_greyscale : bool) (w : Z) :
  0 < w < 100 ->
  valid_raster image is_greyscale ->
  exists padded,
    _add_padding image is_greyscale w = Ok padded
    /\ im_size padded
       = (Z.to_nat (Z.of_nat (im_width image) + 2 * w),
          Z.to_nat (Z.of_nat (im_height image) + 2 * w))
    /\ well_formed padded
    /\ (forall x y c,
          getpixel image (x, y) = Ok c ->
          getpixel padded (x + Z.to_nat w, y + Z.to_nat w)%nat = Ok c)
    /\ crop_border w padded = image.
Proof.
  intros Hw Hvalid.
  destruct (get_bg_color_ok image is_greyscale Hvalid) as [border_color Hbg].
  destruct Hvalid as (Hwf & Hwidth & Hheight & _).
  destruct image as [m [width height] data].
  unfold im_width, im_height in *. simpl in *.
  unfold _add_padding.
  destruct (Z.leb_spec w 0) as [?|_]; [lia|].
  destruct (Z.geb_spec w 100) as [?|_]; [lia|].
  rewrite Hbg. simpl.
  destruct (Z.ltb_spec (Z.of_nat width + w + w) 0) as [?|_]; [lia|].
  destruct (Z.ltb_spec (Z.of_nat height + w + w) 0) as [?|_]; [lia|].
  simpl.
  set (blank := {| im_mode := m;
                   im_size := (Z.to_nat (Z.of_nat width + w + w),
                               Z.to_nat (Z.of_nat height + w + w));
                   im_data := replicate (Z.to_nat (Z.of_nat height + w + w))
                                (replicate (Z.to_nat (Z.of_nat width + w + w)) border_color) |}).
  set (image := {| im_mode := m; im_size := (width, height); im_data := data |}).
  exists (paste blank image (w, w)).
  destruct Hwf as [Hrows Hcols]. unfold im_width, im_height in Hrows, Hcols.
  simpl in Hrows, Hcols.
  assert (Hpix : forall x y c,
             data !! y ≫= (.!! x) = Some c ->
             im_data (paste blank image (w, w)) !! (y + Z.to_nat w)%nat
               ≫= (.!! (x + Z.to_nat w)%nat) = Some c).
  { intros x y c Hc. rewrite paste_lookup. simpl.
    destruct (data !! y) as [row|] eqn:Hrow; [|done]. simpl in Hc.
    pose proof (lookup_lt_Some _ _ _ Hrow) as Hy.
    pose proof (lookup_lt_Some _ _ _ Hc) as Hx.
    rewrite Forall_forall in Hcols.
    rewrite (Hcols row (list_elem_of_lookup_2 _ _ _ Hrow)) in Hx.
    rewrite lookup_replicate_2 by lia. simpl.
    rewrite lookup_replicate_2 by lia. simpl.
    replace (Z.to_nat (Z.of_nat (y + Z.to_nat w) - w)) with y by lia.
    replace (Z.to_nat (Z.of_nat (x + Z.to_nat w) - w)) with x by lia.
    rewrite Hrow. simpl. rewrite Hc. simpl.
    destruct (Z.leb_spec 0 (Z.of_nat (y + Z.to_nat w) - w)); [|lia].
    destruct (Z.leb_spec 0 (Z.of_nat (x + Z.to_nat w) - w)); [|lia]. done. }
  split; [done|]. split; [simpl; f_equal; lia|]. split; [|split].
  - split; simpl.
    + rewrite length_imap, length_replicate. done.
    + apply Forall_forall. intros row [y [row0 [-> Hrow0]]]%elem_of_lookup_imap.
      apply lookup_replicate in Hrow0 as [-> _].
      by rewrite length_imap, length_replicate.
  - intros x y c. unfold getpixel. cbn [fst snd]. change (im_data image) with data.
    destruct (data !! y ≫= (.!! x)) as [c'|] eqn:Hc; [|done].
    intros [= ->]. by rewrite (Hpix x y c Hc).
  - unfold crop_border, crop, im_width, im_height. simpl.
    replace (Z.to_nat (Z.of_nat (Z.to_nat (Z.of_nat width + w + w)) - w - w)) with width by lia.
    replace (Z.to_nat (Z.of_nat (Z.to_nat (Z.of_nat height + w + w)) - w - w)) with height by lia.
    unfold image. f_equal.
    apply list_eq. intros y.
    rewrite list_lookup_fmap, lookup_take, lookup_drop.
    destruct (decide (y < height)%nat) as [Hy|Hy].
    2:{ rewrite lookup_ge_None_2 by lia. done. }
    destruct (lookup_lt_is_Some_2 data y) as [row Hrow]; [lia|].
    rewrite Hrow, list_lookup_imap.
    rewrite lookup_replicate_2 by lia. simpl. f_equal.
    rewrite Forall_forall in Hcols.
    pose proof (Hcols row (list_elem_of_lookup_2 _ _ _ Hrow)) as Hlen.
    apply list_eq. intros x.
    rewrite lookup_take, lookup_drop.
    destruct (decide (x < width)%nat) as [Hx|Hx].
    2:{ rewrite lookup_ge_None_2 by lia. done. }
    destruct (lookup_lt_is_Some_2 row x) as [c Hc]; [lia|].
    specialize (Hpix x y c). rewrite Hrow in Hpix. specialize (Hpix Hc).
    unfold paste in Hpix. simpl in Hpix.
    rewrite list_lookup_imap in Hpix.
    rewrite lookup_replicate_2 in Hpix by lia. simpl in Hpix.
    replace (Z.to_nat w + y)%nat with (y + Z.to_nat w)%nat by lia.
    replace (Z.to_nat w + x)%nat with (x + Z.to_nat w)%nat by lia.
    by rewrite Hpix, Hc.
Qed.

Lemma add_padding_round_trip_witness :
  0 < 25 < 100
  /\ exists padded,
       _add_padding checkerboard true 25 = Ok padded
       /\ im_size padded = (53, 52)%nat
       /\ crop_border 25 padded = checkerboard.
Proof.
  split; [lia|].
  destruct (add_padding_round_trip checkerboard true 25) as (padded & Hrun & Hsize & _ & _ & Hcrop).
  - lia.
  - unfold valid_raster, well_formed, im_width, im_height. simpl.
    repeat split; try lia.
    + repeat constructor.
    + intros _. repeat constructor; eexists; (split; [reflexivity|lia]).
  - exists padded. repeat split; [exact Hrun|exact Hsize|exact Hcrop].
Defined.

End Raster.

(** ** DICOM datasets and the store *)

Module Dicom.
Import PyVal Numpy.

Record DataElement := {
  tag : Z * Z;
  name : string;
  value : PyVal.value
}.

Definition PhotometricInterpretation : Z * Z := (0x0028, 0x0004).
Definition WindowWidth : Z * Z := (0x0028, 0x1051).

Definition tag_eqb (t t' : Z * Z) : bool :=
  (fst t =? fst t') && (snd t =? snd t').

Fixpoint find_element (t : Z * Z) (elements : list DataElement) : option DataElement :=
  match elements with
  | [] => None
  | e :: elements' => if tag_eqb (tag e) t then Some e else find_element t elements'
  end.

(** What the methods read of a dataset: its elements other than the pixel
    data, and the decoded pixel array behind [instance.pixel_array]. *)
Record Instance := {
  elements : list DataElement;
  pixel_array : ndarray
}.

(** [instance[group, element]] *)
Definition getitem (instance : Instance) (t : Z * Z) : res DataElement :=
  match find_element t (elements instance) with
  | Some e => Ok e
  | None => Raise (KeyError (fst t) (snd t))
  end.

(** [keyword in instance] *)
Definition contains (instance : Instance) (t : Z * Z) : bool :=
  bool_decide (is_Some (find_element t (elements instance))).

(** [instance.pixel_array].  pydicom decodes the pixel data on this read,
    and refuses a dataset that lacks an element the decoding needs; of
    these elements the model carries (0028,0004). *)
Definition read_pixel_array (instance : Instance) : res ndarray :=
  if contains instance PhotometricInterpretation then Ok (pixel_array instance)
  else
    Raise (AttributeError "Unable to convert the pixel data as the following required elements are missing from the dataset: PhotometricInterpretation").

(** *** Objects in the store

    A dataset object refers to its decoded pixel array, an object of its
    own that is written in place, and holds the value of its [PixelData]
    element (the serialised buffer, kept as the sequence of its values). *)

Definition loc := positive.

Record FileDataset := {
  ds_elements : list DataElement;
  ds_pixel_array : loc;
  ds_PixelData : list Z
}.

Inductive object : Type :=
| ODataset (ds : FileDataset)
| OArray (a : ndarray).

Abbreviation heap := (gmap loc object).

(** Computations that read and write the store and may raise. *)
Definition M (A : Type) : Type := heap -> res A * heap.

Definition M_ret {A} (a : A) : M A := fun h => (Ok a, h).

Definition M_bind {A B} (m : M A) (k : A -> M B) : M B :=
  fun h =>
    match m h with
    | (Ok a, h') => k a h'
    | (Raise e, h') => (Raise e, h')
    end.

#[global] Instance M_mret : MRet M := @M_ret.
#[global] Instance M_mbind : MBind M := fun A B k m => M_bind m k.

Definition lift {A} (r : res A) : M A := fun h => (r, h).

Definition alloc (o : object) : M loc :=
  fun h => let l := fresh (dom h) in (Ok l, <[l := o]> h).

Definition store (l : loc) (o : object) : M unit :=
  fun h => (Ok tt, <[l := o]> h).

Definition load_dataset (l : loc) : M FileDataset :=
  fun h =>
    match h !! l with
    | Some (ODataset ds) => (Ok ds, h)
    | _ => (Raise (Stuck "not a dataset"), h)
    end.

Definition load_array (l : loc) : M ndarray :=
  fun h =>
    match h !! l with
    | Some (OArray a) => (Ok a, h)
    | _ => (Raise (Stuck "not an array"), h)
    end.

(** The dataset behind a reference, as the reading methods see it. *)
Definition view (l : loc) : M Instance :=
  ds ← load_dataset l;
  a ← load_array (ds_pixel_array ds);
  mret {| elements := ds_elements ds; pixel_array := a |}.

(** [copy.deepcopy(instance)]: a new dataset object with a new pixel array
    object, both with the content of the original. *)
Definition deepcopy (instance : loc) : M loc :=
  ds ← load_dataset instance;
  a ← load_array (ds_pixel_array ds);
  pixel_array' ← alloc (OArray a);
  alloc (ODataset {| ds_elements := ds_elements ds;
                     ds_pixel_array := pixel_array';
                     ds_PixelData := ds_PixelData ds |}).

(** [a.tobytes()], as the sequence of the values in storage order. *)
Definition tobytes (a : ndarray) : list Z := flatten (arr_data a).

End Dicom.

(** ** Text metadata of a dataset: [_get_text_metadata] *)

Module Metadata.
Import PyVal Dicom Phi.

(** One round of the loop [for element in instance]: what is appended to
    [metadata_text], [is_name] and [is_patient]. *)
Definition text_of_element (element : DataElement) : PyVal.value * bool * bool :=
  if negb (String.eqb (name element) "Pixel Data") then
    (value element,
     PyStr.contains "name" (PyStr.lower (name element)),
     PyStr.contains "patient" (PyStr.lower (name element)))
  else (VStr "", false, false).

(** The argument is the sequence of elements that iterating the dataset
    yields, the pixel data element among them. *)
Definition _get_text_metadata (instance : list DataElement)
  : list PyVal.value * list bool * list bool :=
  let rounds := map text_of_element instance in
  (map (fun t => fst (fst t)) rounds,
   map (fun t => snd (fst t)) rounds,
   map snd rounds).

Lemma get_text_metadata_lengths (instance : list DataElement) :
  let '(metadata_text, is_name, is_patient) := _get_text_metadata instance in
  length is_name = length metadata_text /\ length is_patient = length metadata_text.
Proof. unfold _get_text_metadata. by rewrite !length_map. Qed.

(** On the metadata of any dataset the synthesizer returns a deny-list,
    and the list holds the eight sentinels. *)
Lemma make_phi_list_of_dataset (instance : list DataElement) :
  let '(metadata_text, is_name, is_patient) := _get_text_metadata instance in
  exists phi,
    _make_phi_list metadata_text is_name is_patient = Ok phi
    /\ forall s, s ∈ sentinels -> s ∈ phi.
Proof.
  pose proof (get_text_metadata_lengths instance) as Hlen.
  destruct (_get_text_metadata instance) as [[metadata_text is_name] is_patient].
  destruct Hlen as [Hlen _].
  unfold _make_phi_list, _process_names.
  destruct (process_names_loop_ok is_name metadata_text 0 metadata_text)
    as [phi_list ->]; [simpl; lia|].
  eexists. split; [reflexivity|]. intros s Hs. unfold list_of_set.
  apply elem_of_elements, elem_of_list_to_set.
  apply (list_elem_of_fmap_2 str _ (VStr s)).
  by apply flatten_loop_keeps_text, elem_of_add_known_generic_phi.
Qed.

Example get_text_metadata_ex :
  _get_text_metadata
    [ {| tag := (0x0010, 0x0010); name := "Patient's Name"; value := VStr "Doe^Jane" |};
      {| tag := (0x0008, 0x0008); name := "Image Type";
         value := VSeq MultiValue [VStr "ORIGINAL"; VStr "PRIMARY"] |};
      {| tag := (0x7FE0, 0x0010); name := "Pixel Data"; value := VStr "" |} ]
  = ([VStr "Doe^Jane"; VSeq MultiValue [VStr "ORIGINAL"; VStr "PRIMARY"]; VStr ""],
     [true; false; false], [true; false; false]).
Proof. reflexivity. Qed.

End Metadata.

(** ** The engine's methods on DICOM instances *)

Module Engine.
Import PyVal Numpy Dicom.
Export Bboxes Raster.

(** [x in candidates] for strings *)
Definition str_in (x : string) (candidates : list string) : bool :=
  existsb (String.eqb x) candidates.

Definition contrast_names : list string :=
  ["contrast"; "invert"; "inverted"; "inverse"]%string.
Definition background_names : list string := ["background"; "bg"]%string.

Definition _check_if_greyscale (instance : Instance) : res bool :=
  element ← getitem instance PhotometricInterpretation;
  let color_scale := value element in
  let is_greyscale := negb (py_eq color_scale (VStr "RGB")) in
  Ok is_greyscale.

Definition _get_most_common_pixel_value (instance : Instance)
    (box_color_setting : string) : res Z :=
  array ← read_pixel_array instance;
  let flat_pixel_array := flatten (arr_data array) in
  is_greyscale ← _check_if_greyscale instance;
  common_value ←
    (if (is_greyscale : bool) then
       let values := fst (unique_counts flat_pixel_array) in
       let counts := snd (unique_counts flat_pixel_array) in
       i ← argmax counts;
       match values !! i with
       | Some v => Ok v
       | None => Raise (IndexError "index out of bounds")
       end
     else
       Raise (TypeError "Most common pixel value retrieval is only supported for greyscale images at this point."));
  if str_in (PyStr.lower box_color_setting) contrast_names then
    maximum ← amax flat_pixel_array;
    Ok (wrap (arr_dtype array) (maximum - common_value))
  else if str_in (PyStr.lower box_color_setting) background_names then
    Ok common_value
  else
    (* no branch assigns [pixel_value] before [return pixel_value] *)
    Raise (UnboundLocalError "pixel_value").

(** *** PNG files

    [png.Writer(width, height, greyscale=...)] followed by [write(f, rows)]
    and [Image.open] of the file, for rows of 8-bit samples: the writer
    refuses an empty image, rows that do not have [width] times the number
    of planes values, and values that do not fit its 8 bits (a [uint8]
    array holds none).  The writer copies the bytes of each row buffer, so
    the rows of an array of another element type give other pixels than
    its samples; the properties below that read the pixels of a PNG are
    stated for [uint8] arrays. *)

Fixpoint triples (row : list Z) : list color :=
  match row with
  | r :: g :: b :: row' => CTuple [r; g; b] :: triples row'
  | _ => []
  end.

Definition png_image (width height : nat) (greyscale : bool) (rows : list (list Z))
  : res PIL.Image :=
  let planes := if greyscale then 1%nat else 3%nat in
  if ((width =? 0) || (height =? 0))%nat then
    Raise (PngError "width and height must be greater than zero")
  else if negb (length rows =? height)%nat then
    Raise (PngError "rows supplied does not match height")
  else if negb (forallb (fun row => (length row =? width * planes)%nat) rows) then
    Raise (PngError "Expected values in row")
  else if negb (forallb (forallb (fun v => (0 <=? v) && (v <=? 255))) rows) then
    Raise (PngError "value out of range")
  else
    Ok {| PIL.im_mode := if greyscale then PIL.L else PIL.RGB;
          PIL.im_size := (width, height);
          PIL.im_data := if greyscale then map (map CInt) rows else map triples rows |}.

(** The rows of a two-dimensional array handed to the PNG writer.  What
    the writer makes of the row buffers of a three-dimensional array on the
    grayscale path is not modelled; the properties below that go through
    this path are stated for two-dimensional arrays. *)
Definition rows_2d (a : nd Z) : res (list (list Z)) :=
  match a with
  | Arr2 rows => Ok rows
  | Arr3 _ => Raise (TypeError "a row of a greyscale image must be a sequence of integers")
  end.

(** [np.reshape(a, (shape[0], shape[1] * 3))] *)
Definition reshape_rgb (a : nd Z) : res (list (list Z)) :=
  match a with
  | Arr3 rows =>
      if (nth 2 (shape a) 0 =? 3)%nat then Ok (map (@concat Z) rows)
      else Raise (ValueError "cannot reshape array")
  | Arr2 rows =>
      if forallb (fun row => (length row =? 0)%nat) rows then Ok rows
      else Raise (ValueError "cannot reshape array")
  end.

Section WithVoiLut.

(** pydicom's [apply_voi_lut(arr, ds)], read as the [float] array that
    [astype(float)] makes of its result, for the datasets on which the
    call returns. *)
Variable apply_voi_lut : ndarray -> list DataElement -> nd Float64.float.

(** [image_2d.astype(float)] of [_rescale_dcm_pixel_array].  The read of
    [instance.pixel_array] is taken to succeed here: the engine calls the
    method from [_convert_dcm_to_png] only, after the grayscale check has
    found the element (0028,0004). *)
Definition image_2d_float (instance : Instance) : nd Float64.float :=
  if contains instance WindowWidth
  then apply_voi_lut (pixel_array instance) (elements instance)
  else nd_map Float64.of_Z (arr_data (pixel_array instance)).

(** [(np.maximum(x, 0) / maximum) * 255.0] for one entry [x] *)
Definition rescale_entry (maximum x : Float64.float) : Float64.float :=
  Float64.mul (Float64.div (Float64.maximum x Float64.zero) maximum) Float64.f255.

Definition _rescale_dcm_pixel_array (instance : Instance) (is_greyscale : bool)
  : res ndarray :=
  let image_2d_float := image_2d_float instance in
  image_2d_scaled ←
    (if negb is_greyscale then Ok image_2d_float
     else
       maximum ← Float64.amax (flatten image_2d_float);
       Ok (nd_map (rescale_entry maximum) image_2d_float));
  Ok {| arr_dtype := uint8; arr_data := nd_map Float64.to_uint8 image_2d_scaled |}.

(** [_convert_dcm_to_png(filepath, output_dir)].  The DICOM file is given
    by the dataset that [pydicom.dcmread] reads from it; the PNG file that
    is written is given by the image that [Image.open] reads from it, and
    is returned with the shape and the grayscale flag. *)
Definition _convert_dcm_to_png (ds : Instance) : res (PIL.Image * list nat * bool) :=
  is_greyscale ← _check_if_greyscale ds;
  image ← _rescale_dcm_pixel_array ds is_greyscale;
  let shape := shape (arr_data image) in
  png_file ←
    (if (is_greyscale : bool) then
       rows ← rows_2d (arr_data image);
       png_image (nth 1 shape 0%nat) (nth 0 shape 0%nat) true rows
     else
       if ((nth 1 shape 0 =? 0) || (nth 0 shape 0 =? 0))%nat then
         Raise (PngError "width and height must be greater than zero")
       else
         pixel_array ← reshape_rgb (arr_data (pixel_array ds));
         png_image (nth 1 shape 0%nat) (nth 0 shape 0%nat) false pixel_array);
  Ok (png_file, shape, is_greyscale).

(** [_set_bbox_color(instance, box_color_setting)].  [instance.save_as]
    writes the dataset to a temporary file, from which
    [_convert_dcm_to_png] reads it back. *)
Definition _set_bbox_color (instance : Instance) (box_color_setting : string)
  : res color :=
  invert_flag ←
    (if str_in (PyStr.lower box_color_setting) contrast_names then Ok true
     else if str_in (PyStr.lower box_color_setting) background_names then Ok false
     else Raise (ValueError "box_color_setting must be 'contrast' or 'background'"));
  converted ← _convert_dcm_to_png instance;
  let loaded_image := fst (fst converted) in
  let is_greyscale := snd converted in
  _get_bg_color loaded_image is_greyscale invert_flag.

(** The loop [for i in range(0, len(bounding_boxes_coordinates))] of
    [_add_redact_box]: each round writes one rectangle into the pixel array
    object of [redacted_instance]. *)
Fixpoint mask_loop (redacted_instance : loc) (boxes : list Rectangle) (box_color : color)
  : M unit :=
  match boxes with
  | [] => mret tt
  | bbox :: boxes' =>
      let top := r_top bbox in
      let left := r_left bbox in
      let width := r_width bbox in
      let height := r_height bbox in
      ds ← load_dataset redacted_instance;
      a ← load_array (ds_pixel_array ds);
      data ← lift (setitem_slice2 (arr_data a) top height left width box_color);
      _ ← store (ds_pixel_array ds) (OArray {| arr_dtype := arr_dtype a; arr_data := data |});
      mask_loop redacted_instance boxes' box_color
  end.

Definition _add_redact_box (instance : loc) (bounding_boxes_coordinates : list Rectangle)
    (box_color_setting : string) : M loc :=
  (* Copy instance *)
  redacted_instance ← deepcopy instance;
  (* Select masking box color *)
  original ← view instance;
  is_greyscale ← lift (_check_if_greyscale original);
  box_color ←
    (if (is_greyscale : bool) then
       v ← lift (_get_most_common_pixel_value original box_color_setting);
       mret (CInt v)
     else
       copied ← view redacted_instance;
       lift (_set_bbox_color copied box_color_setting));
  (* Apply mask *)
  _ ← mask_loop redacted_instance bounding_boxes_coordinates box_color;
  (* redacted_instance.PixelData = redacted_instance.pixel_array.tobytes() *)
  ds ← load_dataset redacted_instance;
  a ← load_array (ds_pixel_array ds);
  _ ← store redacted_instance
        (ODataset {| ds_elements := ds_elements ds;
                     ds_pixel_array := ds_pixel_array ds;
                     ds_PixelData := tobytes a |});
  mret redacted_instance.

(** *** The raster normalizer *)

(** The property of a full-range contrast stretch, for the grayscale
    branch of [_rescale_dcm_pixel_array] on one instance: the result is an
    8-bit array, every entry lies in [0, 255], an entry that equals the
    per-image maximum becomes 255, and a negative entry becomes 0. *)
Definition full_range_stretch (instance : Instance) : Prop :=
  exists out maximum,
    _rescale_dcm_pixel_array instance true = Ok out
    /\ Float64.amax (flatten (image_2d_float instance)) = Ok maximum
    /\ arr_dtype out = uint8
    /\ shape (arr_data out) = shape (image_2d_float instance)
    /\ forall i x, flatten (image_2d_float instance) !! i = Some x ->
         exists y, flatten (arr_data out) !! i = Some y
           /\ 0 <= y <= 255
           /\ (x = maximum -> y = 255)
           /\ (SFltb x Float64.zero = true -> y = 0).

Lemma flatten_nd_map {A B} (f : A -> B) (a : nd A) :
  flatten (nd_map f a) = map f (flatten a).
Proof.
  destruct a as [rows|rows]; simpl.
  - induction rows as [|row rows IH]; simpl; [done|]. by rewrite map_app, IH.
  - induction rows as [|row rows IH]; simpl; [done|].
    rewrite map_app, IH. f_equal.
    induction row as [|cell row IHr]; simpl; [done|]. by rewrite map_app, IHr.
Qed.

Lemma shape_nd_map {A B} (f : A -> B) (a : nd A) : shape (nd_map f a) = shape a.
Proof.
  destruct a as [rows|rows]; simpl.
  - rewrite length_map. destruct rows; simpl; by rewrite ?length_map.
  - rewrite length_map. destruct rows as [|[|cell row] rows]; simpl;
      by rewrite ?length_map.
Qed.

Lemma rescale_entry_maximum (m : positive) (e : Z) :
  Float64.to_uint8 (rescale_entry (S754_finite false m e) (S754_finite false m e)) = 255.
Proof.
  unfold rescale_entry.
  replace (Float64.maximum (S754_finite false m e) Float64.zero)
    with (S754_finite false m e) by done.
  rewrite Float64.div_self. apply Float64.mul_one_255.
Qed.

Lemma rescale_entry_negative (x : Float64.float) (m : positive) (e : Z) :
  SFltb x Float64.zero = true ->
  Float64.to_uint8 (rescale_entry (S754_finite false m e) x) = 0.
Proof.
  intros Hneg. unfold rescale_entry.
  replace (Float64.maximum x Float64.zero) with Float64.zero
    by (by destruct x as [[]|[]| |[] ? ?]).
  rewrite Float64.div_zero_finite. apply Float64.mul_zero_255.
Qed.

Lemma rescale_greyscale_eq (instance : Instance) (maximum : Float64.float) :
  Float64.amax (flatten (image_2d_float instance)) = Ok maximum ->
  _rescale_dcm_pixel_array instance true
  = Ok {| arr_dtype := uint8;
          arr_data := nd_map Float64.to_uint8
                        (nd_map (rescale_entry maximum) (image_2d_float instance)) |}.
Proof. intros Hmax. unfold _rescale_dcm_pixel_array. by rewrite Hmax. Qed.

(** C6, as amended.  When the per-image maximum of the grayscale buffer
    (after the optional VOI LUT) is a positive finite number,
    [_rescale_dcm_pixel_array] is a full-range contrast stretch: it returns
    an 8-bit array of the same shape with every value in [0, 255], every
    entry equal to the maximum mapped to exactly 255 and every negative
    entry mapped to 0. *)
Theorem rescale_full_range (instance : Instance) (m : positive) (e : Z) :
  Float64.amax (flatten (image_2d_float instance)) = Ok (S754_finite false m e) ->
  full_range_stretch instance.
Proof.
  intros Hmax. unfold full_range_stretch.
  rewrite (rescale_greyscale_eq _ _ Hmax), Hmax.
  eexists _, _. split; [reflexivity|]. split; [reflexivity|].
  split; [done|]. cbn [arr_data]. split; [by rewrite !shape_nd_map|].
  intros i x Hx. rewrite !flatten_nd_map.
  change (map ?f ?l) with (f <$> l). rewrite !list_lookup_fmap, Hx. simpl.
  eexists. split; [reflexivity|].
  split; [apply Float64.to_uint8_range|]. split.
  - intros ->. apply rescale_entry_maximum.
  - apply rescale_entry_negative.
Qed.

End WithVoiLut.

(** The library's transform is not used on an instance without a
    [WindowWidth] element; this stand-in returns the array unchanged. *)
Definition no_voi_lut (a : ndarray) (_ : list DataElement) : nd Float64.float :=
  nd_map Float64.of_Z (arr_data a).

Definition photometric (v : string) : DataElement :=
  {| tag := PhotometricInterpretation;
     name := "Photometric Interpretation";
     value := VStr v |}.

(** A grayscale instance with the given element type and pixel rows. *)
Definition monochrome (dt : dtype) (rows : list (list Z)) : Instance :=
  {| elements := [photometric "MONOCHROME2"];
     pixel_array := {| arr_dtype := dt; arr_data := Arr2 rows |} |}.

Example rescale_ex :
  _rescale_dcm_pixel_array no_voi_lut (monochrome int16 [[0; 100; 200]; [-5; 1; 199]]) true
  = Ok {| arr_dtype := uint8; arr_data := Arr2 [[0; 127; 255]; [0; 1; 253]] |}.
Proof. reflexivity. Qed.

Lemma rescale_full_range_witness :
  Float64.amax (flatten (image_2d_float no_voi_lut
                           (monochrome int16 [[0; 100; 200]; [-5; 1; 199]])))
    = Ok (S754_finite false 0x19000000000000 (-45))
  /\ full_range_stretch no_voi_lut (monochrome int16 [[0; 100; 200]; [-5; 1; 199]]).
Proof.
  split; [reflexivity|].
  apply (rescale_full_range no_voi_lut _ 0x19000000000000 (-45)). reflexivity.
Defined.

(** C6 as stated fails: in a signed image whose pixels are all negative,
    the pixel that equals the per-image maximum is mapped to 0, not to
    255. *)
Lemma rescale_all_negative_not_full_range :
  _rescale_dcm_pixel_array no_voi_lut (monochrome int16 [[-3; -1]]) true
    = Ok {| arr_dtype := uint8; arr_data := Arr2 [[0; 0]] |}
  /\ ~ full_range_stretch no_voi_lut (monochrome int16 [[-3; -1]]).
Proof.
  split; [reflexivity|].
  intros (out & maximum & Hout & Hmax & _ & _ & Hpix).
  injection Hout as <-. injection Hmax as <-.
  destruct (Hpix 1%nat (Float64.of_Z (-1)) eq_refl) as (y & Hy & _ & Htop & _).
  injection Hy as <-. by specialize (Htop eq_refl).
Qed.

(** In a blank image the maximum is 0 and every entry is 0/0, a NaN, which
    the 8-bit conversion turns into 0 here. *)
Example rescale_blank :
  _rescale_dcm_pixel_array no_voi_lut (monochrome uint8 [[0; 0]; [0; 0]]) true
  = Ok {| arr_dtype := uint8; arr_data := Arr2 [[0; 0]; [0; 0]] |}.
Proof. reflexivity. Qed.

(** *** Rejection of configuration values *)

Lemma add_padding_rejects (image : PIL.Image) (is_greyscale : bool) (w : Z) :
  w <= 0 \/ 100 <= w ->
  is_ValueError (_add_padding image is_greyscale w) = true.
Proof.
  intros Hw. unfold _add_padding.
  destruct (Z.leb_spec w 0); [done|].
  destruct (Z.geb_spec w 100); [done|lia].
Qed.

Lemma set_bbox_color_rejects apply_voi_lut (instance : Instance) (setting : string) :
  str_in (PyStr.lower setting) contrast_names = false ->
  str_in (PyStr.lower setting) background_names = false ->
  _set_bbox_color apply_voi_lut instance setting
  = Raise (ValueError "box_color_setting must be 'contrast' or 'background'").
Proof. intros Hc Hb. unfold _set_bbox_color. by rewrite Hc, Hb. Qed.

(** On the grayscale path an unknown setting is met by no branch at all:
    whenever the mode of the pixels can be computed, the method ends in
    the unbound local variable. *)
Lemma get_most_common_pixel_value_unknown_setting (instance : Instance)
    (setting : string) (v : Z) :
  str_in (PyStr.lower setting) contrast_names = false ->
  str_in (PyStr.lower setting) background_names = false ->
  _get_most_common_pixel_value instance "background" = Ok v ->
  _get_most_common_pixel_value instance setting = Raise (UnboundLocalError "pixel_value").
Proof.
  intros Hc Hb. unfold _get_most_common_pixel_value. rewrite Hc, Hb.
  destruct (read_pixel_array instance) as [array|]; simpl; [|done].
  destruct (_check_if_greyscale instance) as [[]|]; simpl; try done.
  destruct (argmax _) as [i|]; simpl; [|done].
  by destruct (_ !! i).
Qed.

(** C7 (the code departs from the property on the grayscale path).  The
    padding transform rejects the widths 0, -5 and 150 with its
    [ValueError], and the colour path rejects the setting ["sideways"] with
    its [ValueError]; the grayscale path has no such check: on a grayscale
    instance [_get_most_common_pixel_value] with ["sideways"] ends in an
    [UnboundLocalError], which is not the configuration error. *)
Theorem sideways_on_grayscale_path :
  (forall image is_greyscale,
     is_ValueError (_add_padding image is_greyscale 0) = true
     /\ is_ValueError (_add_padding image is_greyscale (-5)) = true
     /\ is_ValueError (_add_padding image is_greyscale 150) = true)
  /\ (forall apply_voi_lut instance,
        _set_bbox_color apply_voi_lut instance "sideways"
        = Raise (ValueError "box_color_setting must be 'contrast' or 'background'"))
  /\ _get_most_common_pixel_value (monochrome uint8 [[0; 0; 255]; [0; 7; 0]]) "sideways"
     = Raise (UnboundLocalError "pixel_value")
  /\ is_ValueError
       (_get_most_common_pixel_value (monochrome uint8 [[0; 0; 255]; [0; 7; 0]]) "sideways")
     = false.
Proof.
  split; [|split; [|split]].
  - intros image is_greyscale. repeat split; apply add_padding_rejects; lia.
  - intros apply_voi_lut instance. by apply set_bbox_color_rejects.
  - reflexivity.
  - reflexivity.
Qed.

Example get_most_common_pixel_value_contrast :
  _get_most_common_pixel_value (monochrome uint8 [[0; 0; 255]; [0; 7; 0]]) "Contrast" = Ok 255.
Proof. reflexivity. Qed.

Example get_most_common_pixel_value_background :
  _get_most_common_pixel_value (monochrome uint8 [[0; 0; 255]; [0; 7; 0]]) "BG" = Ok 0.
Proof. reflexivity. Qed.

(** *** The Photometric Interpretation element *)

Lemma check_if_greyscale_missing (instance : Instance) :
  find_element PhotometricInterpretation (elements instance) = None ->
  _check_if_greyscale instance = Raise (KeyError 0x0028 0x0004).
Proof. intros Hnone. unfold _check_if_greyscale, getitem. by rewrite Hnone. Qed.

Lemma check_if_greyscale_present (instance : Instance) (e : DataElement) :
  find_element PhotometricInterpretation (elements instance) = Some e ->
  _check_if_greyscale instance = Ok (negb (py_eq (value e) (VStr "RGB"))).
Proof. intros Hsome. unfold _check_if_greyscale, getitem. by rewrite Hsome. Qed.

(** Where the grayscale check answers, the pixel array can be read. *)
Lemma read_pixel_array_checked (instance : Instance) (is_greyscale : bool) :
  _check_if_greyscale instance = Ok is_greyscale ->
  read_pixel_array instance = Ok (pixel_array instance).
Proof.
  unfold _check_if_greyscale, getitem, read_pixel_array, contains.
  destruct (find_element PhotometricInterpretation (elements instance)) as [e|]; [|done].
  intros _. by rewrite bool_decide_eq_true_2.
Qed.

Lemma read_pixel_array_missing (instance : Instance) :
  find_element PhotometricInterpretation (elements instance) = None ->
  exists msg, read_pixel_array instance = Raise (AttributeError msg).
Proof.
  intros Hnone. unfold read_pixel_array, contains. rewrite Hnone.
  rewrite bool_decide_eq_false_2; [by eexists|]. by intros [? ?].
Qed.

(** *** The redaction applicator on the store *)

Section Redaction.

Variable apply_voi_lut : ndarray -> list DataElement -> nd Float64.float.

(** What the sequence of slice assignments makes of the pixel array, one
    rectangle after the other in list order. *)
Fixpoint write_boxes (boxes : list Rectangle) (box_color : color) (data : nd Z)
  : res (nd Z) :=
  match boxes with
  | [] => Ok data
  | bbox :: boxes' =>
      data' ← setitem_slice2 data (r_top bbox) (r_height bbox) (r_left bbox) (r_width bbox)
                box_color;
      write_boxes boxes' box_color data'
  end.

(** The colour that [_add_redact_box] selects for a dataset. *)
Definition select_box_color (instance : Instance) (box_color_setting : string)
  : res color :=
  is_greyscale ← _check_if_greyscale instance;
  if (is_greyscale : bool) then
    v ← _get_most_common_pixel_value instance box_color_setting; Ok (CInt v)
  else _set_bbox_color apply_voi_lut instance box_color_setting.

Lemma bind_run {A B} (m : M A) (k : A -> M B) (h : heap) :
  (m ≫= k) h
  = match m h with
    | (Ok a, h') => k a h'
    | (Raise e, h') => (Raise e, h')
    end.
Proof. reflexivity. Qed.

Lemma load_dataset_run (h : heap) l ds :
  h !! l = Some (ODataset ds) -> load_dataset l h = (Ok ds, h).
Proof. intros Hl. unfold load_dataset. by rewrite Hl. Qed.

Lemma load_array_run (h : heap) l a :
  h !! l = Some (OArray a) -> load_array l h = (Ok a, h).
Proof. intros Hl. unfold load_array. by rewrite Hl. Qed.

Lemma view_run (h : heap) l ds a :
  h !! l = Some (ODataset ds) -> h !! ds_pixel_array ds = Some (OArray a) ->
  view l h = (Ok {| elements := ds_elements ds; pixel_array := a |}, h).
Proof.
  intros Hl Ha. unfold view.
  rewrite bind_run, (load_dataset_run _ _ _ Hl).
  by rewrite bind_run, (load_array_run _ _ _ Ha).
Qed.

Lemma view_inv (h h' : heap) l instance :
  view l h = (Ok instance, h') ->
  h' = h /\ exists ds a,
    h !! l = Some (ODataset ds) /\ h !! ds_pixel_array ds = Some (OArray a)
    /\ instance = {| elements := ds_elements ds; pixel_array := a |}.
Proof.
  unfold view. rewrite bind_run. unfold load_dataset at 1.
  destruct (h !! l) as [[ds|a]|] eqn:Hl; try done.
  rewrite bind_run. unfold load_array.
  destruct (h !! ds_pixel_array ds) as [[ds'|a]|] eqn:Ha; try done.
  intros [= <- <-]. split; [done|]. by exists ds, a.
Qed.

(** A run that cannot read its argument stops at once and leaves the store
    as it is. *)
Lemma add_redact_box_not_loaded (h : heap) l boxes setting :
  (forall ds a, h !! l = Some (ODataset ds) -> h !! ds_pixel_array ds = Some (OArray a) -> False) ->
  exists e, _add_redact_box apply_voi_lut l boxes setting h = (Raise e, h).
Proof.
  intros Hno. unfold _add_redact_box, deepcopy.
  rewrite !bind_run. unfold load_dataset at 1.
  destruct (h !! l) as [[ds|a]|] eqn:Hl; try by eexists.
  rewrite !bind_run. unfold load_array at 1.
  destruct (h !! ds_pixel_array ds) as [[ds'|a]|] eqn:Ha; try by eexists.
  destruct (Hno ds a); done.
Qed.

Lemma mask_loop_run l' ds' boxes box_color : forall (h : heap) a,
  h !! l' = Some (ODataset ds') ->
  h !! ds_pixel_array ds' = Some (OArray a) ->
  exists r a2,
    mask_loop l' boxes box_color h = (r, <[ds_pixel_array ds' := OArray a2]> h)
    /\ arr_dtype a2 = arr_dtype a
    /\ match write_boxes boxes box_color (arr_data a) with
       | Ok data => r = Ok tt /\ arr_data a2 = data
       | Raise e => r = Raise e
       end.
Proof.
  induction boxes as [|bbox boxes IH]; intros h a Hl Ha; simpl.
  - exists (Ok tt), a. by rewrite insert_id.
  - rewrite bind_run, (load_dataset_run _ _ _ Hl).
    rewrite bind_run, (load_array_run _ _ _ Ha).
    rewrite bind_run. unfold lift at 1.
    destruct (setitem_slice2 _ _ _ _ _ _) as [data|e]; simpl.
    + rewrite bind_run. unfold store at 1.
      set (a1 := {| arr_dtype := arr_dtype a; arr_data := data |}).
      assert (Hne : ds_pixel_array ds' <> l').
      { intros Heq. rewrite Heq in Ha. congruence. }
      destruct (IH (<[ds_pixel_array ds' := OArray a1]> h) a1) as (r & a2 & Hrun & Hdt & Hres).
      { by rewrite lookup_insert_ne. }
      { by rewrite lookup_insert_eq. }
      exists r, a2. rewrite Hrun, insert_insert_eq. done.
    + exists (Raise e), a. by rewrite insert_id.
Qed.

(** What a run of [_add_redact_box] does to the store when its argument
    refers to a dataset: it allocates a new array [la'] and a new dataset
    [l'], and every later write goes to one of these two. *)
Lemma add_redact_box_run (h : heap) l ds a boxes setting :
  h !! l = Some (ODataset ds) ->
  h !! ds_pixel_array ds = Some (OArray a) ->
  let la' := fresh (dom h) in
  let l' := fresh (dom (<[la' := OArray a]> h)) in
  (la' ∉ dom h) /\ (l' ∉ dom h) /\ l' <> la'
  /\ exists r a2 pd,
       _add_redact_box apply_voi_lut l boxes setting h
       = (r, <[l' := ODataset {| ds_elements := ds_elements ds;
                                 ds_pixel_array := la';
                                 ds_PixelData := pd |}]>
               (<[la' := OArray a2]> h))
       /\ arr_dtype a2 = arr_dtype a
       /\ match select_box_color {| elements := ds_elements ds; pixel_array := a |} setting with
          | Raise e => r = Raise e
          | Ok box_color =>
              match write_boxes boxes box_color (arr_data a) with
              | Ok data => r = Ok l' /\ arr_data a2 = data /\ pd = flatten data
              | Raise e => r = Raise e
              end
          end.
Proof.
  intros Hl Ha la' l'.
  assert (Hla : la' ∉ dom h) by apply is_fresh.
  assert (Hl' : l' ∉ dom (<[la' := OArray a]> h)) by apply is_fresh.
  rewrite dom_insert_L in Hl'.
  assert (Hne : l' <> la') by set_solver.
  assert (Hl'h : l' ∉ dom h) by set_solver.
  assert (Hl_la : l <> la').
  { intros ->. apply Hla, elem_of_dom. eauto. }
  assert (Hl_l' : l <> l').
  { intros ->. apply Hl'h, elem_of_dom. eauto. }
  assert (Hpa_la : ds_pixel_array ds <> la').
  { intros Heq. apply Hla. rewrite <- Heq. apply elem_of_dom. eauto. }
  assert (Hpa_l' : ds_pixel_array ds <> l').
  { intros Heq. apply Hl'h. rewrite <- Heq. apply elem_of_dom. eauto. }
  do 3 (split; [done|]).
  set (ds' := {| ds_elements := ds_elements ds; ds_pixel_array := la';
                 ds_PixelData := ds_PixelData ds |}).
  set (h2 := <[l' := ODataset ds']> (<[la' := OArray a]> h)).
  assert (Hh2_l' : h2 !! l' = Some (ODataset ds')) by apply lookup_insert_eq.
  assert (Hh2_la : h2 !! la' = Some (OArray a)).
  { unfold h2. rewrite lookup_insert_ne by done. apply lookup_insert_eq. }
  assert (Hh2_l : h2 !! l = Some (ODataset ds)).
  { unfold h2. by rewrite !lookup_insert_ne. }
  assert (Hh2_pa : h2 !! ds_pixel_array ds = Some (OArray a)).
  { unfold h2. by rewrite !lookup_insert_ne. }
  assert (Hcopy : deepcopy l h = (Ok l', h2)).
  { unfold deepcopy. rewrite bind_run, (load_dataset_run _ _ _ Hl).
    rewrite bind_run, (load_array_run _ _ _ Ha). done. }
  assert (Hstart : forall a2 pd,
             <[l' := ODataset {| ds_elements := ds_elements ds; ds_pixel_array := la';
                                 ds_PixelData := pd |}]> (<[la' := OArray a2]> h2)
             = <[l' := ODataset {| ds_elements := ds_elements ds; ds_pixel_array := la';
                                   ds_PixelData := pd |}]> (<[la' := OArray a2]> h)).
  { intros a2 pd. unfold h2.
    rewrite (insert_insert_ne _ la' l') by done.
    rewrite insert_insert_eq, insert_insert_eq. done. }
  assert (Hsame : h2 = <[l' := ODataset ds']> (<[la' := OArray a]> h2)).
  { by rewrite (insert_id h2 la' _ Hh2_la), (insert_id h2 l' _ Hh2_l'). }
  unfold _add_redact_box.
  rewrite bind_run, Hcopy.
  rewrite bind_run, (view_run _ _ _ _ Hh2_l Hh2_pa).
  set (original := {| elements := ds_elements ds; pixel_array := a |}).
  unfold select_box_color.
  rewrite bind_run. unfold lift at 1.
  destruct (_check_if_greyscale original) as [is_greyscale|e] eqn:Hgrey; simpl.
  2:{ exists (Raise e), a, (ds_PixelData ds).
      rewrite <- Hstart. fold ds'. rewrite <- Hsame. done. }
  rewrite bind_run.
  assert (Hcolor : exists rc : res color,
    (if is_greyscale
     then v ← lift (_get_most_common_pixel_value original setting); mret (CInt v)
     else copied ← view l'; lift (_set_bbox_color apply_voi_lut copied setting)) h2
    = (rc, h2)
    /\ rc = (if is_greyscale
             then v ← _get_most_common_pixel_value original setting; Ok (CInt v)
             else _set_bbox_color apply_voi_lut original setting)).
  { destruct is_greyscale.
    - rewrite bind_run. unfold lift.
      destruct (_get_most_common_pixel_value original setting); by eexists.
    - rewrite bind_run, (view_run _ _ _ _ Hh2_l' Hh2_la). by eexists. }
  destruct Hcolor as (rc & -> & ->).
  match goal with |- context [match ?c with Ok _ => _ | Raise _ => _ end] =>
    destruct c as [box_color|e] eqn:Hbox end.
  2:{ exists (Raise e), a, (ds_PixelData ds).
      rewrite <- Hstart. fold ds'. rewrite <- Hsame. done. }
  rewrite bind_run.
  destruct (mask_loop_run l' ds' boxes box_color h2 a Hh2_l' Hh2_la)
    as (r & a2 & Hloop & Hdt & Hres).
  rewrite Hloop. simpl in Hloop |- *.
  destruct (write_boxes boxes box_color (arr_data a)) as [data|e].
  - destruct Hres as [-> Hdata].
    rewrite bind_run, (load_dataset_run _ l' ds')
      by (by rewrite lookup_insert_ne).
    rewrite bind_run, (load_array_run _ la' a2) by apply lookup_insert_eq.
    rewrite bind_run. unfold store, mret, M_mret, M_ret. simpl.
    exists (Ok l'), a2, (tobytes a2). rewrite Hstart.
    unfold tobytes. rewrite Hdata. done.
  - subst r. exists (Raise e), a2, (ds_PixelData ds).
    rewrite <- Hstart. fold ds'.
    rewrite (insert_id (<[la' := OArray a2]> h2) l' (ODataset ds'))
      by (by rewrite lookup_insert_ne).
    done.
Qed.

(** C2. Whatever the dataset, the rectangles and the box-colour setting,
    and whether the run returns or raises, a run of [_add_redact_box]
    leaves every object that existed before it exactly as it was, the
    caller's dataset and its pixel array among them.  When it returns, the
    returned reference is to a dataset object that did not exist before,
    whose pixel array is an object that did not exist before either. *)
Theorem add_redact_box_leaves_input (h h' : heap) (instance : loc)
    (boxes : list Rectangle) (setting : string) (r : res loc) :
  _add_redact_box apply_voi_lut instance boxes setting h = (r, h') ->
  (forall l, l ∈ dom h -> h' !! l = h !! l)
  /\ (forall out, r = Ok out ->
       (out ∉ dom h)
       /\ exists ds' a',
            h' !! out = Some (ODataset ds')
            /\ h' !! ds_pixel_array ds' = Some (OArray a')
            /\ (ds_pixel_array ds' ∉ dom h)).
Proof.
  intros Hrun.
  destruct (h !! instance) as [[ds|a0]|] eqn:Hl.
  1: destruct (h !! ds_pixel_array ds) as [[ds0|a]|] eqn:Ha.
  2:{ destruct (add_redact_box_run h instance ds a boxes setting Hl Ha)
        as (Hla & Hl' & Hne & r' & a2 & pd & Hrun' & _ & Hres).
      rewrite Hrun in Hrun'. injection Hrun' as -> ->. split.
      - intros k Hk. rewrite !lookup_insert_ne; [done| |]; intros <-; done.
      - intros out ->.
        assert (out = fresh (dom (<[fresh (dom h) := OArray a]> h))) as ->.
        { destruct (select_box_color _ _); [|done].
          destruct (write_boxes _ _ _); [|done]. by destruct Hres as [[= ->] _]. }
        split; [done|]. eexists _, a2. rewrite lookup_insert_eq. split; [done|].
        simpl. rewrite lookup_insert_ne by done. by rewrite lookup_insert_eq. }
  all: destruct (add_redact_box_not_loaded h instance boxes setting) as [e He];
    [intros ds1 a1 Hds1 Ha1; congruence|];
    rewrite Hrun in He; injection He as -> ->; by split.
Qed.

(** Whether the cell in row [r] and column [c] lies in the span of one of
    the rectangles. *)
Definition covered (boxes : list Rectangle) (r c : nat) : bool :=
  existsb (fun bbox =>
             (r_top bbox <=? Z.of_nat r) && (Z.of_nat r <? r_top bbox + r_height bbox)
             && (r_left bbox <=? Z.of_nat c) && (Z.of_nat c <? r_left bbox + r_width bbox))
          boxes.

(** A rectangle of the data model: four non-negative integers. *)
Definition rectangle_ok (bbox : Rectangle) : Prop :=
  0 <= r_top bbox /\ 0 <= r_left bbox /\ 0 <= r_width bbox /\ 0 <= r_height bbox.

(** Writing one rectangle into a two-dimensional buffer. *)
Definition fill (v : Z) (buffer : list (list Z)) (bbox : Rectangle) : list (list Z) :=
  assign_slice2 (fun _ => v) (r_top bbox) (r_height bbox) (r_left bbox) (r_width bbox) buffer.

Lemma write_boxes_grey (boxes : list Rectangle) (v : Z) : forall rows,
  write_boxes boxes (CInt v) (Arr2 rows) = Ok (Arr2 (foldl (fill v) rows boxes)).
Proof. induction boxes as [|bbox boxes IH]; intros rows; simpl; [done|apply IH]. Qed.

Lemma fill_lookup (v : Z) (rows : list (list Z)) (bbox : Rectangle) (r c : nat) :
  rectangle_ok bbox ->
  fill v rows bbox !! r ≫= (.!! c)
  = (fun p => if covered [bbox] r c then v else p) <$> (rows !! r ≫= (.!! c)).
Proof.
  intros (Ht & Hl & Hw & Hh). unfold fill. rewrite assign_slice2_lookup.
  destruct (rows !! r) as [row|] eqn:Hrow; simpl; [|done].
  destruct (row !! c) as [p|] eqn:Hp; simpl; [|done].
  apply lookup_lt_Some in Hrow, Hp.
  rewrite !in_slice_nonneg by lia.
  rewrite orb_false_r, andb_assoc. done.
Qed.

Lemma foldl_fill_lookup (v : Z) (boxes : list Rectangle) : forall rows r c,
  Forall rectangle_ok boxes ->
  foldl (fill v) rows boxes !! r ≫= (.!! c)
  = (fun p => if covered boxes r c then v else p) <$> (rows !! r ≫= (.!! c)).
Proof.
  induction boxes as [|bbox boxes IH]; intros rows r c Hok; simpl.
  - by destruct (rows !! r ≫= (.!! c)).
  - apply Forall_cons in Hok as [Hbox Hok].
    rewrite IH, fill_lookup by done.
    destruct (rows !! r ≫= (.!! c)) as [p|]; simpl; [|done].
    rewrite orb_false_r. by destruct (_ && _), (covered boxes r c).
Qed.

Lemma get_most_common_pixel_value_greyscale (instance : Instance) setting v :
  _get_most_common_pixel_value instance setting = Ok v ->
  _check_if_greyscale instance = Ok true.
Proof.
  unfold _get_most_common_pixel_value.
  destruct (read_pixel_array instance) as [array|]; [|done]. simpl.
  by destruct (_check_if_greyscale instance) as [[]|].
Qed.

(** The run of [_add_redact_box] on a grayscale instance for which the
    colour selection gives [v]. *)
Lemma add_redact_box_writes (h : heap) (instance : loc) (ds : FileDataset)
    (dt : dtype) (rows : list (list Z)) (boxes : list Rectangle)
    (setting : string) (v : Z) :
  h !! instance = Some (ODataset ds) ->
  h !! ds_pixel_array ds = Some (OArray {| arr_dtype := dt; arr_data := Arr2 rows |}) ->
  _get_most_common_pixel_value
    {| elements := ds_elements ds;
       pixel_array := {| arr_dtype := dt; arr_data := Arr2 rows |} |} setting = Ok v ->
  Forall rectangle_ok boxes ->
  exists out h' ds' rows',
    _add_redact_box apply_voi_lut instance boxes setting h = (Ok out, h')
    /\ h' !! out = Some (ODataset ds')
    /\ h' !! ds_pixel_array ds' = Some (OArray {| arr_dtype := dt; arr_data := Arr2 rows' |})
    /\ ds_elements ds' = ds_elements ds
    /\ ds_PixelData ds' = concat rows'
    /\ rows' = foldl (fill v) rows boxes
    /\ (forall boxes1 boxes2, boxes = boxes1 ++ boxes2 ->
          rows' = foldl (fill v) (foldl (fill v) rows boxes1) boxes2)
    /\ forall r c,
         rows' !! r ≫= (.!! c)
         = (fun p => if covered boxes r c then v else p) <$> (rows !! r ≫= (.!! c)).
Proof.
  intros Hl Ha Hv Hok.
  destruct (add_redact_box_run h instance ds _ boxes setting Hl Ha)
    as (Hla & Hl' & Hne & r & a2 & pd & Hrun & Hdt & Hres).
  unfold select_box_color in Hres.
  rewrite (get_most_common_pixel_value_greyscale _ _ _ Hv) in Hres.
  simpl in Hres. rewrite Hv in Hres. simpl in Hres.
  rewrite write_boxes_grey in Hres. destruct Hres as (-> & Hdata & ->).
  destruct a2 as [dt2 data2]. simpl in Hdt, Hdata. subst dt2 data2.
  eexists _, _, _, (foldl (fill v) rows boxes). split; [exact Hrun|].
  rewrite lookup_insert_eq. split; [done|]. simpl.
  rewrite lookup_insert_ne by done. rewrite lookup_insert_eq.
  do 4 (split; [done|]). split.
  - intros boxes1 boxes2 ->. by rewrite foldl_app.
  - intros r c. by apply foldl_fill_lookup.
Qed.

Lemma argmax_from_lt (counts : list nat) : forall i best_i best,
  (best_i < i)%nat -> (argmax_from i best_i best counts < i + length counts)%nat.
Proof.
  induction counts as [|c counts IH]; intros i best_i best Hlt; simpl; [lia|].
  destruct (best <? c)%nat.
  - specialize (IH (S i) i c). lia.
  - specialize (IH (S i) best_i best). lia.
Qed.

Lemma unique_counts_lengths (l : list Z) :
  length (snd (unique_counts l)) = length (fst (unique_counts l))
  /\ (l <> [] -> fst (unique_counts l) <> []).
Proof.
  unfold unique_counts. simpl. split; [by rewrite length_map|].
  intros Hne Hnil. destruct l as [|x l]; [done|].
  assert (Hx : x ∈ merge_sort Z.le (remove_dups (x :: l))).
  { rewrite merge_sort_Permutation. apply elem_of_remove_dups. by left. }
  rewrite Hnil in Hx. by apply elem_of_nil in Hx.
Qed.

(** On a grayscale instance with a non-empty pixel buffer, the colour
    selection succeeds for every accepted setting. *)
Lemma get_most_common_pixel_value_ok (instance : Instance) (setting : string) :
  _check_if_greyscale instance = Ok true ->
  flatten (arr_data (pixel_array instance)) <> [] ->
  str_in (PyStr.lower setting) contrast_names
    || str_in (PyStr.lower setting) background_names = true ->
  exists v, _get_most_common_pixel_value instance setting = Ok v.
Proof.
  intros Hgrey Hne Hset. unfold _get_most_common_pixel_value.
  rewrite (read_pixel_array_checked _ _ Hgrey). unfold mbind at 1, res_mbind at 1.
  cbn [res_bind]. rewrite Hgrey.
  remember (str_in (PyStr.lower setting) contrast_names) as is_contrast.
  remember (str_in (PyStr.lower setting) background_names) as is_background.
  destruct (unique_counts_lengths (flatten (arr_data (pixel_array instance))))
    as [Hlen Hvals]. specialize (Hvals Hne).
  destruct (unique_counts (flatten (arr_data (pixel_array instance))))
    as [values counts]. simpl in Hlen, Hvals |- *.
  destruct counts as [|c counts]; [by destruct values|]. simpl.
  pose proof (argmax_from_lt counts 1 0 c ltac:(lia)) as Hi.
  destruct (lookup_lt_is_Some_2 values (argmax_from 1 0 c counts)) as [v ->].
  { rewrite <- Hlen. simpl. lia. }
  simpl. destruct is_contrast.
  - destruct (flatten (arr_data (pixel_array instance))); [done|]. simpl. by eexists.
  - simpl in Hset. rewrite Hset. by eexists.
Qed.

(** C1. For every grayscale instance (the element (0028,0004) is present
    and is not ["RGB"]) with a non-empty [(rows, cols)] pixel buffer, every
    accepted box-colour setting and every list of rectangles of
    non-negative integers, [_add_redact_box] returns an instance whose
    pixel buffer is the result of writing the rectangles one after the other
    in list order with the selected grayscale mask colour [v] (so where
    rectangles overlap the later write stands): every cell inside the span
    [top, top + height) x [left, left + width) of some rectangle holds [v],
    every other cell holds what it held in the input, the shape is
    unchanged, and [PixelData] is the serialised new buffer. *)
Theorem add_redact_box_mask (h : heap) (instance : loc) (ds : FileDataset)
    (dt : dtype) (rows : list (list Z)) (boxes : list Rectangle) (setting : string) :
  h !! instance = Some (ODataset ds) ->
  h !! ds_pixel_array ds = Some (OArray {| arr_dtype := dt; arr_data := Arr2 rows |}) ->
  _check_if_greyscale
    {| elements := ds_elements ds;
       pixel_array := {| arr_dtype := dt; arr_data := Arr2 rows |} |} = Ok true ->
  concat rows <> [] ->
  str_in (PyStr.lower setting) contrast_names
    || str_in (PyStr.lower setting) background_names = true ->
  Forall rectangle_ok boxes ->
  exists v out h' ds' rows',
    _get_most_common_pixel_value
      {| elements := ds_elements ds;
         pixel_array := {| arr_dtype := dt; arr_data := Arr2 rows |} |} setting = Ok v
    /\ _add_redact_box apply_voi_lut instance boxes setting h = (Ok out, h')
    /\ h' !! out = Some (ODataset ds')
    /\ h' !! ds_pixel_array ds' = Some (OArray {| arr_dtype := dt; arr_data := Arr2 rows' |})
    /\ ds_PixelData ds' = concat rows'
    /\ rows' = foldl (fill v) rows boxes
    /\ (forall boxes1 boxes2, boxes = boxes1 ++ boxes2 ->
          rows' = foldl (fill v) (foldl (fill v) rows boxes1) boxes2)
    /\ forall r c,
         rows' !! r ≫= (.!! c)
         = (fun p => if covered boxes r c then v else p) <$> (rows !! r ≫= (.!! c)).
Proof.
  intros Hl Ha Hgrey Hne Hset Hok.
  destruct (get_most_common_pixel_value_ok _ setting Hgrey Hne Hset) as [v Hv].
  destruct (add_redact_box_writes h instance ds dt rows boxes setting v Hl Ha Hv Hok)
    as (out & h' & ds' & rows' & Hrun & Hout & Harr & _ & Hpd & Hfold & Hseq & Hpix).
  by exists v, out, h', ds', rows'.
Qed.

(** C10 (amended).  For an instance without the element (0028,0004), no
    operation that dispatches on the colour mode assumes a mode in its
    place; each of them fails.  The grayscale check, the raster conversion
    and, for a reference to such a dataset, the redaction applicator raise
    the [KeyError] of the failed element lookup.  The
    most-common-pixel-value selection fails before it comes to that
    lookup: its first statement reads [instance.pixel_array], which
    pydicom refuses with an [AttributeError], and this is so for every
    setting. *)
Theorem photometric_interpretation_required (instance : Instance) :
  find_element PhotometricInterpretation (elements instance) = None ->
  _check_if_greyscale instance = Raise (KeyError 0x0028 0x0004)
  /\ _convert_dcm_to_png apply_voi_lut instance = Raise (KeyError 0x0028 0x0004)
  /\ (exists msg, forall setting,
        _get_most_common_pixel_value instance setting = Raise (AttributeError msg))
  /\ (forall (h : heap) l boxes setting,
        view l h = (Ok instance, h) ->
        fst (_add_redact_box apply_voi_lut l boxes setting h)
        = Raise (KeyError 0x0028 0x0004)).
Proof.
  intros Hnone. pose proof (check_if_greyscale_missing instance Hnone) as Hgrey.
  split; [done|]. split; [|split].
  - unfold _convert_dcm_to_png. by rewrite Hgrey.
  - destruct (read_pixel_array_missing instance Hnone) as [msg Hread].
    exists msg. intros setting. unfold _get_most_common_pixel_value. by rewrite Hread.
  - intros h l boxes setting Hview.
    apply view_inv in Hview as (_ & ds & a & Hl & Ha & ->).
    destruct (add_redact_box_run h l ds a boxes setting Hl Ha)
      as (_ & _ & _ & r & a2 & pd & Hrun & _ & Hres).
    unfold select_box_color in Hres. rewrite Hgrey in Hres. simpl in Hres.
    by rewrite Hrun, Hres.
Qed.

End Redaction.

(** *** Concrete runs *)

(** A store with one grayscale dataset [1] whose pixel array is [2]. *)
Definition sample_heap : heap :=
  {[ 1%positive := ODataset {| ds_elements := [photometric "MONOCHROME2"];
                               ds_pixel_array := 2%positive;
                               ds_PixelData := [0; 0; 0; 0; 5; 0] |};
     2%positive := OArray {| arr_dtype := uint8;
                             arr_data := Arr2 [[0; 0; 0]; [0; 5; 0]] |} ]}.

Definition sample_boxes : list Rectangle :=
  [ {| r_top := 0; r_left := 1; r_width := 5; r_height := 1 |};
    {| r_top := 0; r_left := 0; r_width := 2; r_height := 2 |} ].

Example add_redact_box_ex :
  exists h',
    _add_redact_box no_voi_lut 1%positive sample_boxes "contrast" sample_heap
      = (Ok 4%positive, h')
    /\ h' !! 4%positive
       = Some (ODataset {| ds_elements := [photometric "MONOCHROME2"];
                           ds_pixel_array := 3%positive;
                           ds_PixelData := [5; 5; 5; 5; 5; 0] |})
    /\ h' !! 3%positive
       = Some (OArray {| arr_dtype := uint8;
                         arr_data := Arr2 [[5; 5; 5]; [5; 5; 0]] |})
    /\ h' !! 1%positive = sample_heap !! 1%positive
    /\ h' !! 2%positive = sample_heap !! 2%positive.
Proof. eexists. split; [vm_compute; reflexivity|]. repeat split. Qed.

Lemma add_redact_box_mask_witness :
  (sample_heap !! 1%positive
   = Some (ODataset {| ds_elements := [photometric "MONOCHROME2"];
                       ds_pixel_array := 2%positive;
                       ds_PixelData := [0; 0; 0; 0; 5; 0] |})
   /\ Forall rectangle_ok sample_boxes)
  /\ exists v out h' ds' rows',
       _get_most_common_pixel_value (monochrome uint8 [[0; 0; 0]; [0; 5; 0]]) "contrast"
         = Ok v
       /\ _add_redact_box no_voi_lut 1%positive sample_boxes "contrast" sample_heap
          = (Ok out, h')
       /\ h' !! out = Some (ODataset ds')
       /\ h' !! ds_pixel_array ds'
          = Some (OArray {| arr_dtype := uint8; arr_data := Arr2 rows' |})
       /\ ds_PixelData ds' = concat rows'
       /\ rows' = foldl (fill v) [[0; 0; 0]; [0; 5; 0]] sample_boxes.
Proof.
  assert (Hok : Forall rectangle_ok sample_boxes).
  { repeat constructor; simpl; lia. }
  split; [split; [reflexivity|exact Hok]|].
  destruct (add_redact_box_mask no_voi_lut sample_heap 1%positive
              {| ds_elements := [photometric "MONOCHROME2"];
                 ds_pixel_array := 2%positive;
                 ds_PixelData := [0; 0; 0; 0; 5; 0] |}
              uint8 [[0; 0; 0]; [0; 5; 0]] sample_boxes "contrast")
    as (v & out & h' & ds' & rows' & Hv & Hrun & Hout & Harr & Hpd & Hfold & _).
  - reflexivity.
  - reflexivity.
  - reflexivity.
  - simpl. discriminate.
  - reflexivity.
  - exact Hok.
  - exists v, out, h', ds', rows'. repeat split; assumption.
Defined.

Lemma add_redact_box_leaves_input_witness :
  let run := _add_redact_box no_voi_lut 1%positive sample_boxes "contrast" sample_heap in
  fst run = Ok 4%positive
  /\ (forall l, l ∈ dom sample_heap -> snd run !! l = sample_heap !! l)
  /\ (forall out, fst run = Ok out ->
       (out ∉ dom sample_heap)
       /\ exists ds' a',
            snd run !! out = Some (ODataset ds')
            /\ snd run !! ds_pixel_array ds' = Some (OArray a')
            /\ (ds_pixel_array ds' ∉ dom sample_heap)).
Proof.
  intros run. split; [vm_compute; reflexivity|].
  apply (add_redact_box_leaves_input no_voi_lut sample_heap (snd run) 1%positive
           sample_boxes "contrast" (fst run)).
  apply surjective_pairing.
Defined.

Definition no_photometric : Instance :=
  {| elements := [ {| tag := WindowWidth; name := "Window Width"; value := VStr "400" |} ];
     pixel_array := {| arr_dtype := uint8; arr_data := Arr2 [[0; 0; 0]; [0; 5; 0]] |} |}.

Lemma photometric_interpretation_required_witness :
  find_element PhotometricInterpretation (elements no_photometric) = None
  /\ _check_if_greyscale no_photometric = Raise (KeyError 0x0028 0x0004)
  /\ _convert_dcm_to_png no_voi_lut no_photometric = Raise (KeyError 0x0028 0x0004)
  /\ exists msg,
       _get_most_common_pixel_value no_photometric "contrast" = Raise (AttributeError msg).
Proof.
  split; [reflexivity|].
  destruct (photometric_interpretation_required no_voi_lut no_photometric)
    as (Hcheck & Hpng & [msg Hvalue] & _); [reflexivity|].
  split; [exact Hcheck|]. split; [exact Hpng|]. exists msg. apply Hvalue.
Defined.

(** C10, as first worded, fails for the most-common-pixel-value selection.
    On [no_photometric], which has no element (0028,0004), the selection
    does not come to read the element: the read of [instance.pixel_array]
    on its first line raises an [AttributeError], which is not a lookup
    error. *)
Lemma most_common_pixel_value_no_lookup_error :
  find_element PhotometricInterpretation (elements no_photometric) = None
  /\ (exists msg,
        _get_most_common_pixel_value no_photometric "contrast"
        = Raise (AttributeError msg))
  /\ is_LookupError (_get_most_common_pixel_value no_photometric "contrast") = false
  /\ _get_most_common_pixel_value no_photometric "contrast"
     <> Raise (KeyError 0x0028 0x0004).
Proof.
  split; [reflexivity|]. split; [by eexists|]. split; [reflexivity|]. discriminate.
Qed.

(** The mask of the rectangle [{top=10, left=20, width=5, height=5}] on a
    16 by 26 buffer of zeros with one pixel of 200: the contrast colour is
    [200 - 0], rows 10 to 14 and columns 20 to 24 hold 200 afterwards, and
    no other pixel has changed. *)
Definition dark_buffer : list (list Z) :=
  (200 :: replicate 25 0) :: replicate 15 (replicate 26 0).

Example mask_application_exactness :
  foldl (fill 200) dark_buffer [ {| r_top := 10; r_left := 20; r_width := 5; r_height := 5 |} ]
  = imap (fun r row =>
            imap (fun c p =>
                    if bool_decide (10 <= r < 15 /\ 20 <= c < 25)%nat then 200 else p) row)
         dark_buffer
  /\ _get_most_common_pixel_value (monochrome uint8 dark_buffer) "contrast" = Ok 200.
Proof. split; vm_compute; reflexivity. Qed.

(** Where two rectangles overlap, the cell is written twice, last by the
    later rectangle. *)
Example overlapping_rectangles :
  foldl (fill 9) [[0; 0; 0]; [0; 0; 0]]
    [ {| r_top := 0; r_left := 0; r_width := 2; r_height := 1 |};
      {| r_top := 0; r_left := 1; r_width := 2; r_height := 2 |} ]
  = [[9; 9; 9]; [0; 9; 9]].
Proof. reflexivity. Qed.

(** A negative [top] is a position counted from the end of the axis, as in
    every Python slice: such a rectangle does not write the rows of its
    span [top, top + height). *)
Example negative_top_counts_from_the_end :
  fill 9 [[0]; [0]; [0]; [0]] {| r_top := -2; r_left := 0; r_width := 1; r_height := 5 |}
  = [[0]; [0]; [9]; [0]].
Proof. reflexivity. Qed.

End Engine.

(** * Further properties of the engine's methods *)

(** ** The PHI synthesizer beyond the sentinels *)

Module PhiFacts.
Import PyVal Phi.

(** One round of the flattening loop. *)
Lemma flatten_loop_step (phi_list : list value) (i : nat) :
  flatten_loop phi_list i
  = match phi_list !! i with
    | None => phi_list
    | Some (VSeq kind items) =>
        flatten_loop (list_remove (VSeq kind items) (phi_list ++ items)) (S i)
    | Some _ => flatten_loop phi_list (S i)
    end.
Proof.
  funelim (flatten_loop phi_list i);
    match goal with H : _ !! _ = _ |- _ => rewrite H end; done.
Qed.

(** Past the last sequence the loop changes nothing. *)
Lemma flatten_loop_scalars (phi_list : list value) : forall n i,
  (length phi_list - i <= n)%nat ->
  Forall (fun v => is_sequence v = false) (drop i phi_list) ->
  flatten_loop phi_list i = phi_list.
Proof.
  induction n as [|n IH]; intros i Hn Hsc; rewrite flatten_loop_step.
  - by rewrite lookup_ge_None_2 by lia.
  - destruct (phi_list !! i) as [v|] eqn:Hv; [|done].
    rewrite (drop_S _ _ _ Hv) in Hsc. apply Forall_cons in Hsc as [Hhead Htail].
    apply lookup_lt_Some in Hv.
    destruct v; [apply IH; [lia|done]..|done].
Qed.

Lemma list_remove_skip (x : value) (pre rest : list value) :
  Forall (fun v => py_eq v x = false) pre ->
  list_remove x (pre ++ x :: rest) = pre ++ rest.
Proof.
  induction 1 as [|v pre Hv _ IH]; simpl.
  - by rewrite py_eq_refl.
  - by rewrite Hv, IH.
Qed.

(** A single sequence among values that are not sequences is flattened:
    it is taken out and its items are put at the end. *)
Lemma flatten_loop_single_sequence (pre rest items : list value) (kind : seq_kind) :
  Forall (fun v => is_sequence v = false) pre ->
  Forall (fun v => is_sequence v = false) rest ->
  Forall (fun v => is_sequence v = false) items ->
  flatten_loop (pre ++ VSeq kind items :: rest) 0 = pre ++ rest ++ items.
Proof.
  intros Hpre Hrest Hitems.
  assert (Hgo : forall n i, (length pre - i <= n)%nat -> (i <= length pre)%nat ->
            flatten_loop (pre ++ VSeq kind items :: rest) i = pre ++ rest ++ items).
  { induction n as [|n IH]; intros i Hn Hi; rewrite flatten_loop_step.
    - assert (i = length pre) as -> by lia.
      rewrite list_lookup_middle by done.
      rewrite <- app_assoc. simpl. rewrite list_remove_skip.
      + apply (flatten_loop_scalars _ (length (pre ++ rest ++ items))); [lia|].
        apply Forall_drop. by rewrite !Forall_app.
      + eapply Forall_impl; [exact Hpre|]. by intros [].
    - destruct (decide (i = length pre)) as [->|Hne].
      + rewrite list_lookup_middle by done.
        rewrite <- app_assoc. simpl. rewrite list_remove_skip.
        * apply (flatten_loop_scalars _ (length (pre ++ rest ++ items))); [lia|].
          apply Forall_drop. by rewrite !Forall_app.
        * eapply Forall_impl; [exact Hpre|]. by intros [].
      + destruct (lookup_lt_is_Some_2 pre i) as [v Hv]; [lia|].
        rewrite (lookup_app_l_Some _ _ _ _ Hv).
        rewrite Forall_forall in Hpre.
        pose proof (Hpre v (list_elem_of_lookup_2 _ _ _ Hv)) as Hsc.
        destruct v; [apply IH; lia..|done]. }
  apply (Hgo (length pre) 0%nat); lia.
Qed.

(** What [_process_names] appends for one name value. *)
Definition name_variants (v : value) : list value := name_iterations [] v.

Definition is_text (v : value) : Prop := exists s, v = VStr s.

Lemma name_iterations_app (phi_list : list value) (v : value) :
  name_iterations phi_list v = phi_list ++ name_variants v.
Proof. unfold name_variants, name_iterations. simpl. by rewrite <- !app_assoc. Qed.

Lemma name_variants_text (v : value) : Forall is_text (name_variants v).
Proof.
  unfold name_variants, name_iterations. simpl.
  repeat (apply Forall_cons; split; [by eexists|]).
  rewrite !Forall_app. repeat split; apply Forall_fmap, Forall_true; by eexists.
Qed.

Lemma is_text_not_sequence (v : value) : is_text v -> is_sequence v = false.
Proof. by intros [s ->]. Qed.

Lemma process_names_loop_prefix (is_name : list bool) (rest : list value) :
  forall i phi_list out,
    process_names_loop i rest is_name phi_list = Ok out ->
    exists extra, out = phi_list ++ extra /\ Forall is_text extra.
Proof.
  induction rest as [|v rest IH]; intros i phi_list out Hrun; simpl in Hrun.
  - injection Hrun as <-. exists []. by rewrite app_nil_r.
  - destruct (is_name !! i) as [[]|]; [| |done].
    + apply IH in Hrun as (extra & -> & Htext).
      rewrite name_iterations_app, <- app_assoc. eexists. split; [done|].
      apply Forall_app. split; [apply name_variants_text|done].
    + by apply IH in Hrun.
Qed.


Lemma process_names_loop_unflagged (is_name : list bool) (rest : list value) :
  forall i phi_list,
    (forall j, (j < length rest)%nat -> is_name !! (i + j)%nat = Some false) ->
    process_names_loop i rest is_name phi_list = Ok phi_list.
Proof.
  induction rest as [|v rest IH]; intros i phi_list Hflags; simpl; [done|].
  pose proof (Hflags 0%nat ltac:(simpl; lia)) as H0. rewrite Nat.add_0_r in H0.
  rewrite H0. apply IH. intros j Hj.
  replace (S i + j)%nat with (i + S j)%nat by lia. apply Hflags. simpl. lia.
Qed.

Lemma process_names_loop_raises (is_name : list bool) (rest : list value) :
  forall i phi_list,
    (i <= length is_name)%nat -> (length is_name < i + length rest)%nat ->
    process_names_loop i rest is_name phi_list
    = Raise (IndexError "list index out of range").
Proof.
  induction rest as [|v rest IH]; intros i phi_list Hi Hlen; simpl in *; [lia|].
  destruct (is_name !! i) as [b|] eqn:Hb; [|done].
  apply lookup_lt_Some in Hb. destruct b; apply IH; lia.
Qed.

Lemma process_names_run (text_metadata : list value) (is_name : list bool) :
  ((length text_metadata <= length is_name)%nat ->
   exists extra,
     _process_names text_metadata is_name = Ok (text_metadata ++ extra)
     /\ Forall is_text extra
     /\ ((forall i, (i < length text_metadata)%nat -> is_name !! i = Some false) ->
         extra = []))
  /\ ((length is_name < length text_metadata)%nat ->
      _process_names text_metadata is_name
      = Raise (IndexError "list index out of range")).
Proof.
  unfold _process_names. split.
  - intros Hlen.
    destruct (process_names_loop_ok is_name text_metadata 0 text_metadata)
      as [out Hrun]; [simpl; lia|].
    destruct (process_names_loop_prefix _ _ _ _ _ Hrun) as (extra & -> & Htext).
    exists extra. do 2 (split; [done|]). intros Hflags.
    rewrite process_names_loop_unflagged in Hrun by done.
    injection Hrun as Hrun. apply (f_equal length) in Hrun.
    rewrite length_app in Hrun. destruct extra; [done|simpl in Hrun; lia].
  - intros Hlen. apply process_names_loop_raises; simpl; lia.
Qed.

(** [_process_names] returns exactly when [is_name] has an entry for every
    metadata value, and otherwise ends in the [IndexError] of [is_name[i]].
    What it returns is the metadata list itself followed by text values
    only; when no value is flagged as a name, it is the metadata list
    unchanged. *)
Theorem process_names_outcome (text_metadata : list value) (is_name : list bool) :
  ((length text_metadata <= length is_name)%nat ->
   exists extra,
     _process_names text_metadata is_name = Ok (text_metadata ++ extra)
     /\ Forall is_text extra
     /\ ((forall i, (i < length text_metadata)%nat -> is_name !! i = Some false) ->
         extra = []))
  /\ ((length is_name < length text_metadata)%nat ->
      _process_names text_metadata is_name
      = Raise (IndexError "list index out of range")).
Proof. exact (process_names_run text_metadata is_name). Qed.

Lemma process_names_outcome_witness :
  ((length [VStr "Doe^Jane"; VInt 7] <= length [true; false])%nat
   /\ exists extra,
        _process_names [VStr "Doe^Jane"; VInt 7] [true; false]
        = Ok ([VStr "Doe^Jane"; VInt 7] ++ extra))
  /\ ((length [true] < length [VStr "Doe^Jane"; VInt 7])%nat
      /\ _process_names [VStr "Doe^Jane"; VInt 7] [true]
         = Raise (IndexError "list index out of range")).
Proof.
  split.
  - split; [simpl; lia|].
    destruct (proj1 (process_names_outcome [VStr "Doe^Jane"; VInt 7] [true; false]))
      as (extra & Hrun & _); [simpl; lia|]. by exists extra.
  - split; [simpl; lia|].
    apply (proj2 (process_names_outcome [VStr "Doe^Jane"; VInt 7] [true])). simpl; lia.
Defined.

(** The flattening loop never drops a value that is not a sequence. *)
Lemma flatten_loop_keeps_scalar (phi_list : list value) (i : nat) : forall v,
  is_sequence v = false -> v ∈ phi_list -> v ∈ flatten_loop phi_list i.
Proof.
  funelim (flatten_loop phi_list i); intros x Hx Hin; [eauto|eauto| |done].
  match goal with IH : forall _, _ -> _ -> _ ∈ flatten_loop _ _ |- _ => apply IH end;
    [done|].
  apply elem_of_list_remove_ne; [by destruct x|]. apply elem_of_app. by left.
Qed.

Lemma elem_of_deny_list (phi_list : list value) (v : value) :
  v ∈ phi_list -> str v ∈ list_of_set (map str phi_list).
Proof.
  intros Hin. unfold list_of_set. apply elem_of_elements, elem_of_list_to_set.
  by apply (list_elem_of_fmap_2 str).
Qed.

Lemma make_phi_list_run (original_metadata : list value) (is_name is_patient : list bool)
    (names : list value) :
  _process_names original_metadata is_name = Ok names ->
  _make_phi_list original_metadata is_name is_patient
  = Ok (list_of_set (map str (flatten_loop (_add_known_generic_phi names) 0))).
Proof. intros Hnames. unfold _make_phi_list. by rewrite Hnames. Qed.

(** Every metadata value that is not a sequence is in the deny-list, as
    its string form. *)
Theorem make_phi_list_keeps_values (original_metadata : list value)
    (is_name is_patient : list bool) (v : value) :
  (length original_metadata <= length is_name)%nat ->
  v ∈ original_metadata -> is_sequence v = false ->
  exists phi,
    _make_phi_list original_metadata is_name is_patient = Ok phi /\ str v ∈ phi.
Proof.
  intros Hlen Hin Hsc.
  destruct (proj1 (process_names_run original_metadata is_name) Hlen)
    as (extra & Hrun & _).
  rewrite (make_phi_list_run _ _ _ _ Hrun). eexists. split; [done|].
  apply elem_of_deny_list, flatten_loop_keeps_scalar; [done|].
  unfold _add_known_generic_phi. rewrite !elem_of_app. by left; left.
Qed.

Lemma make_phi_list_keeps_values_witness :
  (length [VStr "CT"; VInt 512] <= length [false; false])%nat
  /\ exists phi,
       _make_phi_list [VStr "CT"; VInt 512] [false; false] [false; false] = Ok phi
       /\ str (VInt 512) ∈ phi.
Proof.
  split; [simpl; lia|].
  apply (make_phi_list_keeps_values [VStr "CT"; VInt 512] [false; false] [false; false]);
    [simpl; lia|apply list_elem_of_further, list_elem_of_here|reflexivity].
Defined.



Lemma elem_of_list_of_set (l : list string) (s : string) : s ∈ list_of_set l <-> s ∈ l.
Proof. unfold list_of_set. by rewrite elem_of_elements, elem_of_list_to_set. Qed.

Lemma NoDup_list_of_set (l : list string) : NoDup (list_of_set l).
Proof. unfold list_of_set. apply NoDup_elements. Qed.

Lemma add_known_generic_phi_app (phi_list : list value) :
  _add_known_generic_phi phi_list = phi_list ++ map VStr sentinels.
Proof. reflexivity. Qed.

Lemma str_sentinels : map str (map VStr sentinels) = sentinels.
Proof. reflexivity. Qed.

(** On metadata without multi-valued elements the deny-list is, without
    duplicates, exactly the string forms of the metadata values and of the
    name variants, and the eight sentinels. *)
Theorem make_phi_list_without_sequences (original_metadata : list value)
    (is_name is_patient : list bool) :
  (length original_metadata <= length is_name)%nat ->
  Forall (fun v => is_sequence v = false) original_metadata ->
  exists extra phi,
    _process_names original_metadata is_name = Ok (original_metadata ++ extra)
    /\ _make_phi_list original_metadata is_name is_patient = Ok phi
    /\ NoDup phi
    /\ forall s, s ∈ phi <-> s ∈ map str (original_metadata ++ extra) \/ s ∈ sentinels.
Proof.
  intros Hlen Hsc.
  destruct (proj1 (process_names_run original_metadata is_name) Hlen)
    as (extra & Hrun & Htext & _).
  exists extra. eexists. split; [done|].
  rewrite (make_phi_list_run _ _ _ _ Hrun). split; [done|].
  split; [apply NoDup_list_of_set|]. intros s.
  rewrite elem_of_list_of_set.
  rewrite (flatten_loop_scalars _ (length (_add_known_generic_phi (original_metadata ++ extra)))).
  - rewrite add_known_generic_phi_app, map_app, str_sentinels. apply elem_of_app.
  - lia.
  - rewrite drop_0, add_known_generic_phi_app. rewrite !Forall_app. repeat split.
    + done.
    + eapply Forall_impl; [exact Htext|]. apply is_text_not_sequence.
    + by repeat constructor.
Qed.

Lemma make_phi_list_without_sequences_witness :
  ((length [VStr "CT"; VInt 512] <= length [false; false])%nat
   /\ Forall (fun v => is_sequence v = false) [VStr "CT"; VInt 512])
  /\ exists phi,
       _make_phi_list [VStr "CT"; VInt 512] [false; false] [false; false] = Ok phi
       /\ NoDup phi.
Proof.
  assert (Hsc : Forall (fun v => is_sequence v = false) [VStr "CT"; VInt 512])
    by (by repeat constructor).
  split; [split; [simpl; lia|exact Hsc]|].
  destruct (make_phi_list_without_sequences [VStr "CT"; VInt 512]
              [false; false] [false; false]) as (extra & phi & _ & Hrun & Hnd & _);
    [simpl; lia|exact Hsc|].
  exists phi. split; [exact Hrun|exact Hnd].
Defined.

(** A single multi-valued element among single-valued ones is flattened:
    the deny-list is exactly the string forms of the other values, of the
    name variants and of the items of the sequence, and the sentinels. *)
Theorem make_phi_list_single_sequence (pre post items : list value) (kind : seq_kind)
    (is_name is_patient : list bool) :
  let original_metadata := pre ++ VSeq kind items :: post in
  (length original_metadata <= length is_name)%nat ->
  Forall (fun v => is_sequence v = false) pre ->
  Forall (fun v => is_sequence v = false) post ->
  Forall (fun v => is_sequence v = false) items ->
  exists extra phi,
    _process_names original_metadata is_name = Ok (original_metadata ++ extra)
    /\ _make_phi_list original_metadata is_name is_patient = Ok phi
    /\ NoDup phi
    /\ forall s,
         s ∈ phi <->
         s ∈ map str (pre ++ post ++ extra) \/ s ∈ sentinels \/ s ∈ map str items.
Proof.
  intros original_metadata Hlen Hpre Hpost Hitems.
  destruct (proj1 (process_names_run original_metadata is_name) Hlen)
    as (extra & Hrun & Htext & _).
  exists extra. eexists. split; [done|].
  rewrite (make_phi_list_run _ _ _ _ Hrun). split; [done|].
  split; [apply NoDup_list_of_set|]. intros s.
  rewrite elem_of_list_of_set, add_known_generic_phi_app.
  unfold original_metadata. rewrite <- !app_assoc, <- app_comm_cons.
  rewrite flatten_loop_single_sequence; [|done| |done].
  - rewrite !map_app, str_sentinels, !elem_of_app. tauto.
  - rewrite !Forall_app. repeat split; [done| |by repeat constructor].
    eapply Forall_impl; [exact Htext|]. apply is_text_not_sequence.
Qed.

Lemma make_phi_list_single_sequence_witness :
  ((length ([VStr "CT"] ++ VSeq MultiValue [VStr "ORIGINAL"; VStr "PRIMARY"] :: [VInt 512])
    <= length [false; false; false])%nat
   /\ Forall (fun v => is_sequence v = false) [VStr "ORIGINAL"; VStr "PRIMARY"])
  /\ exists phi,
       _make_phi_list
         ([VStr "CT"] ++ VSeq MultiValue [VStr "ORIGINAL"; VStr "PRIMARY"] :: [VInt 512])
         [false; false; false] [false; false; false] = Ok phi
       /\ NoDup phi.
Proof.
  assert (Hitems : Forall (fun v => is_sequence v = false) [VStr "ORIGINAL"; VStr "PRIMARY"])
    by (by repeat constructor).
  split; [split; [simpl; lia|exact Hitems]|].
  destruct (make_phi_list_single_sequence [VStr "CT"] [VInt 512]
              [VStr "ORIGINAL"; VStr "PRIMARY"] MultiValue
              [false; false; false] [false; false; false])
    as (extra & phi & _ & Hrun & Hnd & _);
    [simpl; lia|by repeat constructor|by repeat constructor|exact Hitems|].
  exists phi. split; [exact Hrun|exact Hnd].
Defined.

End PhiFacts.

(** ** Box geometry: the dict of boxes and the way back from the padded raster *)

Module BboxFacts.
Import PyVal Numpy Dicom Engine.

Lemma dict_getitem_imap {A V} (f : A -> V) (l : list A) : forall k i,
  dict_getitem (imap (fun j x => (str_nat (k + j), f x)) l) (str_nat i)
  = if decide (k <= i)%nat then f <$> l !! (i - k)%nat else None.
Proof.
  induction l as [|x l IH]; intros k i; simpl.
  - by destruct (decide _).
  - rewrite Nat.add_0_r.
    destruct (String.eqb_spec (str_nat k) (str_nat i)) as [Heq|Hne].
    + apply (inj pretty) in Heq as ->.
      rewrite decide_True by lia. by rewrite Nat.sub_diag.
    + assert (k <> i) by (by intros ->).
      rewrite (imap_ext _ (fun j y => (str_nat (S k + j), f y)))
        by (intros j y _; simpl; by rewrite Nat.add_succ_r).
      rewrite IH. destruct (decide (k <= i)%nat), (decide (S k <= i)%nat); try lia.
      * replace (i - k)%nat with (S (i - S k)) by lia. done.
      * done.
Qed.

(** [_get_bboxes_from_analyzer_results] builds a dict with one entry per
    result: under the key [str(i)] it holds the box of the [i]-th result,
    under any other position-key nothing, and the keys are distinct. *)
Theorem get_bboxes_lookup (analyzer_results : list AnalyzerResult) (i : nat) :
  let bboxes_dict := _get_bboxes_from_analyzer_results analyzer_results in
  dict_getitem bboxes_dict (str_nat i) = to_bbox_info <$> analyzer_results !! i
  /\ length bboxes_dict = length analyzer_results
  /\ NoDup (dict_keys bboxes_dict).
Proof.
  simpl. rewrite get_bboxes_spec. split; [|split].
  - change (imap (fun j r => (str_nat j, to_bbox_info r)) analyzer_results)
      with (imap (fun j r => (str_nat (0 + j), to_bbox_info r)) analyzer_results).
    rewrite dict_getitem_imap, decide_True by lia. by rewrite Nat.sub_0_r.
  - apply length_imap.
  - apply keys_imap_NoDup.
Qed.

(** A detection, as a rectangle in the coordinates of the padded raster. *)
Definition detected (result : AnalyzerResult) : Rectangle :=
  {| r_top := top result; r_left := left result;
     r_width := width result; r_height := height result |}.

Lemma covered_reconciled (results : list AnalyzerResult) (w : Z) (r c : nat) :
  0 <= w ->
  covered (map detected results) (r + Z.to_nat w) (c + Z.to_nat w) = true ->
  covered (map (reconciled w) results) r c = true.
Proof.
  intros Hw. unfold covered. rewrite !existsb_exists.
  intros (b & Hb & Hcov). apply in_map_iff in Hb as (d & <- & Hd).
  exists (reconciled w d). split; [by apply in_map|].
  simpl in *. rewrite !andb_true_iff, !Z.leb_le, !Z.ltb_lt in Hcov |- *. lia.
Qed.

Lemma covered_reconciled_inside (results : list AnalyzerResult) (w : Z) (r c : nat) :
  0 <= w ->
  Forall (fun d => w <= top d /\ w <= left d) results ->
  covered (map (reconciled w) results) r c
  = covered (map detected results) (r + Z.to_nat w) (c + Z.to_nat w).
Proof.
  intros Hw. unfold covered. induction 1 as [|d results [Ht Hl] _ IH]; simpl; [done|].
  rewrite IH. f_equal. apply eq_true_iff_eq.
  rewrite !andb_true_iff, !Z.leb_le, !Z.ltb_lt. lia.
Qed.

Lemma reconciled_rectangle_ok (results : list AnalyzerResult) (w : Z) :
  0 <= w ->
  Forall (fun d => 0 <= width d /\ 0 <= height d) results ->
  Forall rectangle_ok (map (reconciled w) results).
Proof.
  intros Hw Hext. apply Forall_forall. intros b Hb%list_elem_of_In.
  apply in_map_iff in Hb as (d & <- & Hd%list_elem_of_In).
  rewrite Forall_forall in Hext. specialize (Hext d Hd).
  unfold rectangle_ok. simpl. lia.
Qed.

(** For a non-negative padding width the rectangles of [_format_bboxes]
    have a non-negative origin, and are rectangles of non-negative integers
    when the detections have non-negative extents.  They cover every cell
    of the unpadded raster whose counterpart at offset [(w, w)] in the
    padded raster lies in a detection, and exactly those cells when every
    detection starts inside the pasted original. *)
Theorem format_bboxes_covers (analyzer_results : list AnalyzerResult) (w : Z)
    (bboxes : list Rectangle) :
  0 <= w ->
  _format_bboxes analyzer_results w = Ok bboxes ->
  Forall (fun bbox => 0 <= r_top bbox /\ 0 <= r_left bbox) bboxes
  /\ (Forall (fun d => 0 <= width d /\ 0 <= height d) analyzer_results ->
      Forall rectangle_ok bboxes)
  /\ (forall r c,
        covered (map detected analyzer_results) (r + Z.to_nat w) (c + Z.to_nat w) = true ->
        covered bboxes r c = true)
  /\ (Forall (fun d => w <= top d /\ w <= left d) analyzer_results ->
      forall r c,
        covered bboxes r c
        = covered (map detected analyzer_results) (r + Z.to_nat w) (c + Z.to_nat w)).
Proof.
  intros Hw Hrun. rewrite format_bboxes_ok in Hrun by done. injection Hrun as <-.
  split; [|split; [|split]].
  - apply Forall_forall. intros b Hb%list_elem_of_In.
    apply in_map_iff in Hb as (d & <- & _). simpl. lia.
  - intros Hext. by apply reconciled_rectangle_ok.
  - intros r c. by apply covered_reconciled.
  - intros Hin r c. by apply covered_reconciled_inside.
Qed.

Lemma format_bboxes_covers_witness :
  (0 <= 10 /\ _format_bboxes [sample_result] 10 = Ok [reconciled 10 sample_result])
  /\ Forall (fun bbox => 0 <= r_top bbox /\ 0 <= r_left bbox) [reconciled 10 sample_result]
  /\ covered [reconciled 10 sample_result] 3 25 = true.
Proof.
  assert (Hrun : _format_bboxes [sample_result] 10 = Ok [reconciled 10 sample_result])
    by (vm_compute; reflexivity).
  split; [split; [lia|exact Hrun]|].
  destruct (format_bboxes_covers [sample_result] 10 _ ltac:(lia) Hrun)
    as (Horigin & _ & Hcov & _).
  split; [exact Horigin|]. apply Hcov. vm_compute. reflexivity.
Defined.

Section Pipeline.

Variable apply_voi_lut : ndarray -> list DataElement -> nd Float64.float.

(** Reconciliation followed by redaction never misses a detected pixel: on
    a grayscale instance, after [_format_bboxes] and [_add_redact_box],
    every pixel of the buffer whose counterpart in the padded raster lies
    in a detection holds the mask colour. *)
Theorem redaction_covers_detections (h : heap) (instance : loc) (ds : FileDataset)
    (dt : dtype) (rows : list (list Z)) (analyzer_results : list AnalyzerResult)
    (w : Z) (setting : string) (v : Z) :
  h !! instance = Some (ODataset ds) ->
  h !! ds_pixel_array ds = Some (OArray {| arr_dtype := dt; arr_data := Arr2 rows |}) ->
  _get_most_common_pixel_value
    {| elements := ds_elements ds;
       pixel_array := {| arr_dtype := dt; arr_data := Arr2 rows |} |} setting = Ok v ->
  0 <= w ->
  Forall (fun d => 0 <= width d /\ 0 <= height d) analyzer_results ->
  exists bboxes out h' ds' rows',
    _format_bboxes analyzer_results w = Ok bboxes
    /\ _add_redact_box apply_voi_lut instance bboxes setting h = (Ok out, h')
    /\ h' !! out = Some (ODataset ds')
    /\ h' !! ds_pixel_array ds' = Some (OArray {| arr_dtype := dt; arr_data := Arr2 rows' |})
    /\ forall r c p,
         rows !! r ≫= (.!! c) = Some p ->
         covered (map detected analyzer_results) (r + Z.to_nat w) (c + Z.to_nat w) = true ->
         rows' !! r ≫= (.!! c) = Some v.
Proof.
  intros Hl Ha Hv Hw Hext.
  pose proof (format_bboxes_ok analyzer_results w Hw) as Hfmt.
  pose proof (reconciled_rectangle_ok analyzer_results w Hw) as Hok.
  pose proof (fun r c => covered_reconciled analyzer_results w r c Hw) as Hcov.
  destruct (add_redact_box_writes apply_voi_lut h instance ds dt rows _ setting v
              Hl Ha Hv (Hok Hext))
    as (out & h' & ds' & rows' & Hrun & Hout & Harr & _ & _ & _ & _ & Hpix).
  eexists _, out, h', ds', rows'. do 4 (split; [done|]).
  intros r c p Hp Hdet. rewrite Hpix, Hp. simpl. by rewrite (Hcov r c Hdet).
Qed.

End Pipeline.

Lemma redaction_covers_detections_witness :
  (sample_heap !! 1%positive
   = Some (ODataset {| ds_elements := [photometric "MONOCHROME2"];
                       ds_pixel_array := 2%positive;
                       ds_PixelData := [0; 0; 0; 0; 5; 0] |})
   /\ 0 <= 30)
  /\ exists bboxes out h',
       _format_bboxes [sample_result] 30 = Ok bboxes
       /\ _add_redact_box no_voi_lut 1%positive bboxes "contrast" sample_heap = (Ok out, h').
Proof.
  split; [split; [reflexivity|lia]|].
  destruct (redaction_covers_detections no_voi_lut sample_heap 1%positive
              {| ds_elements := [photometric "MONOCHROME2"];
                 ds_pixel_array := 2%positive;
                 ds_PixelData := [0; 0; 0; 0; 5; 0] |}
              uint8 [[0; 0; 0]; [0; 5; 0]] [sample_result] 30 "contrast" 5)
    as (bboxes & out & h' & ds' & rows' & Hfmt & Hrun & _).
  - reflexivity.
  - reflexivity.
  - reflexivity.
  - lia.
  - repeat constructor; simpl; lia.
  - by exists bboxes, out, h'.
Defined.

End BboxFacts.

(** ** The most common value *)

Module ModeFacts.
Import Numpy.

(** [m] is the most common value of [data], the smallest one if several
    values are equally common. *)
Definition is_mode (m : Z) (data : list Z) : Prop :=
  m ∈ data
  /\ forall v, (count v data <= count m data)%nat
       /\ (v ∈ data -> count v data = count m data -> m <= v).

Lemma count_pos (v : Z) (l : list Z) : (0 < count v l)%nat <-> v ∈ l.
Proof.
  unfold count. induction l as [|x l IH]; simpl.
  - split; [lia|by intros ?%elem_of_nil].
  - rewrite filter_cons. destruct (decide (x = v)) as [->|Hne]; simpl.
    + split; [by left|lia].
    + rewrite IH, elem_of_cons. split; [by right|]. by intros [->|].
Qed.

Lemma argmax_from_spec (suf : list nat) : forall pre best_i best,
  (pre ++ suf) !! best_i = Some best ->
  (best_i < length pre)%nat ->
  (forall j c, (j < length pre)%nat -> (pre ++ suf) !! j = Some c ->
     (c <= best)%nat /\ (c = best -> (best_i <= j)%nat)) ->
  exists ck,
    (pre ++ suf) !! argmax_from (length pre) best_i best suf = Some ck
    /\ forall j c, (pre ++ suf) !! j = Some c ->
         (c <= ck)%nat /\ (c = ck -> (argmax_from (length pre) best_i best suf <= j)%nat).
Proof.
  induction suf as [|c0 suf IH]; intros pre best_i best Hbest Hlt Hinv; simpl.
  - exists best. split; [done|]. intros j c Hj. apply Hinv; [|done].
    apply lookup_lt_Some in Hj. by rewrite app_nil_r in Hj.
  - assert (Hc0 : (pre ++ c0 :: suf) !! length pre = Some c0)
      by (by rewrite list_lookup_middle).
    replace (pre ++ c0 :: suf) with ((pre ++ [c0]) ++ suf) in *
      by (by rewrite <- app_assoc).
    replace (S (length pre)) with (length (pre ++ [c0]))
      by (rewrite length_app; simpl; lia).
    destruct (Nat.ltb_spec best c0) as [Hnew|Hold].
    + replace (length pre) with (length (pre ++ [c0]) - 1)%nat at 2
        by (rewrite length_app; simpl; lia).
      replace (length (pre ++ [c0]) - 1)%nat with (length pre)
        by (rewrite length_app; simpl; lia).
      apply IH; [done|rewrite length_app; simpl; lia|].
      intros j c Hj Hc. rewrite length_app in Hj. simpl in Hj.
      destruct (decide (j = length pre)) as [->|Hne].
      * rewrite Hc0 in Hc. injection Hc as ->. lia.
      * destruct (Hinv j c ltac:(lia) Hc). lia.
    + apply IH; [done|rewrite length_app; simpl; lia|].
      intros j c Hj Hc. rewrite length_app in Hj. simpl in Hj.
      destruct (decide (j = length pre)) as [->|Hne].
      * rewrite Hc0 in Hc. injection Hc as ->. lia.
      * apply Hinv; [lia|done].
Qed.

(** [np.argmax]: the position of an entry that no entry exceeds, and the
    first such position. *)
Lemma argmax_spec (counts : list nat) (i : nat) :
  argmax counts = Ok i ->
  exists ci, counts !! i = Some ci
    /\ forall j c, counts !! j = Some c -> (c <= ci)%nat /\ (c = ci -> (i <= j)%nat).
Proof.
  destruct counts as [|c counts]; [done|]. simpl. intros [= <-].
  apply (argmax_from_spec counts [c] 0%nat c); [done|simpl; lia|].
  intros [|j] c' Hj Hc'; simpl in *; [|lia]. injection Hc' as ->. lia.
Qed.

Lemma foldl_max_ge (l : list Z) : forall x v, v ∈ x :: l -> v <= foldl Z.max x l.
Proof.
  induction l as [|y l IH]; intros x v Hv; simpl.
  - apply list_elem_of_singleton in Hv as ->. lia.
  - apply elem_of_cons in Hv as [->|Hv].
    + etransitivity; [|apply (IH (Z.max x y)); by left]. lia.
    + apply elem_of_cons in Hv as [->|Hv].
      * etransitivity; [|apply (IH (Z.max x y)); by left]. lia.
      * apply IH. by right.
Qed.

Lemma foldl_max_elem (l : list Z) : forall x, foldl Z.max x l ∈ x :: l.
Proof.
  induction l as [|y l IH]; intros x; simpl; [by left|].
  specialize (IH (Z.max x y)). apply elem_of_cons in IH as [Heq|Hin].
  - rewrite Heq. destruct (Z.max_spec x y) as [[_ ->]|[_ ->]]; [right; by left|by left].
  - by do 2 right.
Qed.

(** The first most-frequent entry of a histogram indexed by value is the
    mode. *)
Lemma bincount_argmax_mode (data : list Z) (counts : list nat) (i : nat) :
  data <> [] ->
  bincount data = Ok counts -> argmax counts = Ok i ->
  is_mode (Z.of_nat i) data.
Proof.
  intros Hne Hcounts Hi. unfold bincount in Hcounts.
  destruct (forallb (fun v => 0 <=? v) data) eqn:Hpos; [|done].
  rewrite forallb_forall in Hpos.
  destruct data as [|x data]; [done|].
  assert (counts = map (fun k => count (Z.of_nat k) (x :: data))
                     (seq 0 (S (Z.to_nat (foldl Z.max x data))))) as -> by congruence.
  clear Hcounts. set (l := x :: data) in *. set (top := foldl Z.max x data) in *.
  apply argmax_spec in Hi as (ci & Hci & Hmax).
  assert (Hget : forall k, (k <= Z.to_nat top)%nat ->
            map (fun k => count (Z.of_nat k) l) (seq 0 (S (Z.to_nat top))) !! k
            = Some (count (Z.of_nat k) l)).
  { intros k Hk. change (map ?f ?l') with (f <$> l').
    by rewrite list_lookup_fmap, lookup_seq_lt by lia. }
  assert (Hi_le : (i <= Z.to_nat top)%nat).
  { apply lookup_lt_Some in Hci. rewrite List.length_map, length_seq in Hci. lia. }
  rewrite Hget in Hci by done. injection Hci as <-.
  assert (Hidx : forall v, v ∈ l -> 0 <= v /\ (Z.to_nat v <= Z.to_nat top)%nat).
  { intros v Hv. pose proof (foldl_max_ge data x v Hv).
    pose proof (Hpos v (proj1 (list_elem_of_In _ _) Hv)) as Hv0%Z.leb_le.
    fold top in H. lia. }
  assert (Hle : forall v, (count v l <= count (Z.of_nat i) l)%nat
                 /\ (v ∈ l -> count v l = count (Z.of_nat i) l -> Z.of_nat i <= v)).
  { intros v. destruct (decide (v ∈ l)) as [Hv|Hv].
    - destruct (Hidx v Hv) as [Hv0 Hvtop].
      destruct (Hmax (Z.to_nat v) (count v l)) as [Hc Htie].
      { rewrite Hget by done. by rewrite Z2Nat.id. }
      split; [done|]. intros _ Heq. specialize (Htie Heq). lia.
    - split; [|done]. destruct (count_pos v l) as [Hcp _].
      destruct (count v l); [lia|]. exfalso. apply Hv, Hcp. lia. }
  split; [|done]. apply count_pos.
  destruct (Hle x) as [Hx _]. pose proof (proj2 (count_pos x l) ltac:(by left)). lia.
Qed.

(** The first most-frequent entry of the sorted distinct values is the
    mode. *)
Lemma unique_argmax_mode (data : list Z) (i : nat) (m : Z) :
  argmax (snd (unique_counts data)) = Ok i ->
  fst (unique_counts data) !! i = Some m ->
  is_mode m data.
Proof.
  unfold unique_counts. simpl. set (values := merge_sort Z.le (remove_dups data)).
  intros Hi Hm. apply argmax_spec in Hi as (ci & Hci & Hmax).
  change (map ?f ?l') with (f <$> l') in *.
  rewrite list_lookup_fmap, Hm in Hci. injection Hci as <-.
  assert (Hvals : forall v, v ∈ values <-> v ∈ data).
  { intros v. unfold values. by rewrite merge_sort_Permutation, elem_of_remove_dups. }
  assert (Hsorted : StronglySorted Z.le values).
  { apply StronglySorted_merge_sort; apply _. }
  assert (Hmono : forall j u, values !! j = Some u -> (i <= j)%nat -> m <= u).
  { intros j u Hu Hij. destruct (decide (i = j)) as [->|Hne].
    { rewrite Hm in Hu. injection Hu as ->. lia. }
    apply lookup_lt_Some in Hu as Hj.
    rewrite <- (take_drop_middle values i m Hm) in Hsorted, Hu.
    apply StronglySorted_app_1_r, StronglySorted_cons in Hsorted as [Hall _].
    rewrite Forall_forall in Hall. apply Hall.
    rewrite lookup_app_r in Hu by (rewrite length_take; lia).
    rewrite length_take, Nat.min_l in Hu by (apply lookup_lt_Some in Hm; lia).
    destruct (j - i)%nat as [|k] eqn:Hk; [lia|]. simpl in Hu.
    by apply list_elem_of_lookup_2 in Hu. }
  split; [apply Hvals; by apply list_elem_of_lookup_2 in Hm|].
  intros v. destruct (decide (v ∈ data)) as [Hv|Hv].
  - apply Hvals, list_elem_of_lookup in Hv as [j Hj].
    destruct (Hmax j (count v data)) as [Hc Htie].
    { by rewrite list_lookup_fmap, Hj. }
    split; [done|]. intros _ Heq. apply (Hmono j v Hj). by apply Htie.
  - split; [|done]. destruct (count_pos v data) as [Hcp _].
    destruct (count v data); [lia|]. exfalso. apply Hv, Hcp. lia.
Qed.

End ModeFacts.

(** ** Colour selection on rasters and the border of the padding *)

Module RasterFacts.
Import Numpy PIL Raster ModeFacts.

(** On a valid grayscale raster [_get_bg_color] returns the most common
    pixel value, the smallest one if several are equally common. *)
Theorem get_bg_color_is_mode (image : Image) :
  valid_raster image true ->
  exists data m,
    as_ints (getdata image) = Ok data
    /\ _get_bg_color image true false = Ok (CInt m)
    /\ is_mode m data.
Proof.
  intros (Hwf & Hw & Hh & Hgrey).
  destruct (as_ints_ok (getdata image)) as (data & Hdata & Hlen & Hpos).
  { unfold getdata. apply Forall_concat. by apply Hgrey. }
  assert (Hne : data <> []).
  { destruct (well_formed_lookup image 0 0 Hwf Hw Hh) as (row & c & Hrow & Hc).
    intros ->. simpl in Hlen. unfold getdata in Hlen.
    destruct (im_data image) as [|row' rows]; [done|].
    simplify_eq/=. by destruct row. }
  destruct (bincount_argmax_ok data Hne Hpos) as (counts & i & Hcounts & Hi).
  exists data, (Z.of_nat i). split; [done|]. split.
  - unfold _get_bg_color. simpl. rewrite Hdata. simpl. rewrite Hcounts. simpl.
    by rewrite Hi.
  - by apply (bincount_argmax_mode data counts i).
Qed.

Lemma get_bg_color_is_mode_witness :
  valid_raster checkerboard true
  /\ exists data m,
       as_ints (getdata checkerboard) = Ok data
       /\ _get_bg_color checkerboard true false = Ok (CInt m)
       /\ is_mode m data.
Proof.
  assert (Hvalid : valid_raster checkerboard true).
  { unfold valid_raster, well_formed, im_width, im_height. simpl.
    repeat split; try lia.
    - repeat constructor.
    - intros _. repeat constructor; eexists; (split; [reflexivity|lia]). }
  split; [exact Hvalid|]. exact (get_bg_color_is_mode checkerboard Hvalid).
Defined.

(** The border that [_add_padding] adds has the colour that
    [_get_bg_color] selects: every pixel of the padded image outside the
    pasted original holds it, and the mode of the image is kept. *)
Theorem add_padding_border (image : Image) (is_greyscale : bool) (w : Z) :
  0 < w < 100 ->
  valid_raster image is_greyscale ->
  exists padded border_color,
    _add_padding image is_greyscale w = Ok padded
    /\ _get_bg_color image is_greyscale false = Ok border_color
    /\ im_mode padded = im_mode image
    /\ forall x y,
         (x < im_width padded)%nat -> (y < im_height padded)%nat ->
         ~ (Z.to_nat w <= x < Z.to_nat w + im_width image
            /\ Z.to_nat w <= y < Z.to_nat w + im_height image)%nat ->
         getpixel padded (x, y) = Ok border_color.
Proof.
  intros Hw Hvalid.
  destruct (get_bg_color_ok image is_greyscale Hvalid) as [border_color Hbg].
  destruct Hvalid as (Hwf & Hwidth & Hheight & _).
  destruct image as [m [width height] data].
  destruct Hwf as [Hrows Hcols].
  unfold im_width, im_height in *. simpl in *.
  unfold _add_padding.
  destruct (Z.leb_spec w 0) as [?|_]; [lia|].
  destruct (Z.geb_spec w 100) as [?|_]; [lia|].
  rewrite Hbg. simpl.
  destruct (Z.ltb_spec (Z.of_nat width + w + w) 0) as [?|_]; [lia|].
  destruct (Z.ltb_spec (Z.of_nat height + w + w) 0) as [?|_]; [lia|].
  simpl. eexists _, border_color. split; [reflexivity|]. split; [done|].
  split; [done|]. intros x y Hx Hy Hout. simpl in Hx, Hy.
  unfold getpixel. cbn [fst snd]. rewrite paste_lookup. simpl.
  rewrite lookup_replicate_2 by lia. simpl.
  rewrite lookup_replicate_2 by lia. simpl.
  destruct (Z.leb_spec 0 (Z.of_nat y - w)) as [Hy0|_]; simpl; [|done].
  destruct (Z.leb_spec 0 (Z.of_nat x - w)) as [Hx0|_]; simpl; [|done].
  destruct (data !! Z.to_nat (Z.of_nat y - w)) as [row|] eqn:Hrow; simpl; [|done].
  destruct (row !! Z.to_nat (Z.of_nat x - w)) as [c|] eqn:Hc; simpl; [|done].
  exfalso. apply Hout.
  pose proof (lookup_lt_Some _ _ _ Hrow) as Hylt.
  pose proof (lookup_lt_Some _ _ _ Hc) as Hxlt.
  rewrite Forall_forall in Hcols.
  rewrite (Hcols row (list_elem_of_lookup_2 _ _ _ Hrow)) in Hxlt. lia.
Qed.

Lemma add_padding_border_witness :
  0 < 2 < 100
  /\ exists padded border_color,
       _add_padding checkerboard true 2 = Ok padded
       /\ _get_bg_color checkerboard true false = Ok border_color
       /\ im_mode padded = im_mode checkerboard.
Proof.
  split; [lia|].
  destruct (add_padding_border checkerboard true 2)
    as (padded & border_color & Hrun & Hbg & Hmode & _).
  - lia.
  - unfold valid_raster, well_formed, im_width, im_height. simpl.
    repeat split; try lia.
    + repeat constructor.
    + intros _. repeat constructor; eexists; (split; [reflexivity|lia]).
  - by exists padded, border_color.
Defined.

Example add_padding_border_ex :
  match _add_padding checkerboard true 2 with
  | Ok padded => getpixel padded (1, 3)%nat = Ok (CInt 0)
                 /\ getpixel padded (3, 2)%nat = Ok (CInt 255)
  | Raise _ => False
  end.
Proof. vm_compute. done. Qed.

End RasterFacts.

(** ** Colour selection and normalisation on DICOM instances *)

Module EngineFacts.
Import PyVal Numpy Dicom Engine ModeFacts.

Lemma background_not_contrast (s : string) :
  str_in s background_names = true -> str_in s contrast_names = false.
Proof.
  intros Hbg. unfold str_in in *. simpl in Hbg.
  rewrite !orb_true_iff, !String.eqb_eq in Hbg.
  destruct Hbg as [->|[->|?]]; done.
Qed.

(** On a grayscale instance with a non-empty buffer, the selection with a
    background setting returns the most common pixel value [m] (the
    smallest in a tie), and with a contrast setting it returns
    [max - m] in the element type of the buffer, where [max] is the largest
    pixel value.  For an unsigned element type that holds every pixel, the
    contrast colour is [max - m] itself and lies between 0 and [max]. *)
Theorem most_common_pixel_value_spec (instance : Instance) (setting : string) :
  let flat := flatten (arr_data (pixel_array instance)) in
  let dt := arr_dtype (pixel_array instance) in
  _check_if_greyscale instance = Ok true ->
  flat <> [] ->
  exists m top,
    is_mode m flat
    /\ top ∈ flat /\ (forall v, v ∈ flat -> v <= top)
    /\ (str_in (PyStr.lower setting) background_names = true ->
        _get_most_common_pixel_value instance setting = Ok m)
    /\ (str_in (PyStr.lower setting) contrast_names = true ->
        _get_most_common_pixel_value instance setting = Ok (wrap dt (top - m)))
    /\ (signed dt = false -> Forall (fun v => 0 <= v < 2 ^ bits dt) flat ->
        wrap dt (top - m) = top - m /\ 0 <= top - m <= top).
Proof.
  intros flat dt Hgrey Hne.
  destruct (unique_counts_lengths flat) as [Hlen Hvals]. specialize (Hvals Hne).
  destruct (argmax (snd (unique_counts flat))) as [i|e] eqn:Hi.
  2:{ unfold argmax in Hi. destruct (snd (unique_counts flat)); [|done].
      by destruct (fst (unique_counts flat)). }
  assert (Hilt : (i < length (fst (unique_counts flat)))%nat).
  { rewrite <- Hlen. unfold argmax in Hi.
    destruct (snd (unique_counts flat)) as [|c counts]; [done|]. injection Hi as <-.
    pose proof (argmax_from_lt counts 1 0 c ltac:(lia)). simpl. lia. }
  destruct (lookup_lt_is_Some_2 _ _ Hilt) as [m Hm].
  pose proof (unique_argmax_mode flat i m Hi Hm) as Hmode.
  destruct flat as [|x rest] eqn:Hflat; [done|].
  set (top := foldl Z.max x rest).
  assert (Htop : forall v, v ∈ x :: rest -> v <= top) by apply foldl_max_ge.
  assert (Htop_in : top ∈ x :: rest) by apply foldl_max_elem.
  exists m, top. do 3 (split; [done|]).
  assert (Hrun : forall is_contrast is_background : bool,
    (common_value ← (i ← argmax (snd (unique_counts (x :: rest)));
                     match fst (unique_counts (x :: rest)) !! i with
                     | Some v => Ok v
                     | None => Raise (IndexError "index out of bounds")
                     end);
     if is_contrast then maximum ← amax (x :: rest);
                         Ok (wrap dt (maximum - common_value))
     else if is_background then Ok common_value
          else Raise (UnboundLocalError "pixel_value"))
    = if is_contrast then Ok (wrap dt (top - m))
      else if is_background then Ok m else Raise (UnboundLocalError "pixel_value")).
  { intros is_contrast is_background. unfold mbind, res_mbind, res_bind.
    rewrite Hi, Hm. by destruct is_contrast. }
  split; [|split].
  - intros Hbg. unfold _get_most_common_pixel_value.
    rewrite (read_pixel_array_checked _ _ Hgrey). unfold mbind at 1, res_mbind at 1.
    cbn [res_bind]. rewrite Hgrey. fold flat.
    rewrite Hflat. fold dt.
    rewrite (background_not_contrast _ Hbg), Hbg.
    apply (Hrun false true).
  - intros Hct. unfold _get_most_common_pixel_value.
    rewrite (read_pixel_array_checked _ _ Hgrey). unfold mbind at 1, res_mbind at 1.
    cbn [res_bind]. rewrite Hgrey. fold flat.
    rewrite Hflat. fold dt. rewrite Hct.
    apply (Hrun true (str_in (PyStr.lower setting) background_names)).
  - intros Hunsigned Hrange. destruct Hmode as [Hm_in _].
    rewrite Forall_forall in Hrange.
    pose proof (Hrange m Hm_in). pose proof (Hrange top Htop_in).
    pose proof (Htop m Hm_in).
    unfold wrap. rewrite Hunsigned. rewrite Z.mod_small by lia. lia.
Qed.

Lemma most_common_pixel_value_spec_witness :
  (_check_if_greyscale (monochrome uint8 [[0; 0; 255]; [0; 7; 0]]) = Ok true
   /\ flatten (arr_data (pixel_array (monochrome uint8 [[0; 0; 255]; [0; 7; 0]]))) <> [])
  /\ exists m top,
       is_mode m [0; 0; 255; 0; 7; 0]
       /\ _get_most_common_pixel_value (monochrome uint8 [[0; 0; 255]; [0; 7; 0]]) "bg" = Ok m
       /\ wrap uint8 (top - m) = top - m.
Proof.
  split; [split; [reflexivity|discriminate]|].
  destruct (most_common_pixel_value_spec (monochrome uint8 [[0; 0; 255]; [0; 7; 0]]) "bg")
    as (m & top & Hmode & _ & _ & Hbg & _ & Hrange); [reflexivity|discriminate|].
  exists m, top. split; [exact Hmode|]. split; [apply Hbg; reflexivity|].
  apply Hrange; [reflexivity|]. repeat constructor; simpl; lia.
Defined.

Example contrast_colour_can_equal_background :
  _get_most_common_pixel_value (monochrome uint8 [[100; 100; 200]]) "contrast" = Ok 100
  /\ _get_most_common_pixel_value (monochrome uint8 [[100; 100; 200]]) "background" = Ok 100.
Proof. split; reflexivity. Qed.

Section WithVoiLut.

Variable apply_voi_lut : ndarray -> list DataElement -> nd Float64.float.

(** The box-colour setting is read without regard to case, and the
    synonyms of a setting select the same colour: two settings that both
    name contrast, or both name background, give the same result in the
    grayscale selection, in the raster selection and in the selection of
    [_add_redact_box]. *)
Theorem box_color_setting_synonyms (instance : Instance) (s s' : string) :
  (str_in (PyStr.lower s) contrast_names = true
   /\ str_in (PyStr.lower s') contrast_names = true)
  \/ (str_in (PyStr.lower s) background_names = true
      /\ str_in (PyStr.lower s') background_names = true) ->
  _get_most_common_pixel_value instance s = _get_most_common_pixel_value instance s'
  /\ _set_bbox_color apply_voi_lut instance s = _set_bbox_color apply_voi_lut instance s'
  /\ select_box_color apply_voi_lut instance s = select_box_color apply_voi_lut instance s'.
Proof.
  intros Hsame.
  assert (Hc : str_in (PyStr.lower s) contrast_names
               = str_in (PyStr.lower s') contrast_names).
  { destruct Hsame as [[-> ->]|[H1 H2]]; [done|].
    by rewrite !background_not_contrast. }
  assert (Hb : str_in (PyStr.lower s) contrast_names = false ->
               str_in (PyStr.lower s) background_names
               = str_in (PyStr.lower s') background_names).
  { destruct Hsame as [[-> _]|[-> ->]]; done. }
  assert (H1 : _get_most_common_pixel_value instance s
               = _get_most_common_pixel_value instance s').
  { unfold _get_most_common_pixel_value. rewrite <- Hc.
    destruct (str_in (PyStr.lower s) contrast_names); [done|]. by rewrite Hb. }
  assert (H2 : _set_bbox_color apply_voi_lut instance s
               = _set_bbox_color apply_voi_lut instance s').
  { unfold _set_bbox_color. rewrite <- Hc.
    destruct (str_in (PyStr.lower s) contrast_names); [done|]. by rewrite Hb. }
  split; [done|]. split; [done|].
  unfold select_box_color. by rewrite H1, H2.
Qed.

Lemma Forall_flatten_nd_map {A B} (P : B -> Prop) (f : A -> B) (a : nd A) :
  (forall x, P (f x)) -> Forall P (flatten (nd_map f a)).
Proof.
  intros Hf. rewrite flatten_nd_map. apply Forall_forall.
  intros y Hy%list_elem_of_In. apply in_map_iff in Hy as (x & <- & _). apply Hf.
Qed.

(** For an instance whose pixel array can be read, without windowing and
    with at least one pixel, [_rescale_dcm_pixel_array] returns, on the
    grayscale and on the colour path, an 8-bit array of the shape of the
    pixel array with every value in [0, 255]. *)
Theorem rescale_outcome (instance : Instance) (is_greyscale : bool) :
  read_pixel_array instance = Ok (pixel_array instance) ->
  contains instance WindowWidth = false ->
  flatten (arr_data (pixel_array instance)) <> [] ->
  exists out,
    _rescale_dcm_pixel_array apply_voi_lut instance is_greyscale = Ok out
    /\ arr_dtype out = uint8
    /\ shape (arr_data out) = shape (arr_data (pixel_array instance))
    /\ Forall (fun y => 0 <= y <= 255) (flatten (arr_data out)).
Proof.
  intros _ Hno Hne. unfold _rescale_dcm_pixel_array, image_2d_float. rewrite Hno.
  destruct is_greyscale; simpl.
  - rewrite flatten_nd_map.
    destruct (flatten (arr_data (pixel_array instance))) as [|x l]; [done|]. simpl.
    eexists. split; [reflexivity|]. split; [done|]. simpl.
    split; [by rewrite !shape_nd_map|].
    apply Forall_flatten_nd_map, Float64.to_uint8_range.
  - eexists. split; [reflexivity|]. split; [done|]. simpl.
    split; [by rewrite !shape_nd_map|].
    apply Forall_flatten_nd_map, Float64.to_uint8_range.
Qed.

Lemma uint8_of_Z_table :
  forallb (fun k => Float64.to_uint8 (Float64.of_Z (Z.of_nat k)) =? Z.of_nat k)
          (seq 0 256) = true.
Proof. vm_compute. reflexivity. Qed.

(** The conversion to [float] and back to 8 bits gives back every value
    of [0 .. 255]. *)
Lemma uint8_of_Z (v : Z) : 0 <= v <= 255 -> Float64.to_uint8 (Float64.of_Z v) = v.
Proof.
  intros Hv. pose proof uint8_of_Z_table as Htable.
  rewrite forallb_forall in Htable.
  specialize (Htable (Z.to_nat v)). rewrite Z2Nat.id in Htable by lia.
  apply Z.eqb_eq, Htable, in_seq. lia.
Qed.

Lemma nd_map_id (f : Z -> Z) (a : nd Z) :
  Forall (fun v => f v = v) (flatten a) -> nd_map f a = a.
Proof.
  destruct a as [rows|rows]; simpl; intros Hall; f_equal.
  - induction rows as [|row rows IH]; simpl in *; [done|].
    apply Forall_app in Hall as [Hrow Hrest]. rewrite IH by done. f_equal.
    induction Hrow as [|v row Hv _ IHrow]; simpl; [done|]. by rewrite Hv, IHrow.
  - induction rows as [|row rows IH]; simpl in *; [done|].
    apply Forall_app in Hall as [Hrow Hrest]. rewrite IH by done. f_equal.
    induction row as [|cell row IHrow]; simpl in *; [done|].
    apply Forall_app in Hrow as [Hcell Hrow]. rewrite IHrow by done. f_equal.
    induction Hcell as [|v cell Hv _ IHcell]; simpl; [done|]. by rewrite Hv, IHcell.
Qed.

Lemma nd_map_nd_map {A B C} (f : A -> B) (g : B -> C) (a : nd A) :
  nd_map g (nd_map f a) = nd_map (fun x => g (f x)) a.
Proof.
  destruct a as [rows|rows]; simpl; f_equal.
  - rewrite map_map. apply map_ext. intros row. by rewrite map_map.
  - rewrite map_map. apply map_ext. intros row. rewrite map_map.
    apply map_ext. intros cell. by rewrite map_map.
Qed.

(** For a colour image without windowing whose samples are 8-bit values,
    [_rescale_dcm_pixel_array] returns the samples unchanged. *)
Theorem rescale_color_unchanged (instance : Instance) :
  contains instance WindowWidth = false ->
  Forall (fun v => 0 <= v <= 255) (flatten (arr_data (pixel_array instance))) ->
  _rescale_dcm_pixel_array apply_voi_lut instance false
  = Ok {| arr_dtype := uint8; arr_data := arr_data (pixel_array instance) |}.
Proof.
  intros Hno Hrange. unfold _rescale_dcm_pixel_array, image_2d_float.
  rewrite Hno. simpl. rewrite nd_map_nd_map, nd_map_id; [done|].
  eapply Forall_impl; [exact Hrange|]. intros v Hv. by apply uint8_of_Z.
Qed.

End WithVoiLut.

Definition rgb_instance (rows : list (list (list Z))) : Instance :=
  {| elements := [photometric "RGB"];
     pixel_array := {| arr_dtype := uint8; arr_data := Arr3 rows |} |}.

Lemma box_color_setting_synonyms_witness :
  (str_in (PyStr.lower "INVERTED") contrast_names = true
   /\ str_in (PyStr.lower "contrast") contrast_names = true)
  /\ _get_most_common_pixel_value (monochrome uint8 [[0; 0; 255]; [0; 7; 0]]) "INVERTED"
     = _get_most_common_pixel_value (monochrome uint8 [[0; 0; 255]; [0; 7; 0]]) "contrast".
Proof.
  split; [split; reflexivity|].
  apply (box_color_setting_synonyms no_voi_lut (monochrome uint8 [[0; 0; 255]; [0; 7; 0]])
           "INVERTED" "contrast").
  left. split; reflexivity.
Defined.

Lemma rescale_outcome_witness :
  (read_pixel_array (monochrome uint16 [[0; 1000]; [500; 2000]])
   = Ok (pixel_array (monochrome uint16 [[0; 1000]; [500; 2000]]))
   /\ contains (monochrome uint16 [[0; 1000]; [500; 2000]]) WindowWidth = false
   /\ flatten (arr_data (pixel_array (monochrome uint16 [[0; 1000]; [500; 2000]]))) <> [])
  /\ exists out,
       _rescale_dcm_pixel_array no_voi_lut (monochrome uint16 [[0; 1000]; [500; 2000]]) true
       = Ok out
       /\ arr_dtype out = uint8
       /\ shape (arr_data out) = [2; 2]%nat.
Proof.
  split; [split; [reflexivity|split; [reflexivity|discriminate]]|].
  destruct (rescale_outcome no_voi_lut (monochrome uint16 [[0; 1000]; [500; 2000]]) true)
    as (out & Hrun & Hdt & Hshape & _); [reflexivity|reflexivity|discriminate|].
  by exists out.
Defined.

Lemma rescale_color_unchanged_witness :
  (contains (rgb_instance [[[255; 0; 0]; [0; 128; 7]]]) WindowWidth = false
   /\ Forall (fun v => 0 <= v <= 255) [255; 0; 0; 0; 128; 7])
  /\ _rescale_dcm_pixel_array no_voi_lut (rgb_instance [[[255; 0; 0]; [0; 128; 7]]]) false
     = Ok {| arr_dtype := uint8; arr_data := Arr3 [[[255; 0; 0]; [0; 128; 7]]] |}.
Proof.
  assert (Hrange : Forall (fun v => 0 <= v <= 255) [255; 0; 0; 0; 128; 7])
    by (repeat constructor; lia).
  split; [split; [reflexivity|exact Hrange]|].
  apply (rescale_color_unchanged no_voi_lut (rgb_instance [[[255; 0; 0]; [0; 128; 7]]]));
    [reflexivity|exact Hrange].
Defined.

End EngineFacts.

(** ** The redaction applicator on colour images, and what it keeps *)

Module RedactionFacts.
Import PyVal Numpy Dicom Engine.

(** A pixel array of shape [(rows, cols, 3)] with at least one pixel. *)
Definition rgb_shaped (rows : list (list (list Z))) : Prop :=
  rows <> []
  /\ Forall (fun row => row <> [] /\ Forall (fun cell => length cell = 3%nat) row) rows.

(** Writing one rectangle with the same content for every cell. *)
Definition fill_cells {A} (c : A) (buffer : list (list A)) (bbox : Rectangle)
  : list (list A) :=
  assign_slice2 (fun _ => c) (r_top bbox) (r_height bbox) (r_left bbox) (r_width bbox) buffer.

Lemma fill_cells_lookup {A} (c : A) (rows : list (list A)) (bbox : Rectangle) (r col : nat) :
  rectangle_ok bbox ->
  fill_cells c rows bbox !! r ≫= (.!! col)
  = (fun p => if covered [bbox] r col then c else p) <$> (rows !! r ≫= (.!! col)).
Proof.
  intros (Ht & Hl & Hw & Hh). unfold fill_cells. rewrite assign_slice2_lookup.
  destruct (rows !! r) as [row|] eqn:Hrow; simpl; [|done].
  destruct (row !! col) as [p|] eqn:Hp; simpl; [|done].
  apply lookup_lt_Some in Hrow, Hp.
  rewrite !in_slice_nonneg by lia.
  rewrite orb_false_r, andb_assoc. done.
Qed.

Lemma foldl_fill_cells_lookup {A} (c : A) (boxes : list Rectangle) :
  forall (rows : list (list A)) r col,
    Forall rectangle_ok boxes ->
    foldl (fill_cells c) rows boxes !! r ≫= (.!! col)
    = (fun p => if covered boxes r col then c else p) <$> (rows !! r ≫= (.!! col)).
Proof.
  induction boxes as [|bbox boxes IH]; intros rows r col Hok; simpl.
  - by destruct (rows !! r ≫= (.!! col)).
  - apply Forall_cons in Hok as [Hbox Hok].
    rewrite IH, fill_cells_lookup by done.
    destruct (rows !! r ≫= (.!! col)) as [p|]; simpl; [|done].
    rewrite orb_false_r. by destruct (_ && _), (covered boxes r col).
Qed.

Lemma rgb_shaped_shape (rows : list (list (list Z))) :
  rgb_shaped rows -> nth 2 (shape (Arr3 rows)) 0%nat = 3%nat.
Proof.
  intros [Hne Hall]. destruct rows as [|row rows]; [done|].
  apply Forall_cons in Hall as [[Hrow Hcells] _].
  destruct row as [|cell row]; [done|].
  apply Forall_cons in Hcells as [Hcell _]. done.
Qed.

Lemma rgb_shaped_fill (rows : list (list (list Z))) (red green blue : Z) (bbox : Rectangle) :
  rgb_shaped rows -> rgb_shaped (fill_cells [red; green; blue] rows bbox).
Proof.
  intros [Hne Hall]. unfold fill_cells, assign_slice2. split.
  - destruct rows; [done|]. done.
  - apply Forall_forall. intros row' [r [row [-> Hrow]]]%elem_of_lookup_imap.
    rewrite Forall_forall in Hall.
    destruct (Hall row (list_elem_of_lookup_2 _ _ _ Hrow)) as [Hrne Hcells].
    destruct (in_slice _ _ _ r); [|done]. split.
    + by destruct row.
    + apply Forall_forall. intros cell' [c [cell [-> Hcell]]]%elem_of_lookup_imap.
      rewrite Forall_forall in Hcells.
      pose proof (Hcells cell (list_elem_of_lookup_2 _ _ _ Hcell)).
      by destruct (in_slice _ _ _ c).
Qed.

Section WithVoiLut.

Variable apply_voi_lut : ndarray -> list DataElement -> nd Float64.float.

Lemma write_boxes_rgb (boxes : list Rectangle) (red green blue : Z) : forall rows,
  rgb_shaped rows ->
  write_boxes boxes (CTuple [red; green; blue]) (Arr3 rows)
  = Ok (Arr3 (foldl (fill_cells [red; green; blue]) rows boxes)).
Proof.
  induction boxes as [|bbox boxes IH]; intros rows Hshape; [done|].
  cbn [write_boxes setitem_slice2]. rewrite (rgb_shaped_shape rows Hshape). simpl.
  apply IH. by apply rgb_shaped_fill.
Qed.

(** The colour path of [_add_redact_box]: on an RGB instance with a
    [(rows, cols, 3)] buffer, when the raster colour selection gives the
    colour [(red, green, blue)], the run returns an instance in which every
    pixel inside the span of a rectangle holds that colour and every other
    pixel is unchanged. *)
Theorem add_redact_box_color_mask (h : heap) (instance : loc) (ds : FileDataset)
    (dt : dtype) (rows : list (list (list Z))) (boxes : list Rectangle)
    (setting : string) (red green blue : Z) :
  let original := {| elements := ds_elements ds;
                     pixel_array := {| arr_dtype := dt; arr_data := Arr3 rows |} |} in
  h !! instance = Some (ODataset ds) ->
  h !! ds_pixel_array ds = Some (OArray {| arr_dtype := dt; arr_data := Arr3 rows |}) ->
  rgb_shaped rows ->
  _check_if_greyscale original = Ok false ->
  _set_bbox_color apply_voi_lut original setting = Ok (CTuple [red; green; blue]) ->
  Forall rectangle_ok boxes ->
  exists out h' ds' rows',
    _add_redact_box apply_voi_lut instance boxes setting h = (Ok out, h')
    /\ h' !! out = Some (ODataset ds')
    /\ h' !! ds_pixel_array ds' = Some (OArray {| arr_dtype := dt; arr_data := Arr3 rows' |})
    /\ ds_PixelData ds' = concat (map (@concat Z) rows')
    /\ forall r c,
         rows' !! r ≫= (.!! c)
         = (fun cell => if covered boxes r c then [red; green; blue] else cell)
             <$> (rows !! r ≫= (.!! c)).
Proof.
  intros original Hl Ha Hshape Hgrey Hcolor Hok.
  destruct (add_redact_box_run apply_voi_lut h instance ds _ boxes setting Hl Ha)
    as (Hla & Hl' & Hne & r & a2 & pd & Hrun & Hdt & Hres).
  unfold select_box_color in Hres. fold original in Hres.
  rewrite Hgrey in Hres. simpl in Hres. rewrite Hcolor in Hres.
  rewrite (write_boxes_rgb boxes red green blue rows Hshape) in Hres.
  destruct Hres as (-> & Hdata & ->).
  destruct a2 as [dt2 data2]. simpl in Hdt, Hdata. subst dt2 data2.
  eexists _, _, _, (foldl (fill_cells [red; green; blue]) rows boxes).
  split; [exact Hrun|].
  rewrite lookup_insert_eq. split; [done|]. simpl.
  rewrite lookup_insert_ne by done. rewrite lookup_insert_eq.
  do 2 (split; [done|]). intros r c. by apply foldl_fill_cells_lookup.
Qed.

(** What a returning run of [_add_redact_box] keeps: the returned dataset
    has the metadata elements of the input, its pixel array has the element
    type of the input's, and its [PixelData] is the serialisation of its
    pixel array.  With an empty list of rectangles the pixel array has the
    content of the input's. *)
Theorem add_redact_box_keeps (h h' : heap) (instance out : loc) (ds : FileDataset)
    (a : ndarray) (boxes : list Rectangle) (setting : string) :
  h !! instance = Some (ODataset ds) ->
  h !! ds_pixel_array ds = Some (OArray a) ->
  _add_redact_box apply_voi_lut instance boxes setting h = (Ok out, h') ->
  exists ds' a',
    h' !! out = Some (ODataset ds')
    /\ h' !! ds_pixel_array ds' = Some (OArray a')
    /\ ds_elements ds' = ds_elements ds
    /\ arr_dtype a' = arr_dtype a
    /\ ds_PixelData ds' = tobytes a'
    /\ (boxes = [] -> a' = a).
Proof.
  intros Hl Ha Hrun.
  destruct (add_redact_box_run apply_voi_lut h instance ds a boxes setting Hl Ha)
    as (Hla & Hl' & Hne & r & a2 & pd & Hrun' & Hdt & Hres).
  rewrite Hrun in Hrun'. injection Hrun' as <- ->.
  destruct (select_box_color _ _ _) as [box_color|e]; [|done].
  destruct (write_boxes boxes box_color (arr_data a)) as [data|e] eqn:Hwrite; [|done].
  destruct Hres as ([= ->] & Hdata & ->).
  eexists _, a2. rewrite lookup_insert_eq. split; [done|]. simpl.
  rewrite lookup_insert_ne by done. rewrite lookup_insert_eq.
  do 3 (split; [done|]). split; [unfold tobytes; by rewrite Hdata|].
  intros ->. simpl in Hwrite. injection Hwrite as <-.
  destruct a, a2. simpl in *. by subst.
Qed.

End WithVoiLut.

Definition color_heap : heap :=
  {[ 1%positive := ODataset {| ds_elements := [photometric "RGB"];
                               ds_pixel_array := 2%positive;
                               ds_PixelData := [255; 0; 0; 0; 128; 7] |};
     2%positive := OArray {| arr_dtype := uint8;
                             arr_data := Arr3 [[[255; 0; 0]; [0; 128; 7]]] |} ]}.

Lemma add_redact_box_color_mask_witness :
  (_set_bbox_color no_voi_lut
     {| elements := [photometric "RGB"];
        pixel_array := {| arr_dtype := uint8;
                          arr_data := Arr3 [[[255; 0; 0]; [0; 128; 7]]] |} |} "background"
   = Ok (CTuple [0; 128; 7])
   /\ rgb_shaped [[[255; 0; 0]; [0; 128; 7]]])
  /\ exists out h' ds' rows',
       _add_redact_box no_voi_lut 1%positive
         [ {| r_top := 0; r_left := 0; r_width := 1; r_height := 1 |} ]
         "background" color_heap = (Ok out, h')
       /\ h' !! out = Some (ODataset ds')
       /\ h' !! ds_pixel_array ds'
          = Some (OArray {| arr_dtype := uint8; arr_data := Arr3 rows' |}).
Proof.
  assert (Hshape : rgb_shaped [[[255; 0; 0]; [0; 128; 7]]]).
  { split; [done|]. repeat constructor; done. }
  split; [split; [vm_compute; reflexivity|exact Hshape]|].
  destruct (add_redact_box_color_mask no_voi_lut color_heap 1%positive
              {| ds_elements := [photometric "RGB"];
                 ds_pixel_array := 2%positive;
                 ds_PixelData := [255; 0; 0; 0; 128; 7] |}
              uint8 [[[255; 0; 0]; [0; 128; 7]]]
              [ {| r_top := 0; r_left := 0; r_width := 1; r_height := 1 |} ]
              "background" 0 128 7)
    as (out & h' & ds' & rows' & Hrun & Hout & Harr & _).
  - reflexivity.
  - reflexivity.
  - exact Hshape.
  - reflexivity.
  - vm_compute. reflexivity.
  - repeat constructor; simpl; lia.
  - by exists out, h', ds', rows'.
Defined.

Lemma add_redact_box_keeps_witness :
  (sample_heap !! 1%positive
   = Some (ODataset {| ds_elements := [photometric "MONOCHROME2"];
                       ds_pixel_array := 2%positive;
                       ds_PixelData := [0; 0; 0; 0; 5; 0] |})
   /\ fst (_add_redact_box no_voi_lut 1%positive [] "bg" sample_heap) = Ok 4%positive)
  /\ exists ds' a',
       snd (_add_redact_box no_voi_lut 1%positive [] "bg" sample_heap) !! 4%positive
         = Some (ODataset ds')
       /\ ds_elements ds' = [photometric "MONOCHROME2"]
       /\ ds_PixelData ds' = tobytes a'.
Proof.
  assert (Hfst : fst (_add_redact_box no_voi_lut 1%positive [] "bg" sample_heap)
                 = Ok 4%positive) by (vm_compute; reflexivity).
  split; [split; [reflexivity|exact Hfst]|].
  destruct (add_redact_box_keeps no_voi_lut sample_heap
              (snd (_add_redact_box no_voi_lut 1%positive [] "bg" sample_heap))
              1%positive 4%positive
              {| ds_elements := [photometric "MONOCHROME2"];
                 ds_pixel_array := 2%positive;
                 ds_PixelData := [0; 0; 0; 0; 5; 0] |}
              {| arr_dtype := uint8; arr_data := Arr2 [[0; 0; 0]; [0; 5; 0]] |}
              [] "bg")
    as (ds' & a' & Hout & _ & Hel & _ & Hpd & _).
  - reflexivity.
  - reflexivity.
  - revert Hfst. destruct (_add_redact_box _ _ _ _ _) as [r0 h0]. simpl. by intros ->.
  - exists ds', a'. by repeat split.
Defined.

End RedactionFacts.

(** ** The PNG that the colour selection reads *)

Module PngFacts.
Import PyVal Numpy Dicom Engine Raster RedactionFacts.

Lemma triples_concat (cells : list (list Z)) :
  Forall (fun cell => length cell = 3%nat) cells ->
  triples (concat cells) = map CTuple cells.
Proof.
  induction 1 as [|cell cells Hcell _ IH]; [done|].
  destruct cell as [|r [|g [|b [|? ?]]]]; try done. simpl. by rewrite IH.
Qed.

Lemma length_concat_cells (cells : list (list Z)) :
  Forall (fun cell => length cell = 3%nat) cells ->
  length (concat cells) = (length cells * 3)%nat.
Proof.
  induction 1 as [|cell cells Hcell _ IH]; [done|].
  simpl. rewrite length_app, IH, Hcell. lia.
Qed.

(** The PNG writer accepts rows of the announced size with 8-bit values. *)
Lemma png_image_ok (width height : nat) (greyscale : bool) (rows : list (list Z)) :
  (0 < width)%nat -> (0 < height)%nat ->
  length rows = height ->
  Forall (fun row => length row = (width * (if greyscale then 1 else 3))%nat) rows ->
  Forall (Forall (fun v => 0 <= v <= 255)) rows ->
  png_image width height greyscale rows
  = Ok {| PIL.im_mode := if greyscale then PIL.L else PIL.RGB;
          PIL.im_size := (width, height);
          PIL.im_data := if greyscale then map (map CInt) rows else map triples rows |}.
Proof.
  intros Hw Hh Hlen Hrows Hrange. unfold png_image.
  destruct (Nat.eqb_spec width 0); [lia|].
  destruct (Nat.eqb_spec height 0); [lia|]. simpl.
  rewrite (proj2 (Nat.eqb_eq _ _) Hlen). simpl.
  assert (H1 : forallb (fun row => (length row =? width * (if greyscale then 1 else 3))%nat)
                       rows = true).
  { apply forallb_forall. intros row Hin%list_elem_of_In.
    rewrite Forall_forall in Hrows. apply Nat.eqb_eq. by apply Hrows. }
  rewrite H1. simpl.
  assert (H2 : forallb (forallb (fun v => (0 <=? v) && (v <=? 255))) rows = true).
  { apply forallb_forall. intros row Hin%list_elem_of_In.
    rewrite Forall_forall in Hrange. specialize (Hrange row Hin).
    apply forallb_forall. intros v Hv%list_elem_of_In.
    rewrite Forall_forall in Hrange. specialize (Hrange v Hv). lia. }
  rewrite H2. done.
Qed.

Lemma amax_nonempty (frows : list (list Float64.float)) (ncols : nat) :
  frows <> [] -> (0 < ncols)%nat ->
  Forall (fun row => length row = ncols) frows ->
  exists maximum, Float64.amax (concat frows) = Ok maximum.
Proof.
  intros Hne Hpos Hrows. destruct frows as [|row frows]; [done|].
  pose proof (Forall_inv Hrows) as Hrow.
  destruct row as [|x row]; [simpl in Hrow; lia|]. simpl. by eexists.
Qed.

Lemma head_length {A} (rows : list (list A)) (ncols : nat) :
  rows <> [] -> Forall (fun row => length row = ncols) rows ->
  length (default [] (head rows)) = ncols.
Proof. intros Hne Hrows. destruct rows; [done|]. exact (Forall_inv Hrows). Qed.

Section WithVoiLut.

Variable apply_voi_lut : ndarray -> list DataElement -> nd Float64.float.

(** [_convert_dcm_to_png] on a grayscale instance whose image has at
    least one pixel and rows of one length: the PNG is an 8-bit grayscale
    image of size (columns, rows) whose pixels are the image's values
    normalised by its maximum, it is returned with the shape
    [(rows, columns)] and the flag [True], and it is a raster that the
    colour selection accepts. *)
Theorem convert_dcm_to_png_greyscale (ds : Instance)
    (frows : list (list Float64.float)) (ncols : nat) :
  _check_if_greyscale ds = Ok true ->
  image_2d_float apply_voi_lut ds = Arr2 frows ->
  frows <> [] -> (0 < ncols)%nat ->
  Forall (fun row => length row = ncols) frows ->
  exists maximum png,
    Float64.amax (concat frows) = Ok maximum
    /\ _convert_dcm_to_png apply_voi_lut ds = Ok (png, [length frows; ncols], true)
    /\ PIL.im_mode png = PIL.L
    /\ PIL.im_size png = (ncols, length frows)
    /\ PIL.im_data png
       = map (map (fun x => CInt (Float64.to_uint8 (rescale_entry maximum x)))) frows
    /\ valid_raster png true.
Proof.
  intros Hgrey Himg Hne Hpos Hrows.
  destruct (amax_nonempty frows ncols Hne Hpos Hrows) as [maximum Hmax].
  set (rows := map (map (fun x => Float64.to_uint8 (rescale_entry maximum x))) frows).
  assert (Hlen : length rows = length frows) by (unfold rows; by rewrite List.length_map).
  assert (Hrows' : Forall (fun row => length row = ncols) rows).
  { unfold rows. apply Forall_forall. intros row' Hin%list_elem_of_In.
    apply in_map_iff in Hin as (row & <- & Hin%list_elem_of_In).
    rewrite List.length_map. rewrite Forall_forall in Hrows. by apply Hrows. }
  assert (Hrange : Forall (Forall (fun v => 0 <= v <= 255)) rows).
  { unfold rows. apply Forall_forall. intros row' Hin%list_elem_of_In.
    apply in_map_iff in Hin as (row & <- & _).
    apply Forall_forall. intros v Hv%list_elem_of_In.
    apply in_map_iff in Hv as (x & <- & _). apply Float64.to_uint8_range. }
  assert (Hne' : rows <> []) by (intros Hnil; apply Hne; destruct frows; done).
  assert (Hh : (0 < length frows)%nat) by (destruct frows; [done|simpl; lia]).
  exists maximum. eexists. split; [done|].
  unfold _convert_dcm_to_png, _rescale_dcm_pixel_array. rewrite Hgrey, Himg.
  cbn [mbind res_mbind res_bind negb flatten]. rewrite Hmax.
  cbn [mbind res_mbind res_bind nd_map arr_data rows_2d shape nth].
  rewrite List.map_map.
  replace (map (fun x => map Float64.to_uint8 (map (rescale_entry maximum) x)) frows)
    with rows by (unfold rows; apply map_ext; intros row; by rewrite List.map_map).
  rewrite (head_length rows ncols Hne' Hrows'), Hlen.
  rewrite png_image_ok; [|done|done|done| |done].
  2:{ eapply Forall_impl; [exact Hrows'|]. simpl. intros row Hrow. lia. }
  cbn [mbind res_mbind res_bind PIL.im_mode PIL.im_size PIL.im_data].
  split; [done|]. split; [done|]. split; [done|].
  assert (Hdata : map (map CInt) rows
                  = map (map (fun x => CInt (Float64.to_uint8 (rescale_entry maximum x))))
                        frows).
  { unfold rows. rewrite List.map_map. apply map_ext. intros row. by rewrite List.map_map. }
  split; [exact Hdata|].
  split; [|split; [done|split; [done|]]].
  - split; simpl; [by rewrite List.length_map|].
    apply Forall_forall. intros row' Hin%list_elem_of_In.
    apply in_map_iff in Hin as (row & <- & Hin%list_elem_of_In).
    rewrite List.length_map. rewrite Forall_forall in Hrows'. by apply Hrows'.
  - intros _. simpl. apply Forall_forall. intros row' Hin%list_elem_of_In.
    apply in_map_iff in Hin as (row & <- & Hin%list_elem_of_In).
    rewrite Forall_forall in Hrange. specialize (Hrange row Hin).
    apply Forall_forall. intros c Hc%list_elem_of_In.
    apply in_map_iff in Hc as (v & <- & Hv%list_elem_of_In).
    rewrite Forall_forall in Hrange. specialize (Hrange v Hv).
    exists v. split; [done|lia].
Qed.

(** [_convert_dcm_to_png] on a colour instance without windowing whose
    pixel array has the element type [uint8] and the shape
    [(rows, columns, 3)]: the PNG is an RGB image of size (columns, rows)
    whose pixels are the samples of the pixel array as they are, returned
    with the shape [(rows, columns, 3)] and the flag [False]. *)
Theorem convert_dcm_to_png_color (ds : Instance) (rows : list (list (list Z)))
    (ncols : nat) :
  _check_if_greyscale ds = Ok false ->
  contains ds WindowWidth = false ->
  arr_dtype (pixel_array ds) = uint8 ->
  arr_data (pixel_array ds) = Arr3 rows ->
  rgb_shaped rows ->
  Forall (fun row => length row = ncols) rows ->
  Forall (fun v => 0 <= v <= 255) (flatten (Arr3 rows)) ->
  _convert_dcm_to_png apply_voi_lut ds
  = Ok ({| PIL.im_mode := PIL.RGB; PIL.im_size := (ncols, length rows);
           PIL.im_data := map (map CTuple) rows |},
        [length rows; ncols; 3%nat], false).
Proof.
  intros Hgrey Hno _ Hdata Hshape Hrows Hrange.
  assert (Hrescale : _rescale_dcm_pixel_array apply_voi_lut ds false
                     = Ok {| arr_dtype := uint8; arr_data := Arr3 rows |}).
  { unfold _rescale_dcm_pixel_array, image_2d_float. rewrite Hno, Hdata. simpl negb.
    cbn [mbind res_mbind res_bind].
    rewrite EngineFacts.nd_map_nd_map, EngineFacts.nd_map_id; [done|].
    eapply Forall_impl; [exact Hrange|]. intros v Hv. by apply EngineFacts.uint8_of_Z. }
  assert (Hnr : (0 < length rows)%nat).
  { destruct Hshape as [Hne _]. destruct rows; [done|simpl; lia]. }
  assert (Hnc : (0 < ncols)%nat).
  { destruct Hshape as [Hne Hall]. destruct rows as [|row rows']; [done|].
    apply Forall_inv in Hall as [Hrow _]. apply Forall_inv in Hrows.
    destruct row; [done|]. simpl in Hrows. lia. }
  assert (Hcells : Forall (Forall (fun cell => length cell = 3%nat)) rows).
  { destruct Hshape as [_ Hall]. eapply Forall_impl; [exact Hall|]. by intros row [_ ?]. }
  assert (Hsh : shape (Arr3 rows) = [length rows; ncols; 3%nat]).
  { pose proof (rgb_shaped_shape rows Hshape) as H3. simpl in H3. simpl.
    rewrite H3. f_equal. f_equal.
    destruct Hshape as [Hne _]. by apply head_length. }
  unfold _convert_dcm_to_png. rewrite Hgrey. cbn [mbind res_mbind res_bind].
  rewrite Hrescale. cbn [mbind res_mbind res_bind arr_data]. rewrite Hsh, Hdata.
  cbn [nth].
  destruct (Nat.eqb_spec ncols 0); [lia|].
  destruct (Nat.eqb_spec (length rows) 0); [lia|]. simpl orb. cbv iota.
  unfold reshape_rgb. rewrite Hsh. cbn [nth Nat.eqb]. cbn [mbind res_mbind res_bind].
  rewrite png_image_ok; [|done|done|by rewrite List.length_map| |].
  - cbn [mbind res_mbind res_bind]. do 4 f_equal.
    rewrite List.map_map. apply map_ext_in. intros row Hin%list_elem_of_In.
    rewrite Forall_forall in Hcells. by apply triples_concat, Hcells.
  - apply Forall_forall. intros row' Hin%list_elem_of_In.
    apply in_map_iff in Hin as (row & <- & Hin%list_elem_of_In).
    rewrite Forall_forall in Hcells, Hrows.
    rewrite (length_concat_cells row (Hcells row Hin)). by rewrite (Hrows row Hin).
  - apply Forall_forall. intros row' Hin%list_elem_of_In.
    apply Forall_forall. intros v Hv.
    rewrite Forall_forall in Hrange. apply Hrange. simpl.
    apply list_elem_of_In, in_concat. exists row'. split; [done|by apply list_elem_of_In].
Qed.

End WithVoiLut.

Lemma convert_dcm_to_png_greyscale_witness :
  (_check_if_greyscale (monochrome uint16 [[0; 1000]; [500; 2000]]) = Ok true
   /\ Forall (fun row => length row = 2%nat)
             [[Float64.of_Z 0; Float64.of_Z 1000]; [Float64.of_Z 500; Float64.of_Z 2000]])
  /\ exists png,
       _convert_dcm_to_png no_voi_lut (monochrome uint16 [[0; 1000]; [500; 2000]])
       = Ok (png, [2%nat; 2%nat], true)
       /\ valid_raster png true.
Proof.
  assert (Hrows : Forall (fun row => length row = 2%nat)
             [[Float64.of_Z 0; Float64.of_Z 1000]; [Float64.of_Z 500; Float64.of_Z 2000]])
    by (repeat constructor).
  split; [split; [reflexivity|exact Hrows]|].
  destruct (convert_dcm_to_png_greyscale no_voi_lut
              (monochrome uint16 [[0; 1000]; [500; 2000]])
              [[Float64.of_Z 0; Float64.of_Z 1000]; [Float64.of_Z 500; Float64.of_Z 2000]]
              2%nat)
    as (maximum & png & _ & Hrun & _ & _ & _ & Hvalid).
  - reflexivity.
  - reflexivity.
  - discriminate.
  - lia.
  - exact Hrows.
  - exists png. by split.
Defined.

Example convert_dcm_to_png_greyscale_ex :
  _convert_dcm_to_png no_voi_lut (monochrome uint16 [[0; 1000]; [500; 2000]])
  = Ok ({| PIL.im_mode := PIL.L; PIL.im_size := (2, 2)%nat;
           PIL.im_data := [[CInt 0; CInt 127]; [CInt 63; CInt 255]] |},
        [2%nat; 2%nat], true).
Proof. vm_compute. reflexivity. Qed.

Lemma convert_dcm_to_png_color_witness :
  (arr_dtype (pixel_array (EngineFacts.rgb_instance [[[255; 0; 0]; [0; 128; 7]]])) = uint8
   /\ rgb_shaped [[[255; 0; 0]; [0; 128; 7]]]
   /\ Forall (fun v => 0 <= v <= 255) [255; 0; 0; 0; 128; 7])
  /\ _convert_dcm_to_png no_voi_lut
       (EngineFacts.rgb_instance [[[255; 0; 0]; [0; 128; 7]]])
     = Ok ({| PIL.im_mode := PIL.RGB; PIL.im_size := (2, 1)%nat;
              PIL.im_data := [[CTuple [255; 0; 0]; CTuple [0; 128; 7]]] |},
           [1%nat; 2%nat; 3%nat], false).
Proof.
  assert (Hshape : rgb_shaped [[[255; 0; 0]; [0; 128; 7]]]).
  { split; [done|]. repeat constructor; done. }
  assert (Hrange : Forall (fun v => 0 <= v <= 255) [255; 0; 0; 0; 128; 7])
    by (repeat constructor; lia).
  split; [split; [reflexivity|split; [exact Hshape|exact Hrange]]|].
  apply (convert_dcm_to_png_color no_voi_lut
           (EngineFacts.rgb_instance [[[255; 0; 0]; [0; 128; 7]]])
           [[[255; 0; 0]; [0; 128; 7]]] 2%nat).
  - reflexivity.
  - reflexivity.
  - reflexivity.
  - reflexivity.
  - exact Hshape.
  - repeat constructor.
  - exact Hrange.
Defined.

End PngFacts.

(** ** The enumeration of DICOM files *)

Module FilesFacts.
Import Files.

(** Everything below a directory, at any depth, with its path. *)
Fixpoint descendants (here : path) (e : entry) : list (path * entry) :=
  match e with
  | File _ => []
  | Dir _ children =>
      concat (map (fun c => (here ++ [entry_name c], c)
                            :: descendants (here ++ [entry_name c]) c) children)
  end.

Fixpoint entry_ind' (P : entry -> Prop)
    (HFile : forall name, P (File name))
    (HDir : forall name children, List.Forall P children -> P (Dir name children))
    (e : entry) : P e :=
  match e with
  | File name => HFile name
  | Dir name children =>
      HDir name children
        ((fix go (cs : list entry) : List.Forall P cs :=
            match cs with
            | [] => @List.Forall_nil entry P
            | c :: cs' => @List.Forall_cons entry P c cs' (entry_ind' P HFile HDir c) (go cs')
            end) children)
  end.

Lemma is_suffix_spec (suffix s : string) :
  is_suffix suffix s = true <-> exists prefix, s = (prefix ++ suffix)%string.
Proof.
  induction s as [|a s IH]; simpl.
  - rewrite orb_false_r, String.eqb_eq. split.
    + intros ->. by exists EmptyString.
    + intros [[|b prefix] Heq]; simpl in Heq; [done|discriminate].
  - rewrite orb_true_iff, String.eqb_eq, IH. split.
    + intros [->|[prefix ->]]; [by exists EmptyString|by exists (String a prefix)].
    + intros [[|b prefix] Heq]; simpl in Heq; [by left|].
      injection Heq as -> ->. right. by exists prefix.
Qed.

Lemma glob_rec_spec (fl : flavour) (extension : string) (e : entry) :
  forall here p x,
    (p, x) ∈ glob_rec fl extension here e
    <-> (p, x) ∈ descendants here e /\ matches fl extension (entry_name x) = true.
Proof.
  induction e as [name|name children IH] using entry_ind'; intros here p x; simpl.
  - split; [by intros ?%elem_of_nil|by intros [?%elem_of_nil _]].
  - rewrite elem_of_app. rewrite !list_elem_of_In, !in_concat.
    setoid_rewrite in_map_iff. split.
    + intros [(c & [= <- <-] & Hc%list_elem_of_In)|(l & (c & <- & Hc) & Hin)].
      * apply list_elem_of_filter in Hc as [Hm Hc%list_elem_of_In].
        split; [|done]. eexists. split; [by exists c|]. by left.
      * rewrite List.Forall_forall in IH.
        apply list_elem_of_In, (IH c Hc) in Hin as [Hin%list_elem_of_In Hm].
        split; [|done]. eexists. split; [by exists c|]. by right.
    + intros [(l & (c & <- & Hc) & [[= <- <-]|Hin]) Hm].
      * left. exists c. split; [done|].
        apply list_elem_of_In, list_elem_of_filter. split; [done|by apply list_elem_of_In].
      * right. eexists. split; [by exists c|].
        rewrite List.Forall_forall in IH.
        apply list_elem_of_In, (IH c Hc). split; [by apply list_elem_of_In|done].
Qed.

(** [_get_all_dcm_files] returns exactly the paths of the regular files,
    at any depth below the directory, whose name matches [*.dcm] or
    [*.dicom]; a directory is never returned, whatever its name. *)
Theorem get_all_dcm_files_spec (fl : flavour) (dcm_dir : entry) (p : path) :
  p ∈ _get_all_dcm_files fl dcm_dir
  <-> exists e,
        (p, e) ∈ descendants [] dcm_dir
        /\ is_file e = true
        /\ (matches fl "dcm" (entry_name e) = true
            \/ matches fl "dicom" (entry_name e) = true).
Proof.
  unfold _get_all_dcm_files, extensions, glob. simpl. rewrite app_nil_r, elem_of_app.
  assert (Hone : forall extension,
             p ∈ map fst (filter (fun x => is_file x.2 = true)
                                 (glob_rec fl extension [] dcm_dir))
             <-> exists e, (p, e) ∈ descendants [] dcm_dir /\ is_file e = true
                           /\ matches fl extension (entry_name e) = true).
  { intros extension. rewrite list_elem_of_In, in_map_iff. split.
    - intros ([p' e] & <- & Hin%list_elem_of_In).
      apply list_elem_of_filter in Hin as [Hfile Hin].
      apply glob_rec_spec in Hin as [Hin Hm]. by exists e.
    - intros (e & Hin & Hfile & Hm). exists (p, e). split; [done|].
      apply list_elem_of_In, list_elem_of_filter. split; [done|].
      by apply glob_rec_spec. }
  rewrite !Hone. split.
  - intros [(e & ? & ? & ?)|(e & ? & ? & ?)]; exists e; auto.
  - intros (e & ? & ? & [?|?]); [left|right]; by exists e.
Qed.

End FilesFacts.
